(* ===== verification/_CoqProject ===== *)
-Q . S2P
Prelude.v
Json.v
JsonText.v
Schema.v
StoryModel.v
DiffOwner.v
DiffHistory.v
StoryStore.v
Extractor.v
Service.v
PromptSections.v
Routes.v
Concurrency.v
Tests.v
