(* ===== verification/Prelude.v ===== *)
(** * The user-story feature of lobe-chat: a verification development

    The program (TypeScript, under src/) periodically writes, for each user,
    a markdown "story" that an LLM produces with a tool call.  Each user has
    one versioned story row and an append-only table of diffs.  Its parts,
    and how they call each other:
    - the webhook and the workflow routes take a batch of user ids and run,
      for each id in order, [buildUserStoryJobInput] then
      [UserStoryService.composeStory];
    - [buildUserStoryJobInput] reads the user's latest story and 20 most
      recent memories and assembles the context of the prompt;
    - [composeStory] calls [UserStoryExtractor.toolCall] (prompt, LLM tool
      call, zod schema) and then [UserStoryModel.upsertStory];
    - [upsertStory] is one database transaction on the two story tables.

    Files, in dependency order (the reading order as well):
    - [Prelude.v] (this file): the errors, a state-and-error monad [st] with
      [atomically] (rollback), [st_catch] (try/catch) and [st_for] (the
      sequential [for ... of] loop), the notations of [js_scope], the
      JavaScript operators the sources use ([||], [??], truthiness,
      [trim()], [join], [includes], [Array.from(new Set(..))] with its
      reference order [first_occurrences]), the hint databases [story]
      and [story_rw], and generic lemmas on them (among them the
      [orderBy(..).limit(n)] lemma [take_merge_sort_spec]).
    - [Json.v]: JSON values and the zod combinators ([z.object],
      [z.string], [z.array], [.optional()]).
    - [JsonText.v]: [JSON.stringify] and [JSON.parse] on the text form of
      those values, the parser with the text's length as fuel.
    - [Schema.v]: packages/database/src/schemas/userMemories/story.ts, the
      rows as records, the tables as one record, and the statements
      (insert, update, insert diff) with PostgreSQL's defaults, int4 range,
      the [varchar(255)] length of [title], unique index and foreign keys; the table invariant [db_wf] and its
      executable check [db_wfb].
    - [StoryModel.v]: the class [UserStoryModel]
      (packages/database/src/models/userMemory/story.ts), a section over the
      bound [userId]; [upsertStory] is its read [upsert_read] and its writes
      [upsert_write] inside [transaction].
    - [DiffOwner.v]: the constraint the schema leaves out, that a diff's
      story belongs to the diff's user ([diff_owner_ok], with its check
      [diff_owner_okb]), and how [upsertStory] and [appendDiff] act on it.
    - [DiffHistory.v]: what a reader of the diffs takes them to mean, that
      the [next_version]s of each story's diffs increase and none is past
      the story's version ([history_ok], with its check [history_okb]).
    - [StoryStore.v]: the interface the service relies on, the typeclass
      [UserStoryDb] with its laws [UserStoryDbLaws] stated on an abstract
      per-user view (story, version) and the contract [spec_upsert]; the
      instance [tables_db] for the tables, whose laws are proved.
    - [Extractor.v]: packages/memory-user-memory/src/extractors/story.ts
      ([buildUserPrompt], [getTools], [resultSchema_parse], [toolCall]),
      the JSON-schema validation of the tool's parameters ([tool_accepts])
      and the promptfoo evaluation of the same prompt ([generatePrompt]).
    - [Service.v]: src/server/services/memory/userStory/service.ts, the
      constructor ([UserStoryService_new]), [composeStory] and
      [buildUserStoryJobInput] against [UserStoryDb].
    - [PromptSections.v]: a reader of the user prompt that splits it at the
      five headings of [buildUserPrompt] ([read_user_prompt], with
      [split_first] the first occurrence of a separator).
    - [Routes.v]: the workflow's and the webhook's [POST] handlers
      (src/app/(backend)/api/{workflows,webhooks}/user-story/...), against
      [UserStoryDb].
    - [Concurrency.v]: two [upsertStory] calls of one user interleaved as
      READ COMMITTED allows, a step relation on the tables with the
      transactions in flight and executable schedules.
    - [Tests.v]: the three vitest suites (model, extractor, service), each
      [it] body a computation of the model that returns whether its
      expectations hold, run on the tables of its [beforeEach]; the service
      tests construct the service through [UserStoryService_new].

    What the theorems show, by group:
    - [StoryModel.v]: the version written, the diff row and when there is
      one, exactly when [upsertStory] throws (int4 overflow at 2^31 - 1, a
      title longer than [varchar(255)], the foreign key) and that it then
      rolls back, that it succeeds otherwise and run after run, other users
      untouched, the invariant [db_wf] preserved, read after write, and
      [listDiffs] as [orderBy(desc(createdAt)).limit(n)].
    - [DiffOwner.v]: [upsertStory] keeps every diff on its user's story;
      [appendDiff] with another user's story id succeeds and breaks it.
    - [DiffHistory.v]: [upsertStory] keeps every story's history in order.
    - [StoryStore.v]: [upsertStory] refines [spec_upsert] on the per-user
      view ([upsertStory_refines]); the instance discharges the laws.
    - [JsonText.v]: [JSON.parse] reads back what [JSON.stringify] writes,
      with the fuel the text's length gives.
    - [Extractor.v]: every result the model sends as the text of its
      arguments is read back by [toolCall], [null] optional keys are rejected,
      the tool's parameters schema accepts exactly the values the zod schema
      parses, the evaluation sends the
      extractor's messages when no field needs trimming, and its assertion
      and the extractor's parser disagree both ways.
    - [Service.v] and [Routes.v], proved from the laws only: what a
      successful or failed [composeStory] does to the store, the job input,
      the 20 most recent memories, the batch ids (deduplicated, non-empty,
      in the order of first request), each user processed exactly once by a
      handler that returns, no rollback across users when one throws (the
      users before the one whose job threw stay written), the webhook's
      status codes (403 exactly on a header mismatch, 500 on any throw
      including a malformed body, never an exception).  Scenarios on the
      tables: the tests' fixtures, the non-idempotent retry.
    - [PromptSections.v]: the user prompt is read back into its five texts
      when none holds a heading paragraph; on one database, through the job
      of the routes, a memory that writes headings makes the prompt read as
      if it carried the user's notes.
    - [Concurrency.v]: [db_wf] in every reachable state, the lost update of
      two overlapped jobs and the diff history it leaves (one version
      claimed twice), the unique-index failure of two first runs, and
      for jobs of several users a user's version bounded by that user's
      jobs that ended,
      and every run ending after at most 2n steps without deadlock.
    - [Tests.v]: the model's five tests and the extractor's three pass;
      both of the service's fail, as its mocked configuration has no
      [agentStory] and the constructor throws, and the second would fail
      under every configuration.

    Bounds, fuel and choices: only [JSON.parse] takes fuel, the length of
    its text, proved enough for every text [JSON.stringify] writes (each
    call reads a character or enters one level of nesting, and
    [jsize_le_print]); every other recursion is structural on a list.  Ids come from a counter, which is what the code
    relies on (a fresh nano id).  The clock ticks once per transaction,
    enough to order [updated_at] between commits.  Strings are their UTF-8
    bytes: [trim()] removes the byte sequences of ECMAScript's white space
    and line terminators ([js_spaces]), and [length] counts the UTF-16 code
    units of those bytes ([js_length]).  JSON numbers are integers: no
    modelled code reads a number.  Versions are [Z] with the int4 check
    written out.  [varchar(255)] counts characters: [char_length] counts
    the bytes that do not continue a UTF-8 sequence.

    Not modelled: the LLM provider ([ModelRuntime.generateObject]), the
    prompt template engine and the configuration reader enter as section
    variables; drizzle's connection and [getServerDB]; the context
    providers (their XML is a section variable) and the identity and
    preference queries feeding them; the workflow runtime ([serve], its
    retries, modelled as running the step again); [console.error]; the
    checks promptfoo implements itself ([is-valid-openai-tools-call] and
    the rubric's grading model, parameters of [case_passes]); vitest's call
    recording, replaced by the argument the model passes to the mock; the
    rejection of the NUL character by PostgreSQL's text and jsonb columns
    (a story or summary holding NUL would make the write throw, where the
    model lets it succeed).  MVCC visibility is
    reduced to the interleaving of read and write phases, which is what
    READ COMMITTED leaves observable for these statements. *)

From Stdlib Require Export ZArith String Ascii.
From stdpp Require Export base list strings sorting gmap options numbers.

(** ** Errors

    The exceptions the modelled code can raise, as one inductive type: the
    database errors PostgreSQL reports for the constraints of the schema,
    the [TypeError] of JavaScript, the errors of zod's [parse] and of
    [JSON.parse], and the failures of the LLM provider. *)

Inductive DbErrorCode :=
  | ForeignKeyViolation
  | UniqueViolation
  | IntegerOutOfRange
  | StringTooLong.

Inductive Error :=
  | DbError (code : DbErrorCode) (constraint : string)
  | TypeError (msg : string)
  | ZodError (path : string)
  | SyntaxError (msg : string)
  | ProviderError (msg : string).

(** A computation either returns a value or throws. *)
Inductive res (A : Type) :=
  | Ok (a : A)
  | Err (e : Error).
Arguments Ok {A} a.
Arguments Err {A} e.

(** ** A state-and-error monad

    An [async] function of the program that reads and writes the database
    is a function from the state before the call to its outcome and the
    state after it.  When it throws, the state it leaves is the state at the
    throw: effects already committed stay, which is what the loops of the
    route handlers rely on.  [atomically] gives the rollback of a database
    transaction. *)

Definition st (S A : Type) : Type := S -> res A * S.

Definition st_ret {S A} (a : A) : st S A := fun s => (Ok a, s).

Definition st_bind {S A B} (m : st S A) (k : A -> st S B) : st S B :=
  fun s => match m s with
           | (Ok a, s') => k a s'
           | (Err e, s') => (Err e, s')
           end.

Definition st_throw {S A} (e : Error) : st S A := fun s => (Err e, s).

Definition st_gets {S A} (f : S -> A) : st S A := fun s => (Ok (f s), s).

Definition st_modify {S} (f : S -> S) : st S unit := fun s => (Ok tt, f s).

(** A value of the error-only world lifted into the monad. *)
Definition st_lift {S A} (r : res A) : st S A := fun s => (r, s).

(** All or nothing: on a throw, the state is put back as it was. *)
Definition atomically {S A} (m : st S A) : st S A :=
  fun s => match m s with
           | (Ok a, s') => (Ok a, s')
           | (Err e, _) => (Err e, s)
           end.

(** [try { m } catch (e) { h(e) }]. *)
Definition st_catch {S A} (m : st S A) (h : Error -> st S A) : st S A :=
  fun s => match m s with
           | (Ok a, s') => (Ok a, s')
           | (Err e, s') => h e s'
           end.

(** Sequencing in the error-only world (synchronous code that may throw). *)
Definition res_bind {A B} (r : res A) (k : A -> res B) : res B :=
  match r with Ok a => k a | Err e => Err e end.

Declare Scope js_scope.
Delimit Scope js_scope with js.

Notation "x <- m ;; k" := (st_bind m (fun x => k))
  (at level 100, m at next level, right associativity) : js_scope.
Notation "m ;; k" := (st_bind m (fun _ => k))
  (at level 100, right associativity) : js_scope.

Notation "x <-? r ;; k" := (res_bind r (fun x => k))
  (at level 100, r at next level, right associativity) : js_scope.

Open Scope js_scope.

(** [for (const x of xs) { r = await f(x); results.push(r) }]: the
    iterations run in order and the first throw stops the loop. *)
Fixpoint st_for {S A B} (f : A -> st S B) (xs : list A) : st S (list B) :=
  match xs with
  | [] => st_ret []
  | x :: xs' => b <- f x ;; bs <- st_for f xs' ;; st_ret (b :: bs)
  end.

(** ** JavaScript values and operators on them *)

(** The line feed, ["\n"] of the sources. *)
Definition nl : string := String "010" EmptyString.

(** Truthiness of a string: only [""] is falsy. *)
Definition js_truthy (s : string) : bool := negb (String.eqb s "").

(** [a || b] on strings. *)
Definition js_or (a b : string) : string := if js_truthy a then a else b.

(** [o || d] where [o : string | null | undefined]. *)
Definition opt_or (o : option string) (d : string) : string :=
  match o with Some s => js_or s d | None => d end.

(** [o || undefined]: the empty string becomes [undefined]. *)
Definition or_undefined (o : option string) : option string :=
  match o with Some s => if js_truthy s then Some s else None | None => None end.

(** [a ?? b] where both sides may be [null] or [undefined] ([None]). *)
Definition nullish {A} (a b : option A) : option A :=
  match a with Some _ => a | None => b end.
Notation "a ?? b" := (nullish a b) (at level 50, left associativity) : js_scope.

(** The white space and line terminators [String.prototype.trim] removes
    (ECMAScript's WhiteSpace and LineTerminator), as the UTF-8 bytes of the
    strings: tab, line feed, vertical tab, form feed, carriage return,
    space, U+00A0, U+1680, U+2000 to U+200A, U+2028, U+2029, U+202F,
    U+205F, U+3000 and U+FEFF. *)
Definition js_spaces : list (list ascii) :=
  ([["009"]; ["010"]; ["011"]; ["012"]; ["013"]; [" "];
    ["194"; "160"];
    ["225"; "154"; "128"];
    ["226"; "128"; "128"]; ["226"; "128"; "129"]; ["226"; "128"; "130"];
    ["226"; "128"; "131"]; ["226"; "128"; "132"]; ["226"; "128"; "133"];
    ["226"; "128"; "134"]; ["226"; "128"; "135"]; ["226"; "128"; "136"];
    ["226"; "128"; "137"]; ["226"; "128"; "138"];
    ["226"; "128"; "168"]; ["226"; "128"; "169"]; ["226"; "128"; "175"];
    ["226"; "129"; "159"];
    ["227"; "128"; "128"];
    ["239"; "187"; "191"]])%char.

(** The one of [ps] that [l] starts with, if any. *)
Definition space_at (ps : list (list ascii)) (l : list ascii) : option (list ascii) :=
  List.find (fun p => bool_decide (p `prefix_of` l)) ps.

(** Drop the sequences of [ps] at the start of [l], at most [n] of them. *)
Fixpoint drop_prefixes (ps : list (list ascii)) (n : nat) (l : list ascii) : list ascii :=
  match n with
  | 0 => l
  | S n' =>
      match space_at ps l with
      | Some p => drop_prefixes ps n' (drop (length p) l)
      | None => l
      end
  end.

Definition trim_start (ps : list (list ascii)) (l : list ascii) : list ascii :=
  drop_prefixes ps (length l) l.

Definition trim_end (ps : list (list ascii)) (l : list ascii) : list ascii :=
  rev (trim_start (List.map (@rev ascii) ps) (rev l)).

(** [s.trim()]. *)
Definition js_trim (s : string) : string :=
  string_of_list_ascii (trim_end js_spaces (trim_start js_spaces (list_ascii_of_string s))).

(** A byte that starts one of the sequences [trim()] removes. *)
Definition space_lead (c : ascii) : bool :=
  existsb (fun p => bool_decide (head p = Some c)) js_spaces.

(** [s.length]: the UTF-16 code units of the UTF-8 bytes (a continuation
    byte adds none, the lead byte of a four-byte sequence two). *)
Definition utf16_units (c : ascii) : nat :=
  let n := N_of_ascii c in
  if (n <? 128)%N then 1 else if (n <? 192)%N then 0 else if (n <? 240)%N then 1 else 2.

Definition js_length (s : string) : nat := list_sum (map utf16_units (list_ascii_of_string s)).

(** [xs.join(sep)]. *)
Fixpoint js_join (sep : string) (xs : list string) : string :=
  match xs with
  | [] => ""
  | [x] => x
  | x :: xs' => x ++ sep ++ js_join sep xs'
  end.

(** [s.includes(sub)], which vitest's [toContain] uses on strings. *)
Fixpoint js_includes (s sub : string) : bool :=
  String.prefix sub s
  || match s with EmptyString => false | String _ s' => js_includes s' sub end.

(** [Array.from(new Set(xs))]: the first occurrence of each element, in
    order. *)
Fixpoint set_from_aux {A} `{EqDecision A} (seen : list A) (xs : list A) : list A :=
  match xs with
  | [] => []
  | x :: xs' =>
      if decide (x ∈ seen) then set_from_aux seen xs'
      else x :: set_from_aux (x :: seen) xs'
  end.
Definition set_from {A} `{EqDecision A} (xs : list A) : list A := set_from_aux [] xs.

(** The reference order of [new Set(xs)] (ECMAScript keeps insertion
    order): the element at index [i] is kept exactly when it does not occur
    among the first [i] elements. *)
Definition first_occurrences {A} `{EqDecision A} (xs : list A) : list A :=
  omap id (imap (fun i x => if bool_decide (x ∈ take i xs) then None else Some x) xs).

(** [o] is truthy where [o : string | null | undefined]. *)
Definition opt_truthy (o : option string) : bool :=
  match o with Some s => js_truthy s | None => false end.

(** [xs && xs.length > 0] where [xs : T[] | null | undefined]. *)
Definition opt_nonempty {A} (o : option (list A)) : bool :=
  match o with Some (_ :: _) => true | _ => false end.

(** ** Automation *)

Create HintDb story.
Create Rewrite HintDb story_rw.

Ltac invc H := inversion H; subst; clear H.

(** Unfold the monad's combinators and reduce. *)
Ltac st_unfold :=
  unfold st_bind, st_ret, st_throw, st_gets, st_modify, st_lift, atomically,
    st_catch in *; simpl in *.

(** ** Generic lemmas *)

Lemma st_bind_ok {S A B} (m : st S A) (k : A -> st S B) s a s' :
  m s = (Ok a, s') -> st_bind m k s = k a s'.
Proof. unfold st_bind. by intros ->. Qed.

Lemma st_bind_err {S A B} (m : st S A) (k : A -> st S B) s e s' :
  m s = (Err e, s') -> st_bind m k s = (Err e, s').
Proof. unfold st_bind. by intros ->. Qed.

Lemma atomically_err {S A} (m : st S A) s e s' :
  m s = (Err e, s') -> atomically m s = (Err e, s).
Proof. unfold atomically. by intros ->. Qed.

Lemma atomically_ok {S A} (m : st S A) s a s' :
  m s = (Ok a, s') -> atomically m s = (Ok a, s').
Proof. unfold atomically. by intros ->. Qed.

#[export] Hint Resolve st_bind_ok st_bind_err atomically_err atomically_ok : story.

Lemma js_or_truthy a b : js_truthy a = true -> js_or a b = a.
Proof. unfold js_or. by intros ->. Qed.

Lemma js_or_falsy a b : js_truthy a = false -> js_or a b = b.
Proof. unfold js_or. by intros ->. Qed.

Lemma js_truthy_false s : js_truthy s = false <-> s = "".
Proof.
  unfold js_truthy. destruct (String.eqb_spec s ""); simpl; split; congruence.
Qed.

#[export] Hint Rewrite js_or_truthy js_or_falsy using assumption : story_rw.


(** *** [trim()]: for any list [ps] of non-empty sequences *)

Lemma space_at_some ps l p : space_at ps l = Some p -> p ∈ ps /\ p `prefix_of` l.
Proof.
  unfold space_at. intros H. apply find_some in H as [Hin Hp].
  apply bool_decide_eq_true in Hp. split; [by apply list_elem_of_In|done].
Qed.

Lemma space_at_none ps l : space_at ps l = None <-> Forall (fun p => ~ p `prefix_of` l) ps.
Proof.
  unfold space_at. induction ps as [|p ps IH]; simpl; [split; [constructor|done]|].
  rewrite Forall_cons_iff, <- IH.
  destruct (bool_decide (p `prefix_of` l)) eqn:E;
    [apply bool_decide_eq_true in E|apply bool_decide_eq_false in E]; split.
  - discriminate.
  - by intros [? _].
  - by intros H.
  - by intros [_ H].
Qed.

(** A prefix of a text that starts with none of [ps] starts with none. *)
Lemma space_at_prefix ps l t : space_at ps l = None -> t `prefix_of` l -> space_at ps t = None.
Proof.
  rewrite !space_at_none. intros H Ht. revert H. apply Forall_impl. intros p Hp Hpt.
  apply Hp. by etrans.
Qed.

Lemma drop_prefixes_id ps n l : space_at ps l = None -> drop_prefixes ps n l = l.
Proof. destruct n; simpl; [done|]. by intros ->. Qed.

Lemma drop_prefixes_suffix ps n l : drop_prefixes ps n l `suffix_of` l.
Proof.
  revert l. induction n as [|n IH]; intros l; simpl; [done|].
  destruct (space_at ps l) as [p|]; [|done]. etrans; [apply IH|apply suffix_drop].
Qed.

(** With one step per character, nothing of [ps] is left at the start. *)
Lemma drop_prefixes_clean ps n l :
  Forall (fun p => p <> []) ps -> (length l <= n)%nat -> space_at ps (drop_prefixes ps n l) = None.
Proof.
  intros Hps. revert l. induction n as [|n IH]; intros l Hl; simpl.
  - destruct l; [|simpl in Hl; lia]. apply space_at_none. revert Hps. apply Forall_impl.
    intros p Hp Hpre. by apply Hp, prefix_nil_inv.
  - destruct (space_at ps l) as [p|] eqn:E; [|done]. apply IH.
    destruct (space_at_some _ _ _ E) as [Hin _].
    pose proof (proj1 (Forall_forall _ _) Hps p (proj1 (list_elem_of_In _ _) Hin)) as Hp.
    rewrite length_drop. destruct p; [done|]. simpl. lia.
Qed.

Lemma drop_prefixes_nil ps n l :
  drop_prefixes ps n l = [] -> exists qs, Forall (fun q => q ∈ ps) qs /\ l = concat qs.
Proof.
  revert l. induction n as [|n IH]; intros l H; simpl in H; [subst; by exists []|].
  destruct (space_at ps l) as [p|] eqn:E; [|subst; by exists []].
  destruct (IH _ H) as (qs & Hqs & Hc). destruct (space_at_some _ _ _ E) as [Hin [k ->]].
  exists (p :: qs). split; [by constructor|]. simpl. rewrite <- Hc. by rewrite drop_app_length.
Qed.

Lemma rev_nil_inv_eq {A} (p : list A) : rev p = [] -> p = [].
Proof. intros H. apply (f_equal (@rev A)) in H. by rewrite rev_involutive in H. Qed.

Lemma nonempty_rev ps : Forall (fun p => p <> []) ps -> Forall (fun p => p <> []) (List.map (@rev ascii) ps).
Proof.
  intros H. apply Forall_map. revert H. apply Forall_impl. intros p Hp Hr.
  apply Hp. by apply rev_nil_inv_eq.
Qed.

Lemma trim_end_prefix ps l : trim_end ps l `prefix_of` l.
Proof.
  unfold trim_end, trim_start. destruct (drop_prefixes_suffix (List.map (@rev ascii) ps) (length (rev l)) (rev l)) as [k Hk].
  apply (f_equal (@rev ascii)) in Hk. rewrite rev_involutive, rev_app_distr in Hk. by exists (rev k).
Qed.

Lemma trim_end_id ps l : space_at (List.map (@rev ascii) ps) (rev l) = None -> trim_end ps l = l.
Proof. intros H. unfold trim_end, trim_start. rewrite drop_prefixes_id by done. apply rev_involutive. Qed.

(** Trimming both ends twice is trimming them once. *)
Lemma trim_idem ps l :
  Forall (fun p => p <> []) ps ->
  trim_end ps (trim_start ps (trim_end ps (trim_start ps l))) = trim_end ps (trim_start ps l).
Proof.
  intros Hps. set (m := trim_start ps l).
  assert (Hm : space_at ps m = None) by (apply drop_prefixes_clean; [done|lia]).
  assert (Hb : space_at ps (trim_end ps m) = None)
    by (eapply space_at_prefix; [exact Hm|apply trim_end_prefix]).
  unfold trim_start at 1. rewrite drop_prefixes_id by done. apply trim_end_id.
  unfold trim_end. rewrite rev_involutive.
  apply drop_prefixes_clean; [by apply nonempty_rev|lia].
Qed.

Lemma concat_last (qs : list (list ascii)) x c :
  Forall (fun q => q <> []) qs -> x ++ [c] = concat qs -> exists q, q ∈ qs /\ stdpp.list_basics.list.last q = Some c.
Proof.
  induction qs as [|q qs IH] using rev_ind; intros Hne Hc; simpl in Hc.
  - by destruct x.
  - rewrite Forall_app, Forall_singleton in Hne. destruct Hne as [_ Hq].
    rewrite concat_app in Hc. simpl in Hc. rewrite app_nil_r in Hc.
    destruct q as [|d q'] using rev_ind; [done|]. clear IHq' Hq.
    rewrite app_assoc in Hc. apply app_inj_tail in Hc as [_ <-].
    exists (q' ++ [c]). split; [apply elem_of_app; right; by left|apply last_snoc].
Qed.

Lemma js_spaces_nonempty : Forall (fun p => p <> []) js_spaces.
Proof. repeat constructor; discriminate. Qed.

(** Trimming is idempotent. *)
Lemma js_trim_idem s : js_trim (js_trim s) = js_trim s.
Proof.
  unfold js_trim. rewrite list_ascii_of_string_of_list_ascii. f_equal.
  apply trim_idem, js_spaces_nonempty.
Qed.

(** A string that starts with a byte no white space starts with is not
    trimmed to the empty string. *)
Lemma js_trim_cons_nonempty c s : space_lead c = false -> js_trim (String c s) <> "".
Proof.
  intros Hc. unfold js_trim. cbn [list_ascii_of_string].
  set (l := list_ascii_of_string s).
  assert (Hlead : forall p, p ∈ js_spaces -> head p <> Some c).
  { intros p Hp Hh. apply not_true_iff_false in Hc. apply Hc, existsb_exists.
    exists p. split; [by apply list_elem_of_In|by apply bool_decide_eq_true]. }
  assert (Hnone : space_at js_spaces (c :: l) = None).
  { apply space_at_none, Forall_forall. intros p Hp [k Hk].
    apply (Hlead p); [by apply list_elem_of_In|]. destruct p as [|a p]; [|by injection Hk as ->].
    exfalso. exact (proj1 (Forall_forall _ _) js_spaces_nonempty [] Hp eq_refl). }
  unfold trim_start at 1. rewrite drop_prefixes_id by done.
  destruct (trim_end js_spaces (c :: l)) as [|x t] eqn:E; [|discriminate]. intros _.
  unfold trim_end, trim_start in E. apply (f_equal (@rev ascii)) in E. rewrite rev_involutive in E. cbn [rev app] in E.
  destruct (drop_prefixes_nil _ _ _ E) as (qs & Hqs & Hcat).
  destruct (concat_last qs (rev l) c) as (q & Hq & Hlast); [|exact Hcat|].
  - revert Hqs. apply Forall_impl. intros q Hq%list_elem_of_In. apply in_map_iff in Hq as (p & <- & Hp).
    intros Hr. apply rev_nil_inv_eq in Hr as ->.
    by pose proof (proj1 (Forall_forall _ _) js_spaces_nonempty [] Hp).
  - pose proof (proj1 (Forall_forall _ _) Hqs q (proj1 (list_elem_of_In _ _) Hq)) as Hq'.
    apply list_elem_of_In, in_map_iff in Hq' as (p & <- & Hp).
    apply (Hlead p); [by apply list_elem_of_In|]. destruct p as [|a p]; [done|].
    simpl in Hlast. by rewrite last_snoc in Hlast.
Qed.

Lemma js_join_nonempty sep l :
  l <> [] -> Forall (fun x => x <> "") l -> js_join sep l <> "".
Proof.
  intros Hl Hall. destruct l as [|x l]; [done|]. apply Forall_inv in Hall as Hx.
  destruct l as [|y l]; simpl; [done|]. destruct x; [done|]. simpl. discriminate.
Qed.

Lemma js_truthy_true s : js_truthy s = true <-> s <> "".
Proof. rewrite <- not_false_iff_true, js_truthy_false. done. Qed.

(** [xs.filter(Boolean).join(sep)] is empty exactly when no element is
    truthy. *)
Lemma js_join_filter_empty sep l :
  js_join sep (List.filter js_truthy l) = "" <-> List.filter js_truthy l = [].
Proof.
  split; [|by intros ->]. intros H.
  destruct (List.filter js_truthy l) as [|x l'] eqn:E; [done|]. exfalso.
  apply (js_join_nonempty sep (x :: l')); [done| |done].
  rewrite <- E. apply Forall_forall. intros y Hy. apply filter_In in Hy as [_ Hy].
  by apply js_truthy_true.
Qed.

Lemma filter_truthy_nil l : List.filter js_truthy l = [] <-> Forall (fun x => x = "") l.
Proof.
  induction l as [|x l IH]; simpl; [split; by constructor|].
  rewrite Forall_cons_iff, <- IH, <- js_truthy_false.
  destruct (js_truthy x); split; try done; by intros [? ?].
Qed.

Lemma prefix_app_l sub s t : String.prefix sub s = true -> String.prefix sub (s ++ t) = true.
Proof.
  revert s. induction sub as [|a sub IH]; intros [|b s] H; simpl in *; try done;
    [by destruct t|].
  destruct (ascii_dec a b); [by apply IH|done].
Qed.

Lemma prefix_refl_app sub t : String.prefix sub (sub ++ t) = true.
Proof. induction sub as [|a sub IH]; simpl; [by destruct t|]. by destruct (ascii_dec a a). Qed.

Lemma js_includes_cons c s sub :
  js_includes (String c s) sub = String.prefix sub (String c s) || js_includes s sub.
Proof. reflexivity. Qed.

Lemma js_includes_app_l s t sub : js_includes s sub = true -> js_includes (s ++ t) sub = true.
Proof.
  induction s as [|c s IH]; intros H.
  - destruct sub; [by destruct t|discriminate].
  - change (js_includes (String c (s +:+ t)) sub = true).
    rewrite js_includes_cons in *. apply orb_true_iff in H as [H|H].
    + apply orb_true_iff. left. exact (prefix_app_l sub (String c s) t H).
    + by rewrite IH, orb_true_r.
Qed.

Lemma js_includes_app_r s t sub : js_includes t sub = true -> js_includes (s ++ t) sub = true.
Proof.
  induction s as [|c s IH]; intros H; [done|].
  change (js_includes (String c (s +:+ t)) sub = true). by rewrite js_includes_cons, IH, orb_true_r.
Qed.

Lemma js_includes_prefix sub t : js_includes (sub ++ t) sub = true.
Proof.
  destruct sub as [|a sub]; [by destruct t|].
  change (js_includes (String a (sub +:+ t)) (String a sub) = true).
  rewrite js_includes_cons. apply orb_true_iff. left. exact (prefix_refl_app (String a sub) t).
Qed.

Lemma js_includes_refl s : js_includes s s = true.
Proof.
  destruct s as [|a s]; [done|]. rewrite js_includes_cons. apply orb_true_iff. left.
  generalize (String a s). clear. intros s'.
  induction s' as [|b s IH]; simpl; [done|]. by destruct (ascii_dec b b).
Qed.

(** An element of the array is found in the joined string. *)
Lemma js_join_includes sep xs x sub :
  In x xs -> js_includes x sub = true -> js_includes (js_join sep xs) sub = true.
Proof.
  intros Hin Hx. induction xs as [|y [|z xs] IH]; simpl in *; [done|by destruct Hin as [<-|[]]|].
  destruct Hin as [<-|Hin]; [by apply js_includes_app_l|].
  apply js_includes_app_r, js_includes_app_r, IH, Hin.
Qed.

(** [s || undefined] is [undefined] exactly for the empty string. *)
Lemma or_undefined_none s : or_undefined (Some s) = None <-> s = "".
Proof.
  unfold or_undefined. rewrite <- js_truthy_false.
  destruct (js_truthy s); done.
Qed.

Lemma or_undefined_idem o : or_undefined (or_undefined o) = or_undefined o.
Proof. destruct o as [s|]; simpl; [|done]. by destruct (js_truthy s) eqn:E; simpl; rewrite ?E. Qed.

(** [Array.from(new Set(xs))] keeps one copy of each element of [xs] and
    nothing else ([seen] is the set built so far). *)
Lemma set_from_aux_spec {A} `{EqDecision A} (seen xs : list A) :
  List.NoDup (set_from_aux seen xs) /\
  (forall x, In x (set_from_aux seen xs) <-> In x xs /\ ~ In x seen).
Proof.
  revert seen. induction xs as [|y xs IH]; intros seen; simpl.
  - split; [constructor|]. intros x. tauto.
  - destruct (decide (y ∈ seen)) as [Hy|Hy]; rewrite list_elem_of_In in Hy.
    + destruct (IH seen) as [Hn Hi]. split; [done|]. intros x. rewrite Hi.
      split; [tauto|]. intros [[<-|H] Hs]; tauto.
    + destruct (IH (y :: seen)) as [Hn Hi]. split.
      * constructor; [|done]. rewrite Hi. intros [_ H]. apply H. by left.
      * intros x. simpl. rewrite Hi. simpl. split; [intros [<-|[H1 H2]]; tauto|].
        intros [[<-|H1] H2]; [by left|].
        destruct (decide (y = x)) as [->|Hne]; [by left|]. right. tauto.
Qed.

Lemma set_from_spec {A} `{EqDecision A} (xs : list A) :
  List.NoDup (set_from xs) /\ (forall x, In x (set_from xs) <-> In x xs).
Proof.
  destruct (set_from_aux_spec [] xs) as [Hn Hi]. split; [done|].
  intros x. unfold set_from. rewrite Hi. simpl. tauto.
Qed.

Lemma st_for_cons_ok {S A B} (f : A -> st S B) x xs s b s1 bs s2 :
  f x s = (Ok b, s1) -> st_for f xs s1 = (Ok bs, s2) -> st_for f (x :: xs) s = (Ok (b :: bs), s2).
Proof. intros H1 H2. cbn [st_for]. unfold st_bind at 1. rewrite H1. unfold st_bind. by rewrite H2. Qed.

Lemma set_from_aux_sublist {A} `{EqDecision A} (seen xs : list A) : set_from_aux seen xs `sublist_of` xs.
Proof.
  revert seen. induction xs as [|x xs IH]; intros seen; simpl; [done|].
  case_decide; [by apply sublist_cons|by apply sublist_skip].
Qed.

Lemma filter_sublist {A} (f : A -> bool) l : List.filter f l `sublist_of` l.
Proof.
  induction l as [|x l IH]; simpl; [done|].
  destruct (f x); [by apply sublist_skip|by apply sublist_cons].
Qed.

Lemma set_from_aux_first {A} `{EqDecision A} (seen xs : list A) :
  set_from_aux seen xs =
  omap id (imap (fun i x => if bool_decide (x ∈ seen ++ take i xs) then None else Some x) xs).
Proof.
  revert seen. induction xs as [|x xs IH]; intros seen; [done|].
  rewrite imap_cons. cbn [set_from_aux take]. rewrite app_nil_r.
  case_decide as Hx; [rewrite bool_decide_true by exact Hx|rewrite bool_decide_false by exact Hx];
    cbn [omap list_omap id]; rewrite IH; [|f_equal]; f_equal; apply imap_ext; intros i y _;
    cbn [compose take]; by rewrite (bool_decide_ext _ (y ∈ seen ++ x :: take i xs))
      by (rewrite !elem_of_app, !elem_of_cons; intuition (subst; auto)).
Qed.

(** [Array.from(new Set(xs))] is the reference order of first occurrences. *)
Lemma set_from_first_occurrences {A} `{EqDecision A} (xs : list A) :
  set_from xs = first_occurrences xs.
Proof. unfold set_from, first_occurrences. by rewrite set_from_aux_first. Qed.

(** The first [n] elements of a list sorted by a total preorder, as
    [orderBy(...).limit(n)] reads them: as many as there are up to [n],
    taken from the list, sorted, and no element left out comes before an
    element kept. *)
Lemma take_merge_sort_spec {A} (R : relation A) `{!RelDecision R, !Total R, !Transitive R} n l :
  length (take n (merge_sort R l)) = Nat.min n (length l) /\
  (forall x, x ∈ take n (merge_sort R l) -> x ∈ l) /\
  Sorted R (take n (merge_sort R l)) /\
  (forall x y, x ∈ take n (merge_sort R l) -> y ∈ l -> y ∉ take n (merge_sort R l) -> R x y).
Proof.
  assert (Hp : take n (merge_sort R l) ++ drop n (merge_sort R l) ≡ₚ l)
    by (rewrite take_drop; apply merge_sort_Permutation).
  assert (Hs : StronglySorted R (take n (merge_sort R l) ++ drop n (merge_sort R l)))
    by (rewrite take_drop; by apply StronglySorted_merge_sort).
  split; [|split; [|split]].
  - by rewrite length_take, merge_sort_Permutation.
  - intros x Hx. rewrite <- Hp. apply elem_of_app. by left.
  - apply StronglySorted_Sorted. by apply StronglySorted_app_1_l in Hs.
  - intros x y Hx Hy Hn. apply (StronglySorted_app_1_elem_of _ _ _ _ _ Hs Hx).
    rewrite <- Hp, elem_of_app in Hy. by destruct Hy.
Qed.

(** An element the filter drops changes nothing when appended. *)
Lemma filter_set_from_aux_snoc {A} `{EqDecision A} (f : A -> bool) (seen xs : list A) u :
  f u = false -> List.filter f (set_from_aux seen (xs ++ [u])) = List.filter f (set_from_aux seen xs).
Proof.
  intros Hu. revert seen. induction xs as [|x xs IH]; intros seen; simpl.
  - case_decide; simpl; [done|]. by rewrite Hu.
  - case_decide; simpl; [apply IH|]. by rewrite IH.
Qed.
