(* ===== verification/Json.v ===== *)
(** * JSON values and the zod validators the program's schemas are built from

    [json] is the value a [jsonb] column holds, the argument object of an
    LLM tool call and the body of an HTTP request.  Numbers are kept as
    integers: no modelled code looks at a number's value.  The validators
    follow zod's semantics for the combinators the sources use
    ([z.object], [z.string], [z.array], [.optional()]): a missing key is
    [undefined], which [.optional()] accepts, while [null] is a value of its
    own that only [.nullable()] would accept; unknown keys are stripped. *)

From S2P Require Import Prelude.

#[local] Set Warnings "-register-all".
Inductive json :=
  | JNull
  | JBool (b : bool)
  | JNumber (n : Z)
  | JString (s : string)
  | JArray (xs : list json)
  | JObject (fields : list (string * json)).

(** Property lookup on an object built by [JSON.parse]: of duplicate keys
    the last one wins. *)
Fixpoint json_get (k : string) (fields : list (string * json)) : option json :=
  match fields with
  | [] => None
  | (k', v) :: fields' =>
      match json_get k fields' with
      | Some w => Some w
      | None => if String.eqb k k' then Some v else None
      end
  end.

(** JavaScript truthiness of a value. *)
Definition json_truthy (v : json) : bool :=
  match v with
  | JNull => false
  | JBool b => b
  | JNumber n => negb (Z.eqb n 0)
  | JString s => js_truthy s
  | JArray _ | JObject _ => true
  end.

(** [z.object({...})]: only a plain object passes; arrays and [null] fail. *)
Definition zod_object (path : string) (v : json) : res (list (string * json)) :=
  match v with
  | JObject fs => Ok fs
  | _ => Err (ZodError path)
  end.

(** [z.string()] on a required key. *)
Definition zod_string (path : string) (v : option json) : res string :=
  match v with
  | Some (JString s) => Ok s
  | _ => Err (ZodError path)
  end.

(** [z.string().optional()]. *)
Definition zod_opt_string (path : string) (v : option json) : res (option string) :=
  match v with
  | None => Ok None
  | Some (JString s) => Ok (Some s)
  | Some _ => Err (ZodError path)
  end.

Fixpoint zod_strings (path : string) (xs : list json) : res (list string) :=
  match xs with
  | [] => Ok []
  | JString s :: xs' =>
      match zod_strings path xs' with
      | Ok ss => Ok (s :: ss)
      | Err e => Err e
      end
  | _ :: _ => Err (ZodError path)
  end.

(** [z.array(z.string()).optional()]. *)
Definition zod_opt_string_array (path : string) (v : option json)
  : res (option (list string)) :=
  match v with
  | None => Ok None
  | Some (JArray xs) =>
      match zod_strings path xs with
      | Ok ss => Ok (Some ss)
      | Err e => Err e
      end
  | Some _ => Err (ZodError path)
  end.

Lemma zod_strings_map path ss : zod_strings path (map JString ss) = Ok ss.
Proof. induction ss as [|s ss IH]; simpl; [done|]. by rewrite IH. Qed.

Lemma zod_strings_ok path xs ss :
  zod_strings path xs = Ok ss -> xs = map JString ss.
Proof.
  revert ss. induction xs as [|x xs IH]; intros ss H; simpl in H.
  - by invc H.
  - destruct x; try discriminate.
    destruct (zod_strings path xs) eqn:E; invc H. by rewrite (IH _ eq_refl).
Qed.

#[export] Hint Rewrite zod_strings_map : story_rw.
