(* ===== verification/JsonText.v ===== *)
(** * [JSON.stringify] and [JSON.parse]

    The text form of [json], as the JavaScript built-ins write and read it:
    the model runtime hands tool-call arguments to [toolCall] as the text
    [JSON.stringify] produced, which [toolCall] reads back with
    [JSON.parse], and the routes read request bodies with it.
    - [json_stringify]: no white space, keys in their order, the escapes
      of the ECMAScript [QuoteJSONString] (a backslash before a quote or a
      backslash, [\b], [\f], [\n], [\r], [\t], [\u00XX] for the other
      control characters); other bytes, those of UTF-8 sequences included,
      are written as they are;
    - [json_parse]: the JSON grammar with white space, the escapes above
      and [\/] and [\uXXXX] (written back as UTF-8), numbers without
      leading zeros; it fails with a [SyntaxError] otherwise.
    Numbers are integers ([json] has no others): a fraction or an exponent
    is refused here, where JavaScript would read a float.  The parser
    takes fuel, the length of the text, which is enough: every call reads
    at least one character or one level of nesting ([json_parse_print]). *)

From Stdlib Require Import DecimalN.
From S2P Require Import Prelude Json.

Local Open Scope char_scope.

(** ** Printing *)

Fixpoint uint_chars (u : Decimal.uint) : list ascii :=
  match u with
  | Decimal.Nil => []
  | Decimal.D0 u => "0" :: uint_chars u
  | Decimal.D1 u => "1" :: uint_chars u
  | Decimal.D2 u => "2" :: uint_chars u
  | Decimal.D3 u => "3" :: uint_chars u
  | Decimal.D4 u => "4" :: uint_chars u
  | Decimal.D5 u => "5" :: uint_chars u
  | Decimal.D6 u => "6" :: uint_chars u
  | Decimal.D7 u => "7" :: uint_chars u
  | Decimal.D8 u => "8" :: uint_chars u
  | Decimal.D9 u => "9" :: uint_chars u
  end.

(** [Number.prototype.toString] of an integer. *)
Definition print_Z (z : Z) : list ascii :=
  (if (z <? 0)%Z then ["-"] else []) ++ uint_chars (N.to_uint (Z.abs_N z)).

Definition hex_digit (n : N) : ascii :=
  match n with
  | 0%N => "0" | 1%N => "1" | 2%N => "2" | 3%N => "3" | 4%N => "4" | 5%N => "5"
  | 6%N => "6" | 7%N => "7" | 8%N => "8" | 9%N => "9" | 10%N => "a" | 11%N => "b"
  | 12%N => "c" | 13%N => "d" | 14%N => "e" | _ => "f"
  end.

(** One character of a string literal, as [QuoteJSONString] writes it. *)
Definition escape_char (c : ascii) : list ascii :=
  match c with
  | "034" => ["\"; "034"]
  | "\" => ["\"; "\"]
  | "008" => ["\"; "b"]
  | "012" => ["\"; "f"]
  | "010" => ["\"; "n"]
  | "013" => ["\"; "r"]
  | "009" => ["\"; "t"]
  | _ => if (N_of_ascii c <? 32)%N
         then ["\"; "u"; "0"; "0"; hex_digit (N_of_ascii c / 16); hex_digit (N_of_ascii c mod 16)]
         else [c]
  end.

Definition print_string (cs : list ascii) : list ascii :=
  "034" :: flat_map escape_char cs ++ ["034"].

(** The elements of an array or the members of an object, separated by
    commas. *)
Definition print_seq {A} (p : A -> list ascii) (xs : list A) : list ascii :=
  match xs with
  | [] => []
  | x :: xs' => p x ++ flat_map (fun y => "," :: p y) xs'
  end.

Fixpoint print_json (j : json) : list ascii :=
  match j with
  | JNull => ["n"; "u"; "l"; "l"]
  | JBool true => ["t"; "r"; "u"; "e"]
  | JBool false => ["f"; "a"; "l"; "s"; "e"]
  | JNumber n => print_Z n
  | JString s => print_string (list_ascii_of_string s)
  | JArray xs => "[" :: print_seq print_json xs ++ ["]"]
  | JObject fs =>
      "{" :: print_seq (fun '(k, v) => print_string (list_ascii_of_string k) ++ ":" :: print_json v) fs
          ++ ["}"]
  end.

(** [JSON.stringify(v)]. *)
Definition json_stringify (j : json) : string := string_of_list_ascii (print_json j).

(** ** Parsing *)

Definition is_ws (c : ascii) : bool :=
  match c with " " | "009" | "010" | "013" => true | _ => false end.

Fixpoint skip_ws (s : list ascii) : list ascii :=
  match s with
  | c :: s' => if is_ws c then skip_ws s' else s
  | [] => []
  end.

Definition is_digit (c : ascii) : bool :=
  match c with
  | "0" | "1" | "2" | "3" | "4" | "5" | "6" | "7" | "8" | "9" => true
  | _ => false
  end.

Fixpoint span_digits (s : list ascii) : list ascii * list ascii :=
  match s with
  | c :: s' => if is_digit c then let '(ds, r) := span_digits s' in (c :: ds, r) else ([], s)
  | [] => ([], [])
  end.

Fixpoint chars_uint (cs : list ascii) : Decimal.uint :=
  match cs with
  | [] => Decimal.Nil
  | c :: cs' =>
      let u := chars_uint cs' in
      match c with
      | "1" => Decimal.D1 u | "2" => Decimal.D2 u | "3" => Decimal.D3 u
      | "4" => Decimal.D4 u | "5" => Decimal.D5 u | "6" => Decimal.D6 u
      | "7" => Decimal.D7 u | "8" => Decimal.D8 u | "9" => Decimal.D9 u
      | _ => Decimal.D0 u
      end
  end.

(** A number: an optional minus, digits with no leading zero (the digits
    are the canonical decimal of their value). *)
Definition parse_number (s : list ascii) : option (json * list ascii) :=
  let '(neg, s1) := match s with "-" :: s' => (true, s') | _ => (false, s) end in
  let '(ds, rest) := span_digits s1 in
  match ds with
  | [] => None
  | _ =>
      let n := N.of_uint (chars_uint ds) in
      if bool_decide (uint_chars (N.to_uint n) = ds)
      then match rest with
           | "." :: _ | "e" :: _ | "E" :: _ => None
           | _ => Some (JNumber (if neg then (- Z.of_N n)%Z else Z.of_N n), rest)
           end
      else None
  end.

Definition hex_value (c : ascii) : option N :=
  match c with
  | "0" => Some 0%N | "1" => Some 1%N | "2" => Some 2%N | "3" => Some 3%N
  | "4" => Some 4%N | "5" => Some 5%N | "6" => Some 6%N | "7" => Some 7%N
  | "8" => Some 8%N | "9" => Some 9%N
  | "a" | "A" => Some 10%N | "b" | "B" => Some 11%N | "c" | "C" => Some 12%N
  | "d" | "D" => Some 13%N | "e" | "E" => Some 14%N | "f" | "F" => Some 15%N
  | _ => None
  end.

(** A code unit below [0x10000] as UTF-8 (a lone surrogate as the three
    bytes of its code point). *)
Definition utf8_of (cp : N) : list ascii :=
  if (cp <? 128)%N then [ascii_of_N cp]
  else if (cp <? 2048)%N then [ascii_of_N (192 + cp / 64); ascii_of_N (128 + cp mod 64)]
  else [ascii_of_N (224 + cp / 4096); ascii_of_N (128 + (cp / 64) mod 64);
        ascii_of_N (128 + cp mod 64)].

(** One character of a string literal: a byte that is not a control
    character, or an escape. *)
Definition parse_unit (s : list ascii) : option (list ascii * list ascii) :=
  match s with
  | "\" :: c :: s' =>
      match c with
      | "034" => Some (["034"], s')
      | "\" => Some (["\"], s')
      | "/" => Some (["/"], s')
      | "b" => Some (["008"], s')
      | "f" => Some (["012"], s')
      | "n" => Some (["010"], s')
      | "r" => Some (["013"], s')
      | "t" => Some (["009"], s')
      | "u" =>
          match s' with
          | h1 :: h2 :: h3 :: h4 :: s'' =>
              d1 ← hex_value h1; d2 ← hex_value h2; d3 ← hex_value h3; d4 ← hex_value h4;
              Some (utf8_of (((d1 * 16 + d2) * 16 + d3) * 16 + d4)%N, s'')
          | _ => None
          end
      | _ => None
      end
  | c :: s' => if (N_of_ascii c <? 32)%N then None else Some ([c], s')
  | [] => None
  end.

(** The characters of a string literal up to its closing quote. *)
Fixpoint parse_chars (fuel : nat) (s : list ascii) : option (list ascii * list ascii) :=
  match fuel with
  | 0 => None
  | S f =>
      match s with
      | "034" :: s' => Some ([], s')
      | _ => '(u, s1) ← parse_unit s; '(cs, s2) ← parse_chars f s1; Some (u ++ cs, s2)
      end
  end.

Definition parse_string (s : list ascii) : option (string * list ascii) :=
  match s with
  | "034" :: s' => '(cs, r) ← parse_chars (S (length s')) s'; Some (string_of_list_ascii cs, r)
  | _ => None
  end.

Fixpoint parse_value (fuel : nat) (s : list ascii) : option (json * list ascii) :=
  match fuel with
  | 0 => None
  | S f =>
      match s with
      | "n" :: "u" :: "l" :: "l" :: r => Some (JNull, r)
      | "t" :: "r" :: "u" :: "e" :: r => Some (JBool true, r)
      | "f" :: "a" :: "l" :: "s" :: "e" :: r => Some (JBool false, r)
      | "034" :: _ => '(str, r) ← parse_string s; Some (JString str, r)
      | "[" :: r =>
          match skip_ws r with
          | c :: r' =>
              if ascii_dec c "]" then Some (JArray [], r')
              else '(xs, r'') ← parse_elems f r; Some (JArray xs, r'')
          | [] => None
          end
      | "{" :: r =>
          match skip_ws r with
          | c :: r' =>
              if ascii_dec c "}" then Some (JObject [], r')
              else '(fs, r'') ← parse_members f r; Some (JObject fs, r'')
          | [] => None
          end
      | _ => parse_number s
      end
  end
(** The elements of an array after its [[], up to its []]. *)
with parse_elems (fuel : nat) (s : list ascii) : option (list json * list ascii) :=
  match fuel with
  | 0 => None
  | S f =>
      '(v, r) ← parse_value f (skip_ws s);
      match skip_ws r with
      | "," :: r' => '(vs, r'') ← parse_elems f r'; Some (v :: vs, r'')
      | "]" :: r' => Some ([v], r')
      | _ => None
      end
  end
(** The members of an object after its [{], up to its [}]. *)
with parse_members (fuel : nat) (s : list ascii) : option (list (string * json) * list ascii) :=
  match fuel with
  | 0 => None
  | S f =>
      '(k, r1) ← parse_string (skip_ws s);
      match skip_ws r1 with
      | ":" :: r2 =>
          '(v, r3) ← parse_value f (skip_ws r2);
          match skip_ws r3 with
          | "," :: r4 => '(fs, r5) ← parse_members f r4; Some ((k, v) :: fs, r5)
          | "}" :: r4 => Some ([(k, v)], r4)
          | _ => None
          end
      | _ => None
      end
  end.

(** [JSON.parse(text)]. *)
Definition json_parse (text : string) : res json :=
  let s := list_ascii_of_string text in
  match parse_value (length s) (skip_ws s) with
  | Some (j, r) =>
      match skip_ws r with
      | [] => Ok j
      | _ => Err (SyntaxError "Unexpected non-whitespace character after JSON")
      end
  | None => Err (SyntaxError "Unexpected token in JSON")
  end.

(** What may follow a value inside the text [json_stringify] writes. *)
Definition delim_head (rest : list ascii) : bool :=
  match rest with
  | [] => true
  | c :: _ => match c with "," | "]" | "}" => true | _ => false end
  end.

(** ** Induction on [json], with its nested lists *)

Fixpoint jsize (j : json) : nat :=
  match j with
  | JArray xs => S (list_sum (map (fun x => S (jsize x)) xs))
  | JObject fs => S (list_sum (map (fun '(_, v) => S (jsize v)) fs))
  | _ => 1
  end.

(** [j] is read back from its text followed by anything that may follow a
    value, with enough fuel. *)
Definition reads_back (j : json) : Prop :=
  forall f rest, (jsize j <= f)%nat -> delim_head rest = true ->
  parse_value f (print_json j ++ rest) = Some (j, rest).

Section JsonInd.
Variable P : json -> Prop.
Hypothesis HNull : P JNull.
Hypothesis HBool : forall b, P (JBool b).
Hypothesis HNumber : forall n, P (JNumber n).
Hypothesis HString : forall s, P (JString s).
Hypothesis HArray : forall xs, Forall P xs -> P (JArray xs).
Hypothesis HObject : forall fs, Forall (fun kv => P (snd kv)) fs -> P (JObject fs).

Fixpoint json_ind' (j : json) : P j :=
  match j with
  | JNull => HNull
  | JBool b => HBool b
  | JNumber n => HNumber n
  | JString s => HString s
  | JArray xs =>
      HArray xs ((fix go (xs : list json) : Forall P xs :=
                    match xs with
                    | [] => Forall_nil _
                    | x :: xs' => @Forall_cons _ P x xs' (json_ind' x) (go xs')
                    end) xs)
  | JObject fs =>
      HObject fs ((fix go (fs : list (string * json)) : Forall (fun kv => P (snd kv)) fs :=
                     match fs with
                     | [] => Forall_nil _
                     | (k, v) :: fs' => @Forall_cons _ (fun kv => P (snd kv)) (k, v) fs' (json_ind' v) (go fs')
                     end) fs)
  end.
End JsonInd.

(** ** [JSON.parse] reads back what [JSON.stringify] writes *)

Lemma delim_cases c r : delim_head (c :: r) = true -> c = "," \/ c = "]" \/ c = "}".
Proof. destruct c as [[] [] [] [] [] [] [] []]; simpl; try discriminate; auto. Qed.

Lemma delim_not_digit c r : delim_head (c :: r) = true -> is_digit c = false.
Proof. by intros [-> | [-> | ->]]%delim_cases. Qed.

Lemma delim_not_ws c r : delim_head (c :: r) = true -> is_ws c = false.
Proof. by intros [-> | [-> | ->]]%delim_cases. Qed.

Lemma delim_no_fraction {A} (x : A) rest :
  delim_head rest = true ->
  match rest with "." :: _ | "e" :: _ | "E" :: _ => None | _ => Some x end = Some x.
Proof. destruct rest as [|c r]; [done|]. by intros [-> | [-> | ->]]%delim_cases. Qed.

Lemma chars_uint_uint_chars u : chars_uint (uint_chars u) = u.
Proof. induction u; simpl; by rewrite ?IHu. Qed.

Lemma span_digits_uint u rest :
  delim_head rest = true -> span_digits (uint_chars u ++ rest) = (uint_chars u, rest).
Proof.
  intros Hr. induction u; simpl; try (by rewrite IHu).
  destruct rest as [|c r]; [done|]. simpl. by rewrite (delim_not_digit c r Hr).
Qed.

Lemma to_uint_nonnil n : N.to_uint n <> Decimal.Nil.
Proof. destruct n as [|p]; [done|]. apply DecimalPos.Unsigned.to_uint_nonnil. Qed.

(** The digits of [n] followed by a delimiter read back as [n], with or
    without a minus. *)
Lemma parse_number_digits (neg : bool) n rest :
  delim_head rest = true ->
  parse_number ((if neg then ["-"] else []) ++ uint_chars (N.to_uint n) ++ rest)
  = Some (JNumber (if neg then (- Z.of_N n)%Z else Z.of_N n), rest).
Proof.
  intros Hr. pose proof (to_uint_nonnil n) as Hn. pose proof (DecimalN.Unsigned.of_to n) as Hof.
  unfold parse_number.
  destruct (N.to_uint n) as [|u|u|u|u|u|u|u|u|u|u] eqn:E; [done| | | | | | | | | |];
    destruct neg; cbn [app uint_chars span_digits is_digit];
    rewrite span_digits_uint by done; cbn [chars_uint]; rewrite chars_uint_uint_chars, Hof, E;
    rewrite bool_decide_eq_true_2 by done; apply delim_no_fraction, Hr.
Qed.

Lemma parse_print_Z z rest :
  delim_head rest = true -> parse_number (print_Z z ++ rest) = Some (JNumber z, rest).
Proof.
  intros Hr. unfold print_Z. rewrite <- app_assoc.
  replace (JNumber z) with (JNumber (if (z <? 0)%Z then (- Z.of_N (Z.abs_N z))%Z else Z.of_N (Z.abs_N z))).
  - by apply parse_number_digits.
  - f_equal. destruct (Z.ltb_spec z 0); lia.
Qed.

Lemma parse_unit_escape c rest : parse_unit (escape_char c ++ rest) = Some ([c], rest).
Proof. destruct c as [[] [] [] [] [] [] [] []]; reflexivity. Qed.

Lemma parse_chars_escape f c rest :
  parse_chars (S f) (escape_char c ++ rest) = '(cs, s2) ← parse_chars f rest; Some (c :: cs, s2).
Proof. destruct c as [[] [] [] [] [] [] [] []]; reflexivity. Qed.

Lemma escape_char_length c : (1 <= length (escape_char c))%nat.
Proof. destruct c as [[] [] [] [] [] [] [] []]; simpl; lia. Qed.

Lemma flat_map_escape_length cs : (length cs <= length (flat_map escape_char cs))%nat.
Proof.
  induction cs as [|c cs IH]; simpl; [lia|]. rewrite length_app.
  pose proof (escape_char_length c). lia.
Qed.

Lemma parse_chars_print f cs rest :
  (length cs < f)%nat -> parse_chars f (flat_map escape_char cs ++ "034" :: rest) = Some (cs, rest).
Proof.
  revert f. induction cs as [|c cs IH]; intros [|f] Hf; simpl in Hf; try lia; [reflexivity|].
  cbn [flat_map]. rewrite <- app_assoc, parse_chars_escape, IH by lia. reflexivity.
Qed.

Lemma parse_string_print cs rest :
  parse_string (print_string cs ++ rest) = Some (string_of_list_ascii cs, rest).
Proof.
  unfold print_string, parse_string. cbn -[parse_chars flat_map]. rewrite <- app_assoc. cbn [app].
  rewrite parse_chars_print; [reflexivity|].
  rewrite length_app. pose proof (flat_map_escape_length cs). simpl. lia.
Qed.

(** What [JSON.stringify] writes starts with a character that is not
    white space and does not close an array. *)
Lemma print_json_head j : exists c l, print_json j = c :: l /\ is_ws c = false /\ c <> "]".
Proof.
  destruct j as [| [] | z | s | xs | fs];
    try (eexists _, _; split; [reflexivity|split; [reflexivity|discriminate]]).
  cbn [print_json]. unfold print_Z. destruct (z <? 0)%Z;
    [eexists _, _; split; [reflexivity|split; [reflexivity|discriminate]]|].
  pose proof (to_uint_nonnil (Z.abs_N z)) as Hn.
  destruct (N.to_uint (Z.abs_N z)); [done|..];
    eexists _, _; (split; [reflexivity|split; [reflexivity|discriminate]]).
Qed.

Lemma skip_ws_print j rest : skip_ws (print_json j ++ rest) = print_json j ++ rest.
Proof. destruct (print_json_head j) as (c & l & -> & Hws & _). simpl. by rewrite Hws. Qed.

Lemma skip_ws_print_string cs rest : skip_ws (print_string cs ++ rest) = print_string cs ++ rest.
Proof. reflexivity. Qed.

Lemma parse_value_number f z rest :
  parse_value (S f) (print_Z z ++ rest) = parse_number (print_Z z ++ rest).
Proof.
  unfold print_Z. destruct (z <? 0)%Z; [reflexivity|]. cbn [app].
  pose proof (to_uint_nonnil (Z.abs_N z)) as Hn.
  destruct (N.to_uint (Z.abs_N z)); [done|reflexivity..].
Qed.

Lemma parse_value_string f cs rest :
  parse_value (S f) (print_string cs ++ rest)
  = '(str, r) ← parse_string (print_string cs ++ rest); Some (JString str, r).
Proof. reflexivity. Qed.

Lemma parse_value_array f r :
  parse_value (S f) ("[" :: r)
  = match skip_ws r with
    | c :: r' =>
        if ascii_dec c "]" then Some (JArray [], r')
        else '(xs, r'') ← parse_elems f r; Some (JArray xs, r'')
    | [] => None
    end.
Proof. reflexivity. Qed.

Lemma parse_value_object f r :
  parse_value (S f) ("{" :: r)
  = match skip_ws r with
    | c :: r' =>
        if ascii_dec c "}" then Some (JObject [], r')
        else '(fs, r'') ← parse_members f r; Some (JObject fs, r'')
    | [] => None
    end.
Proof. reflexivity. Qed.

Lemma parse_elems_print x xs f rest :
  Forall reads_back (x :: xs) ->
  (list_sum (map (fun y => S (jsize y)) (x :: xs)) <= f)%nat ->
  parse_elems f (print_seq print_json (x :: xs) ++ "]" :: rest) = Some (x :: xs, rest).
Proof.
  revert x f. induction xs as [|y xs IH]; intros x [|f] Hall Hf; simpl in Hf; try lia;
    apply Forall_cons_iff in Hall as [Hx Hall]; cbn [print_seq flat_map]; rewrite <- app_assoc;
    simpl; rewrite skip_ws_print, Hx by (reflexivity || lia); simpl; [reflexivity|].
  change (print_json y ++ flat_map (fun y0 => "," :: print_json y0) xs)
    with (print_seq print_json (y :: xs)).
  rewrite IH; [reflexivity|done|simpl; lia].
Qed.

Lemma parse_members_S f s :
  parse_members (S f) s =
  '(k, r1) ← parse_string (skip_ws s);
  match skip_ws r1 with
  | ":" :: r2 =>
      '(v, r3) ← parse_value f (skip_ws r2);
      match skip_ws r3 with
      | "," :: r4 => '(fs, r5) ← parse_members f r4; Some ((k, v) :: fs, r5)
      | "}" :: r4 => Some ([(k, v)], r4)
      | _ => None
      end
  | _ => None
  end.
Proof. reflexivity. Qed.

Lemma parse_members_print (pm : string * json -> list ascii) kv fs f rest :
  (forall k v, pm (k, v) = print_string (list_ascii_of_string k) ++ ":" :: print_json v) ->
  Forall (fun kv => reads_back (snd kv)) (kv :: fs) ->
  (list_sum (map (fun '(_, v) => S (jsize v)) (kv :: fs)) <= f)%nat ->
  parse_members f (print_seq pm (kv :: fs) ++ "}" :: rest) = Some (kv :: fs, rest).
Proof.
  intros Hpm. revert kv f. induction fs as [|kv' fs IH]; intros [k v] [|f] Hall Hf; simpl in Hf; try lia;
    apply Forall_cons_iff in Hall as [Hx Hall]; simpl in Hx; cbn [print_seq flat_map];
    rewrite Hpm, <- !app_assoc, parse_members_S, skip_ws_print_string, parse_string_print;
    simpl; rewrite skip_ws_print, Hx by (reflexivity || lia); simpl;
    rewrite string_of_list_ascii_of_string; [reflexivity|].
  rewrite (app_assoc (pm kv')). change (pm kv' ++ flat_map (fun y => "," :: pm y) fs) with (print_seq pm (kv' :: fs)).
  rewrite IH; [reflexivity|done|]. destruct kv'. simpl in *. lia.
Qed.

Lemma print_reads_back j : reads_back j.
Proof.
  induction j as [| b | z | s | xs IH | fs IH] using json_ind';
    intros [|f] rest Hf Hr; simpl in Hf; try lia.
  - reflexivity.
  - destruct b; reflexivity.
  - cbn [print_json]. rewrite parse_value_number. by apply parse_print_Z.
  - cbn [print_json]. rewrite parse_value_string, parse_string_print. simpl.
    by rewrite string_of_list_ascii_of_string.
  - cbn [print_json]. rewrite <- app_comm_cons, parse_value_array. destruct xs as [|x xs]; [reflexivity|].
    rewrite <- app_assoc. cbn [app]. rewrite parse_elems_print by (done || lia).
    cbn [print_seq]. rewrite <- app_assoc, skip_ws_print.
    destruct (print_json_head x) as (c & l & Hc & _ & Hne). rewrite Hc. cbn [app].
    by destruct (ascii_dec c "]").
  - cbn [print_json]. rewrite <- app_comm_cons, parse_value_object. destruct fs as [|[k v] fs]; [reflexivity|].
    rewrite <- app_assoc. cbn [app]. rewrite parse_members_print; [reflexivity|done|done|lia].
Qed.

Lemma sum_le_flat_map {A} (g : A -> nat) (p : A -> list ascii) xs :
  Forall (fun x => g x <= S (length (p x)))%nat xs ->
  (list_sum (map g xs) <= length (flat_map (fun y => "," :: p y) xs))%nat.
Proof.
  induction xs as [|x xs IH]; intros Hall; simpl; [lia|].
  apply Forall_cons_iff in Hall as [Hx Hall]. rewrite length_app. simpl. specialize (IH Hall). lia.
Qed.

Lemma sum_le_print_seq {A} (g : A -> nat) (p : A -> list ascii) xs :
  Forall (fun x => g x <= S (length (p x)))%nat xs ->
  (list_sum (map g xs) <= S (length (print_seq p xs)))%nat.
Proof.
  destruct xs as [|x xs]; intros Hall; simpl; [lia|].
  apply Forall_cons_iff in Hall as [Hx Hall]. rewrite length_app.
  pose proof (sum_le_flat_map g p xs Hall). lia.
Qed.

(** The text is at least as long as the fuel its value needs. *)
Lemma jsize_le_print j : (jsize j <= length (print_json j))%nat.
Proof.
  induction j as [| b | z | s | xs IH | fs IH] using json_ind'; cbn [jsize print_json].
  - simpl. lia.
  - destruct b; simpl; lia.
  - destruct (print_json_head (JNumber z)) as (c & l & Hc & _). cbn [print_json] in Hc.
    rewrite Hc. simpl. lia.
  - unfold print_string. simpl. lia.
  - cbn [length]. rewrite length_app. simpl.
    enough (list_sum (map (fun x => S (jsize x)) xs) <= S (length (print_seq print_json xs)))%nat by lia.
    apply sum_le_print_seq. revert IH. apply Forall_impl. lia.
  - cbn [length]. rewrite length_app. simpl.
    match goal with |- context [print_seq ?pm fs] =>
      enough (list_sum (map (fun '(_, v) => S (jsize v)) fs) <= S (length (print_seq pm fs)))%nat by lia;
      apply sum_le_print_seq end.
    revert IH. apply Forall_impl. intros [k v] Hv. simpl in *. rewrite length_app. simpl. lia.
Qed.

(** [JSON.parse(JSON.stringify(v))] gives back [v]. *)
Lemma json_parse_print j : json_parse (json_stringify j) = Ok j.
Proof.
  unfold json_parse, json_stringify. rewrite list_ascii_of_string_of_list_ascii.
  pose proof (skip_ws_print j []) as Hs. rewrite app_nil_r in Hs. rewrite Hs.
  pose proof (print_reads_back j (length (print_json j)) [] (jsize_le_print j) eq_refl) as H.
  rewrite app_nil_r in H. by rewrite H.
Qed.

Lemma json_stringify_nonempty j : json_stringify j <> EmptyString.
Proof.
  unfold json_stringify. destruct (print_json_head j) as (c & l & -> & _). simpl. discriminate.
Qed.
