(* ===== verification/Schema.v ===== *)
(** * The story tables and the SQL statements the ORM issues on them

    Models packages/database/src/schemas/userMemories/story.ts: the rows of
    [user_memory_story_documents] and [user_memory_story_diffs] as records,
    the database as a record of tables, and the three statements the model
    class issues (insert a document, update a document, insert a diff) with
    PostgreSQL's behaviour on them:
    - an insert fills a column left [undefined] with its default
      ([version] 1, [captured_at], [created_at], [updated_at] now, a fresh
      [id]) or with NULL;
    - an update writes only the columns whose value is not [undefined]
      (drizzle drops [undefined] keys from [.set()]);
    - [integer] columns are int4: a value outside [-2^31, 2^31-1] is
      rejected with "integer out of range";
    - [varchar255('title')] is [varchar(255)]: a title of more than 255
      characters is rejected with "value too long" ([StringTooLong]);
      the NUL character that text and jsonb columns also reject is not
      modelled;
    - the unique index on [user_id] rejects a second document of a user
      (NULLs are distinct), the [references] clauses reject a row whose
      [user_id] is not a user or whose [story_id] is not a document.
    Ids come from [createNanoId(18)]; the model draws them from a counter,
    which is what the code relies on (a fresh id).  The clock is the value
    of [now()] / [new Date()]; it advances between transactions.
    The [user_memories] table is read by the service but belongs to the
    memory subsystem; its row is modelled with the columns the service
    reads. *)

From S2P Require Import Prelude Json.

Definition Id := N.
Definition Timestamp := Z.

(** ** Rows *)

(** [userStoryDocuments] (schema lines 8-35). *)
Record UserStoryDocument := mkDocument {
  doc_id : Id;
  doc_userId : option string;
  doc_title : option string;
  doc_summary : option string;
  doc_story : option string;
  doc_reasoning : option string;
  doc_memoryIds : option (list string);
  doc_sourceIds : option (list string);
  doc_metadata : option json;
  doc_version : Z;
  doc_capturedAt : Timestamp;
  doc_createdAt : Timestamp;
  doc_updatedAt : Timestamp;
}.

(** [userStoryDiffs] (schema lines 37-67). *)
Record UserStoryDiff := mkDiff {
  diff_id : Id;
  diff_userId : option string;
  diff_storyId : option Id;
  diff_diff : option string;
  diff_snapshot : option string;
  diff_summary : option string;
  diff_reasoning : option string;
  diff_memoryIds : option (list string);
  diff_sourceIds : option (list string);
  diff_metadata : option json;
  diff_previousVersion : option Z;
  diff_nextVersion : option Z;
  diff_capturedAt : Timestamp;
  diff_createdAt : Timestamp;
  diff_updatedAt : Timestamp;
}.

(** [NewUserStoryDocument] without [id]: the values of an insert or of an
    update's [.set()]; [None] is [undefined]. *)
Record NewUserStoryDocument := mkNewDocument {
  nd_userId : option string;
  nd_title : option string;
  nd_summary : option string;
  nd_story : option string;
  nd_reasoning : option string;
  nd_memoryIds : option (list string);
  nd_sourceIds : option (list string);
  nd_metadata : option json;
  nd_version : option Z;
  nd_capturedAt : option Timestamp;
  nd_updatedAt : option Timestamp;
}.

(** [NewUserStoryDiff] without [id]. *)
Record NewUserStoryDiff := mkNewDiff {
  nf_userId : option string;
  nf_storyId : option Id;
  nf_diff : option string;
  nf_snapshot : option string;
  nf_summary : option string;
  nf_reasoning : option string;
  nf_memoryIds : option (list string);
  nf_sourceIds : option (list string);
  nf_metadata : option json;
  nf_previousVersion : option Z;
  nf_nextVersion : option Z;
  nf_capturedAt : option Timestamp;
}.

(** A row of [user_memories] as [buildUserStoryJobInput] reads it. *)
Record UserMemory := mkUserMemory {
  mem_id : string;
  mem_userId : option string;
  mem_title : option string;
  mem_summary : option string;
  mem_details : option string;
  mem_capturedAt : option Timestamp;
}.

(** ** The database *)

Record Tables := mkTables {
  users : gset string;
  userStoryDocuments : list UserStoryDocument;
  userStoryDiffs : list UserStoryDiff;
  userMemories : list UserMemory;
  next_id : Id;
  clock : Timestamp;
}.

Definition set_documents (db : Tables) (ds : list UserStoryDocument) : Tables :=
  mkTables (users db) ds (userStoryDiffs db) (userMemories db) (next_id db) (clock db).
Definition set_diffs (db : Tables) (fs : list UserStoryDiff) : Tables :=
  mkTables (users db) (userStoryDocuments db) fs (userMemories db) (next_id db) (clock db).
Definition bump_id (db : Tables) : Tables :=
  mkTables (users db) (userStoryDocuments db) (userStoryDiffs db) (userMemories db)
    (N.succ (next_id db)) (clock db).
Definition tick (db : Tables) : Tables :=
  mkTables (users db) (userStoryDocuments db) (userStoryDiffs db) (userMemories db)
    (next_id db) (clock db + 1)%Z.

(** ** Column types *)

Definition INT4_MIN : Z := -2147483648.
Definition INT4_MAX : Z := 2147483647.

(** The value fits an [integer] column. *)
Definition int4_ok (z : Z) : bool := bool_decide (INT4_MIN <= z <= INT4_MAX)%Z.

Definition opt_int4_ok (o : option Z) : bool :=
  match o with Some z => int4_ok z | None => true end.

Definition out_of_range {A} (column : string) : st Tables A :=
  st_throw (DbError IntegerOutOfRange column).

(** A [varchar(255)] column holds at most 255 characters; in a UTF-8
    database a character is a byte that is not a continuation byte. *)
Definition char_length (s : string) : nat :=
  length (List.filter (fun c => negb (N.leb 128 (N_of_ascii c) && N.ltb (N_of_ascii c) 192))
                      (list_ascii_of_string s)).

Definition varchar255_ok (o : option string) : bool :=
  match o with Some s => Nat.leb (char_length s) 255 | None => true end.

(** [value too long for type character varying(255)]. *)
Definition too_long {A} (column : string) : st Tables A :=
  st_throw (DbError StringTooLong column).

(** ** Statements *)

(** Rows owned by a user: [eq(table.userId, userId)]; a NULL never equals. *)
Definition owned_by (u : string) (o : option string) : bool :=
  match o with Some u' => String.eqb u' u | None => false end.

Definition doc_of_user (u : string) (d : UserStoryDocument) : bool :=
  owned_by u (doc_userId d).

(** The row an insert writes: a fresh id, the given values, the column
    defaults for the [undefined] ones. *)
Definition new_doc_row (db : Tables) (v : NewUserStoryDocument) : UserStoryDocument :=
  {|
    doc_id := next_id db;
    doc_userId := nd_userId v;
    doc_title := nd_title v;
    doc_summary := nd_summary v;
    doc_story := nd_story v;
    doc_reasoning := nd_reasoning v;
    doc_memoryIds := nd_memoryIds v;
    doc_sourceIds := nd_sourceIds v;
    doc_metadata := nd_metadata v;
    doc_version := default 1%Z (nd_version v);
    doc_capturedAt := default (clock db) (nd_capturedAt v);
    doc_createdAt := clock db;
    doc_updatedAt := default (clock db) (nd_updatedAt v);
  |}.

Definition new_diff_row (db : Tables) (v : NewUserStoryDiff) : UserStoryDiff :=
  {|
    diff_id := next_id db;
    diff_userId := nf_userId v;
    diff_storyId := nf_storyId v;
    diff_diff := nf_diff v;
    diff_snapshot := nf_snapshot v;
    diff_summary := nf_summary v;
    diff_reasoning := nf_reasoning v;
    diff_memoryIds := nf_memoryIds v;
    diff_sourceIds := nf_sourceIds v;
    diff_metadata := nf_metadata v;
    diff_previousVersion := nf_previousVersion v;
    diff_nextVersion := nf_nextVersion v;
    diff_capturedAt := default (clock db) (nf_capturedAt v);
    diff_createdAt := clock db;
    diff_updatedAt := clock db;
  |}.

(** [INSERT INTO user_memory_story_documents ... RETURNING *].  The checks
    come in the order PostgreSQL meets them: the integer parameter when it
    is bound, the length of [title] when the row is formed, the unique
    index when the row enters it, the foreign key at the end of the
    statement. *)
Definition insert_document (v : NewUserStoryDocument) : st Tables UserStoryDocument :=
  fun db =>
    let version := default 1%Z (nd_version v) in
    if negb (int4_ok version) then out_of_range "version" db
    else if negb (varchar255_ok (nd_title v)) then too_long "title" db
    else if (match nd_userId v with
             | Some u => existsb (doc_of_user u) (userStoryDocuments db)
             | None => false end)
    then st_throw (DbError UniqueViolation "user_story_documents_user_id_unique") db
    else if (match nd_userId v with
             | Some u => negb (bool_decide (u ∈ users db))
             | None => false end)
    then st_throw (DbError ForeignKeyViolation
                     "user_memory_story_documents_user_id_users_id_fk") db
    else
      let row := new_doc_row db v in
      (Ok row, bump_id (set_documents db (userStoryDocuments db ++ [row]))).

(** The columns of [.set(v)] that are not [undefined] overwrite the row;
    the statement of the model never sets [user_id]. *)
Definition apply_set (v : NewUserStoryDocument) (d : UserStoryDocument) : UserStoryDocument :=
  {|
    doc_id := doc_id d;
    doc_userId := doc_userId d;
    doc_title := nd_title v ?? doc_title d;
    doc_summary := nd_summary v ?? doc_summary d;
    doc_story := nd_story v ?? doc_story d;
    doc_reasoning := nd_reasoning v ?? doc_reasoning d;
    doc_memoryIds := nd_memoryIds v ?? doc_memoryIds d;
    doc_sourceIds := nd_sourceIds v ?? doc_sourceIds d;
    doc_metadata := nd_metadata v ?? doc_metadata d;
    doc_version := default (doc_version d) (nd_version v);
    doc_capturedAt := default (doc_capturedAt d) (nd_capturedAt v);
    doc_createdAt := doc_createdAt d;
    doc_updatedAt := default (doc_updatedAt d) (nd_updatedAt v);
  |}.

(** [WHERE id = i AND user_id = u]. *)
Definition hit (i : Id) (u : string) (d : UserStoryDocument) : bool :=
  bool_decide (doc_id d = i) && doc_of_user u d.

(** [UPDATE ... SET v WHERE id = i AND user_id = u RETURNING *]: the
    integer parameter is checked when bound, the length of [title] only on
    a row the [WHERE] selects. *)
Definition update_document (i : Id) (u : string) (v : NewUserStoryDocument)
  : st Tables (list UserStoryDocument) :=
  fun db =>
    if negb (opt_int4_ok (nd_version v)) then out_of_range "version" db
    else if negb (varchar255_ok (nd_title v)) && existsb (hit i u) (userStoryDocuments db)
    then too_long "title" db
    else
      let rows := map (fun d => if hit i u d then apply_set v d else d)
                      (userStoryDocuments db) in
      (Ok (map (apply_set v) (List.filter (hit i u) (userStoryDocuments db))),
       set_documents db rows).

(** [INSERT INTO user_memory_story_diffs ... RETURNING *]. *)
Definition insert_diff (v : NewUserStoryDiff) : st Tables UserStoryDiff :=
  fun db =>
    if negb (opt_int4_ok (nf_previousVersion v)) then out_of_range "previous_version" db
    else if negb (opt_int4_ok (nf_nextVersion v)) then out_of_range "next_version" db
    else if (match nf_userId v with
             | Some u => negb (bool_decide (u ∈ users db))
             | None => false end)
    then st_throw (DbError ForeignKeyViolation
                     "user_memory_story_diffs_user_id_users_id_fk") db
    else if (match nf_storyId v with
             | Some s => negb (existsb (fun d => bool_decide (doc_id d = s))
                                       (userStoryDocuments db))
             | None => false end)
    then st_throw (DbError ForeignKeyViolation
                     "user_memory_story_diffs_story_id_user_memory_story_documents_id_fk") db
    else
      let row := new_diff_row db v in
      (Ok row, bump_id (set_diffs db (userStoryDiffs db ++ [row]))).

(** A transaction (or a statement run on its own, which PostgreSQL wraps in
    one): all of it or nothing, and the clock has moved on when it ends. *)
Definition transaction {A} (m : st Tables A) : st Tables A :=
  fun db => let '(r, db') := atomically m db in (r, tick db').

(** [new Date()] / [now()]. *)
Definition now : st Tables Timestamp := st_gets clock.

(** ** The invariant of the tables

    What the constraints of the schema guarantee of every committed state,
    together with what the code keeps true on top of them: ids below the
    counter (so the next one is fresh), one document per user (the unique
    index), the foreign keys, and document versions in [1, INT4_MAX]. *)

Definition fk_user (db : Tables) (o : option string) : Prop :=
  match o with Some u => u ∈ users db | None => True end.

Definition fk_story (db : Tables) (o : option Id) : Prop :=
  match o with Some s => s ∈ map doc_id (userStoryDocuments db) | None => True end.

Record db_wf (db : Tables) : Prop := {
  wf_doc_fresh : Forall (fun d => (doc_id d < next_id db)%N) (userStoryDocuments db);
  wf_diff_fresh : Forall (fun f => (diff_id f < next_id db)%N) (userStoryDiffs db);
  wf_doc_nodup : List.NoDup (map doc_id (userStoryDocuments db));
  wf_diff_nodup : List.NoDup (map diff_id (userStoryDiffs db));
  wf_one_doc : forall u, length (List.filter (doc_of_user u) (userStoryDocuments db)) <= 1;
  wf_doc_fk : Forall (fun d => fk_user db (doc_userId d)) (userStoryDocuments db);
  wf_diff_fk : Forall (fun f => fk_user db (diff_userId f) /\ fk_story db (diff_storyId f))
                 (userStoryDiffs db);
  wf_versions : Forall (fun d => (1 <= doc_version d <= INT4_MAX)%Z) (userStoryDocuments db);
}.

(** The invariant as an executable check, for concrete databases. *)
Definition fk_userb (db : Tables) (o : option string) : bool :=
  match o with Some u => bool_decide (u ∈ users db) | None => true end.

Definition fk_storyb (db : Tables) (o : option Id) : bool :=
  match o with Some s => bool_decide (s ∈ map doc_id (userStoryDocuments db)) | None => true end.

Definition db_wfb (db : Tables) : bool :=
  forallb (fun d => N.ltb (doc_id d) (next_id db)) (userStoryDocuments db) &&
  forallb (fun f => N.ltb (diff_id f) (next_id db)) (userStoryDiffs db) &&
  bool_decide (NoDup (map doc_id (userStoryDocuments db))) &&
  bool_decide (NoDup (map diff_id (userStoryDiffs db))) &&
  forallb (fun d => match doc_userId d with
                    | Some u => Nat.leb (length (List.filter (doc_of_user u) (userStoryDocuments db))) 1
                    | None => true end) (userStoryDocuments db) &&
  forallb (fun d => fk_userb db (doc_userId d)) (userStoryDocuments db) &&
  forallb (fun f => fk_userb db (diff_userId f) && fk_storyb db (diff_storyId f))
          (userStoryDiffs db) &&
  forallb (fun d => bool_decide (1 <= doc_version d <= INT4_MAX)%Z) (userStoryDocuments db).

(** ** Lemmas on the statements *)

Lemma Forall_lt_succ {A} (f : A -> N) n l :
  Forall (fun x => (f x < n)%N) l -> Forall (fun x => (f x < N.succ n)%N) l.
Proof. rewrite !Forall_forall. intros H x Hx. specialize (H x Hx). lia. Qed.

Lemma NoDup_snoc_fresh {A} (f : A -> N) n l :
  Forall (fun x => (f x < n)%N) l -> List.NoDup (map f l) -> List.NoDup (map f l ++ [n]).
Proof.
  intros Hlt Hnd. apply NoDup_app; [done| repeat constructor; by intros []|].
  intros x Hx [<-|[]]. apply in_map_iff in Hx as (y & <- & Hin).
  rewrite Forall_forall in Hlt. specialize (Hlt y Hin). lia.
Qed.

Lemma existsb_false_filter {A} (f : A -> bool) l :
  existsb f l = false -> List.filter f l = [].
Proof.
  induction l as [|x l IH]; simpl; [done|].
  destruct (f x); simpl; [discriminate|]. done.
Qed.

Lemma existsb_doc_id_in s ds :
  existsb (fun d => bool_decide (doc_id d = s)) ds = true <-> s ∈ map doc_id ds.
Proof.
  rewrite existsb_exists, list_elem_of_In, in_map_iff.
  split; intros (d & H1 & H2); exists d; split; try done;
    [by apply bool_decide_eq_true in H2 | by apply bool_decide_eq_true].
Qed.

(** A map over the documents that keeps ids and owners keeps everything the
    invariant says of ids and owners. *)
Definition keeps_keys (g : UserStoryDocument -> UserStoryDocument) : Prop :=
  forall d, doc_id (g d) = doc_id d /\ doc_userId (g d) = doc_userId d.

Lemma keeps_keys_ids g ds : keeps_keys g -> map doc_id (map g ds) = map doc_id ds.
Proof. intros Hg. rewrite map_map. apply map_ext. intros d. apply Hg. Qed.

Lemma keeps_keys_filter g u ds :
  keeps_keys g ->
  List.filter (doc_of_user u) (map g ds) = map g (List.filter (doc_of_user u) ds).
Proof.
  intros Hg. rewrite filter_map_swap. f_equal. apply filter_ext. intros d.
  unfold doc_of_user. by rewrite (proj2 (Hg d)).
Qed.

Lemma apply_set_keeps_keys v : keeps_keys (apply_set v).
Proof. done. Qed.

Lemma update_map_keeps_keys i u v :
  keeps_keys (fun d => if hit i u d then apply_set v d else d).
Proof. intros d. by destruct (hit i u d). Qed.

#[export] Hint Resolve apply_set_keeps_keys update_map_keeps_keys : story.

Lemma insert_document_ok db v u :
  nd_userId v = Some u ->
  int4_ok (default 1%Z (nd_version v)) = true ->
  varchar255_ok (nd_title v) = true ->
  existsb (doc_of_user u) (userStoryDocuments db) = false ->
  u ∈ users db ->
  insert_document v db
  = (Ok (new_doc_row db v),
     bump_id (set_documents db (userStoryDocuments db ++ [new_doc_row db v]))).
Proof.
  intros Hu Hv Ht He Hm. unfold insert_document. cbv zeta.
  rewrite Hv, Ht, Hu, He. simpl. by rewrite bool_decide_eq_true_2.
Qed.

Lemma insert_document_unique db v u :
  nd_userId v = Some u ->
  int4_ok (default 1%Z (nd_version v)) = true ->
  varchar255_ok (nd_title v) = true ->
  existsb (doc_of_user u) (userStoryDocuments db) = true ->
  insert_document v db
  = (Err (DbError UniqueViolation "user_story_documents_user_id_unique"), db).
Proof. intros Hu Hv Ht He. unfold insert_document. cbv zeta. by rewrite Hv, Ht, Hu, He. Qed.

Lemma insert_document_long db v :
  int4_ok (default 1%Z (nd_version v)) = true ->
  varchar255_ok (nd_title v) = false ->
  insert_document v db = (Err (DbError StringTooLong "title"), db).
Proof. intros Hv Ht. unfold insert_document. cbv zeta. by rewrite Hv, Ht. Qed.

Lemma insert_document_fk db v u :
  nd_userId v = Some u ->
  int4_ok (default 1%Z (nd_version v)) = true ->
  varchar255_ok (nd_title v) = true ->
  existsb (doc_of_user u) (userStoryDocuments db) = false ->
  u ∉ users db ->
  insert_document v db
  = (Err (DbError ForeignKeyViolation "user_memory_story_documents_user_id_users_id_fk"), db).
Proof.
  intros Hu Hv Ht He Hm. unfold insert_document. cbv zeta.
  rewrite Hv, Ht, Hu, He. simpl. by rewrite bool_decide_eq_false_2.
Qed.

Lemma update_document_ok db i u v :
  opt_int4_ok (nd_version v) = true ->
  varchar255_ok (nd_title v) = true ->
  update_document i u v db
  = (Ok (map (apply_set v) (List.filter (hit i u) (userStoryDocuments db))),
     set_documents db (map (fun d => if hit i u d then apply_set v d else d)
                           (userStoryDocuments db))).
Proof. intros Hv Ht. unfold update_document. by rewrite Hv, Ht. Qed.

Lemma update_document_long db i u v :
  opt_int4_ok (nd_version v) = true ->
  varchar255_ok (nd_title v) = false ->
  existsb (hit i u) (userStoryDocuments db) = true ->
  update_document i u v db = (Err (DbError StringTooLong "title"), db).
Proof. intros Hv Ht He. unfold update_document. by rewrite Hv, Ht, He. Qed.

Lemma update_document_range db i u v :
  opt_int4_ok (nd_version v) = false ->
  update_document i u v db = (Err (DbError IntegerOutOfRange "version"), db).
Proof. intros Hv. unfold update_document. by rewrite Hv. Qed.

Lemma insert_diff_ok db v :
  opt_int4_ok (nf_previousVersion v) = true ->
  opt_int4_ok (nf_nextVersion v) = true ->
  fk_user db (nf_userId v) ->
  fk_story db (nf_storyId v) ->
  insert_diff v db
  = (Ok (new_diff_row db v), bump_id (set_diffs db (userStoryDiffs db ++ [new_diff_row db v]))).
Proof.
  intros Hp Hn Hu Hs. unfold insert_diff. rewrite Hp, Hn. simpl.
  destruct (nf_userId v) as [u|]; simpl in Hu; [rewrite bool_decide_eq_true_2 by done|];
  destruct (nf_storyId v) as [s|]; simpl in Hs; try done;
  apply existsb_doc_id_in in Hs; by rewrite Hs.
Qed.

Lemma fk_story_snoc db ds o :
  fk_story db o -> fk_story (set_documents db (userStoryDocuments db ++ ds)) o.
Proof.
  destruct o as [s|]; simpl; [|done]. rewrite map_app, elem_of_app. by left.
Qed.

Lemma tick_wf db : db_wf db -> db_wf (tick db).
Proof. destruct 1; constructor; done. Qed.

Lemma wf_snoc_doc db r :
  db_wf db ->
  doc_id r = next_id db ->
  fk_user db (doc_userId r) ->
  (forall u, doc_of_user u r = true ->
             existsb (doc_of_user u) (userStoryDocuments db) = false) ->
  (1 <= doc_version r <= INT4_MAX)%Z ->
  db_wf (bump_id (set_documents db (userStoryDocuments db ++ [r]))).
Proof.
  intros [] Hid Hfk Hown Hver. constructor; simpl.
  - apply Forall_app. split; [by apply Forall_lt_succ|]. constructor; [lia|done].
  - by apply Forall_lt_succ.
  - rewrite map_app. simpl. rewrite Hid. by apply NoDup_snoc_fresh.
  - done.
  - intros u. rewrite filter_app. simpl.
    destruct (doc_of_user u r) eqn:E; simpl.
    + rewrite (existsb_false_filter _ _ (Hown u E)). simpl. lia.
    + rewrite app_nil_r. apply wf_one_doc0.
  - apply Forall_app. split; [done|by constructor].
  - rewrite Forall_forall in *. intros f Hf.
    destruct (wf_diff_fk0 f Hf). split; [done|]. by apply (fk_story_snoc db [r]).
  - apply Forall_app. split; [done|by constructor].
Qed.

Lemma wf_snoc_diff db f :
  db_wf db ->
  diff_id f = next_id db ->
  fk_user db (diff_userId f) ->
  fk_story db (diff_storyId f) ->
  db_wf (bump_id (set_diffs db (userStoryDiffs db ++ [f]))).
Proof.
  intros [] Hid Hu Hs. constructor; simpl; try done.
  - by apply Forall_lt_succ.
  - apply Forall_app. split; [by apply Forall_lt_succ|]. constructor; [lia|done].
  - rewrite map_app. simpl. rewrite Hid. by apply NoDup_snoc_fresh.
  - apply Forall_app. split; [done|by constructor].
Qed.

Lemma wf_map_docs db g :
  db_wf db ->
  keeps_keys g ->
  Forall (fun d => (1 <= doc_version (g d) <= INT4_MAX)%Z) (userStoryDocuments db) ->
  db_wf (set_documents db (map g (userStoryDocuments db))).
Proof.
  intros [] Hg Hver. constructor; simpl.
  - apply Forall_map. rewrite Forall_forall in *. intros d Hd.
    rewrite (proj1 (Hg d)). auto.
  - done.
  - by rewrite keeps_keys_ids.
  - done.
  - intros u. rewrite keeps_keys_filter, length_map by done. apply wf_one_doc0.
  - apply Forall_map. rewrite Forall_forall in *. intros d Hd.
    rewrite (proj2 (Hg d)). exact (wf_doc_fk0 d Hd).
  - rewrite Forall_forall in *. intros f Hf. destruct (wf_diff_fk0 f Hf) as [Hu Hs].
    split; [done|]. destruct (diff_storyId f); simpl in *; [|done].
    by rewrite keeps_keys_ids.
  - by apply Forall_map.
Qed.

Lemma insert_document_wf db v d db' :
  db_wf db ->
  insert_document v db = (Ok d, db') ->
  (1 <= default 1%Z (nd_version v))%Z ->
  db_wf db'.
Proof.
  intros Hwf Hins Hpos. unfold insert_document in Hins. cbv zeta in Hins.
  destruct (int4_ok _) eqn:Hv; simpl in Hins; [|discriminate].
  assert (Hrange : (1 <= default 1%Z (nd_version v) <= INT4_MAX)%Z)
    by (unfold int4_ok in Hv; case_bool_decide; [lia|discriminate]).
  destruct (varchar255_ok (nd_title v)); simpl in Hins; [|discriminate].
  destruct (nd_userId v) as [u|] eqn:Hu.
  - destruct (existsb _ _) eqn:He; simpl in Hins; [discriminate|].
    case_bool_decide as Hm; simpl in Hins; [|discriminate]. invc Hins.
    apply wf_snoc_doc; simpl; rewrite ?Hu; try done.
    intros u' Hu'. unfold doc_of_user, owned_by in Hu'. simpl in Hu'. rewrite Hu in Hu'.
    apply String.eqb_eq in Hu' as ->. done.
  - simpl in Hins. invc Hins. apply wf_snoc_doc; simpl; rewrite ?Hu; try done.
    intros u' Hu'. unfold doc_of_user, owned_by in Hu'. simpl in Hu'. by rewrite Hu in Hu'.
Qed.

Lemma update_document_wf db i u v rows db' :
  db_wf db ->
  update_document i u v db = (Ok rows, db') ->
  (forall z, nd_version v = Some z -> (1 <= z)%Z) ->
  db_wf db'.
Proof.
  intros Hwf Hupd Hpos. unfold update_document in Hupd.
  destruct (opt_int4_ok (nd_version v)) eqn:Hv; simpl in Hupd; [|discriminate].
  destruct (negb _ && _); simpl in Hupd; [discriminate|].
  invc Hupd. apply wf_map_docs; [done|auto with story|].
  pose proof (wf_versions _ Hwf) as Hver. rewrite Forall_forall in *.
  intros d Hd. destruct (hit i u d); [|auto]. simpl.
  destruct (nd_version v) as [z|] eqn:Ez; simpl; [|auto].
  specialize (Hpos z eq_refl). unfold opt_int4_ok, int4_ok in Hv.
  case_bool_decide; [lia|discriminate].
Qed.

Lemma insert_diff_wf db v f db' :
  db_wf db -> insert_diff v db = (Ok f, db') -> db_wf db'.
Proof.
  intros Hwf Hins. unfold insert_diff in Hins.
  destruct (opt_int4_ok (nf_previousVersion v)); simpl in Hins; [|discriminate].
  destruct (opt_int4_ok (nf_nextVersion v)); simpl in Hins; [|discriminate].
  destruct (nf_userId v) as [u|] eqn:Hu; simpl in Hins;
    [case_bool_decide as Hm; simpl in Hins; [|discriminate]|];
  (destruct (nf_storyId v) as [s|] eqn:Hs; simpl in Hins;
    [destruct (existsb _ _) eqn:He; simpl in Hins; [|discriminate]|]);
  invc Hins; apply wf_snoc_diff; simpl; rewrite ?Hu, ?Hs; simpl; try done;
  by apply existsb_doc_id_in.
Qed.

(** A transaction that throws leaves the tables as they were. *)
Lemma transaction_err {A} (m : st Tables A) db e db' :
  transaction m db = (Err e, db') -> db' = tick db.
Proof.
  unfold transaction, atomically. destruct (m db) as [[a|e'] db1]; intros H; by invc H.
Qed.

Lemma fk_userb_sound db o : fk_userb db o = true -> fk_user db o.
Proof. destruct o; simpl; [apply bool_decide_eq_true|done]. Qed.

Lemma fk_storyb_sound db o : fk_storyb db o = true -> fk_story db o.
Proof. destruct o; simpl; [apply bool_decide_eq_true|done]. Qed.

Lemma forallb_Forall {A} (f : A -> bool) (P : A -> Prop) l :
  (forall x, f x = true -> P x) -> forallb f l = true -> Forall P l.
Proof.
  intros HP Hf. apply Forall_forall. intros x Hx.
  apply HP. exact (proj1 (forallb_forall f l) Hf x Hx).
Qed.

(** The check decides the invariant's conditions on a concrete database. *)
Lemma db_wfb_sound db : db_wfb db = true -> db_wf db.
Proof.
  unfold db_wfb. rewrite !andb_true_iff.
  intros [[[[[[[H1 H2] H3] H4] H5] H6] H7] H8]. constructor.
  - revert H1. apply forallb_Forall. intros x. apply N.ltb_lt.
  - revert H2. apply forallb_Forall. intros x. apply N.ltb_lt.
  - apply NoDup_ListNoDup. by apply bool_decide_eq_true in H3.
  - apply NoDup_ListNoDup. by apply bool_decide_eq_true in H4.
  - intros u. destruct (List.filter (doc_of_user u) (userStoryDocuments db)) as [|x l] eqn:E;
      [simpl; lia|].
    assert (Hx : In x (List.filter (doc_of_user u) (userStoryDocuments db))) by (rewrite E; by left).
    apply filter_In in Hx as [Hin Hu].
    pose proof (proj1 (forallb_forall _ _) H5 x Hin) as Hc. simpl in Hc.
    unfold doc_of_user, owned_by in Hu. destruct (doc_userId x) as [u'|]; [|discriminate].
    apply String.eqb_eq in Hu as ->. rewrite E in Hc. by apply Nat.leb_le in Hc.
  - revert H6. apply forallb_Forall. intros x. apply fk_userb_sound.
  - revert H7. apply forallb_Forall. intros x [Ha Hb]%andb_true_iff.
    split; [by apply fk_userb_sound|by apply fk_storyb_sound].
  - revert H8. apply forallb_Forall. intros x. apply bool_decide_eq_true.
Qed.
