(* ===== verification/StoryModel.v ===== *)
(** * [UserStoryModel]: the versioned story document of one user

    Models the class of packages/database/src/models/userMemory/story.ts.
    An instance is bound to one [userId]; here that is the [Variable] of the
    section [UserStoryModel], so that after the section every operation
    takes the user as its first argument.  The operations are state
    transformers of [Tables] in the monad of [Prelude]:
    - [getLatestStoryDocument]: the user's document ordered by version then
      [updated_at], descending, first row;
    - [listDiffs]: the user's diffs, newest [created_at] first, at most
      [limit];
    - [appendDiff]: one diff insert;
    - [upsertStory]: one transaction that reads the user's document, inserts
      it (version 1) or updates it (version + 1), and inserts a diff row when
      the parameters carry diff content.
    [upsertStory] is split into its read ([upsert_read]) and its writes
    ([upsert_write]) so that [Concurrency.v] can interleave two of them. *)

From S2P Require Import Prelude Json Schema.

(** [UpsertUserStoryParams]; [None] is [null] or [undefined], which the code
    does not tell apart (every use is [?? undefined] or a truthiness test). *)
Record UpsertUserStoryParams := mkUpsertParams {
  up_capturedAt : option Timestamp;
  up_diff : option string;
  up_memoryIds : option (list string);
  up_metadata : option json;
  up_reasoning : option string;
  up_snapshot : option string;
  up_sourceIds : option (list string);
  up_story : string;
  up_summary : option string;
  up_title : option string;
}.

(** [orderBy: [desc(version), desc(updatedAt)]]: [a] may come before [b]. *)
Definition doc_order (a b : UserStoryDocument) : Prop :=
  (doc_version b < doc_version a)%Z \/
  (doc_version a = doc_version b /\ (doc_updatedAt b <= doc_updatedAt a)%Z).

#[export] Instance doc_order_dec : RelDecision doc_order.
Proof. intros a b. unfold doc_order. apply _. Defined.

(** [orderBy: [desc(createdAt)]]. *)
Definition diff_order (a b : UserStoryDiff) : Prop :=
  (diff_createdAt b <= diff_createdAt a)%Z.

#[export] Instance diff_order_dec : RelDecision diff_order.
Proof. intros a b. unfold diff_order. apply _. Defined.

(** [{ ...base, userId: this.userId }]. *)
Definition nd_with_userId (v : NewUserStoryDocument) (u : string) : NewUserStoryDocument :=
  mkNewDocument (Some u) (nd_title v) (nd_summary v) (nd_story v) (nd_reasoning v)
    (nd_memoryIds v) (nd_sourceIds v) (nd_metadata v) (nd_version v)
    (nd_capturedAt v) (nd_updatedAt v).

(** [{ ...base, updatedAt: new Date() }]. *)
Definition nd_with_updatedAt (v : NewUserStoryDocument) (t : Timestamp) : NewUserStoryDocument :=
  mkNewDocument (nd_userId v) (nd_title v) (nd_summary v) (nd_story v) (nd_reasoning v)
    (nd_memoryIds v) (nd_sourceIds v) (nd_metadata v) (nd_version v)
    (nd_capturedAt v) (Some t).

(** [baseDocument] of [upsertStory] (lines 73-83). *)
Definition baseDocument (p : UpsertUserStoryParams) (nextVersion : Z) : NewUserStoryDocument :=
  {|
    nd_userId := None;
    nd_title := up_title p;
    nd_summary := up_summary p;
    nd_story := Some (up_story p);
    nd_reasoning := up_reasoning p;
    nd_memoryIds := up_memoryIds p;
    nd_sourceIds := up_sourceIds p;
    nd_metadata := up_metadata p;
    nd_version := Some nextVersion;
    nd_capturedAt := up_capturedAt p;
    nd_updatedAt := None;
  |}.

(** [hasDiff] (lines 101-106). *)
Definition hasDiff (p : UpsertUserStoryParams) : bool :=
  opt_truthy (up_diff p) || opt_truthy (up_snapshot p) || opt_truthy (up_reasoning p)
  || opt_nonempty (up_memoryIds p) || opt_nonempty (up_sourceIds p).

Section UserStoryModel.
Variable userId : string.

Definition getLatestStoryDocument : st Tables (option UserStoryDocument) :=
  st_gets (fun db =>
    head (merge_sort doc_order (List.filter (doc_of_user userId) (userStoryDocuments db)))).

Definition getLatestDocument : st Tables (option UserStoryDocument) :=
  getLatestStoryDocument.

Definition listDiffs (limit : nat) : st Tables (list UserStoryDiff) :=
  st_gets (fun db =>
    take limit (merge_sort diff_order
      (List.filter (fun f => owned_by userId (diff_userId f)) (userStoryDiffs db)))).

(** [listDiffs()] with the default [limit = 50]. *)
Definition listDiffs_default : st Tables (list UserStoryDiff) := listDiffs 50.

(** [appendDiff({ ...params, storyId })]: [userId] is the model's. *)
Definition appendDiff (storyId : Id) (params : NewUserStoryDiff) : st Tables UserStoryDiff :=
  transaction (insert_diff
    (mkNewDiff (Some userId) (Some storyId) (nf_diff params) (nf_snapshot params)
       (nf_summary params) (nf_reasoning params) (nf_memoryIds params)
       (nf_sourceIds params) (nf_metadata params) (nf_previousVersion params)
       (nf_nextVersion params) (nf_capturedAt params))).

(** [tx.query.userStoryDocuments.findFirst({ where: userId })]. *)
Definition upsert_read : st Tables (option UserStoryDocument) :=
  st_gets (fun db => List.find (doc_of_user userId) (userStoryDocuments db)).

(** The values of the diff insert (lines 111-124). *)
Definition newDiffValues (p : UpsertUserStoryParams)
    (existing : option UserStoryDocument) (document : UserStoryDocument) : NewUserStoryDiff :=
  {|
    nf_capturedAt := up_capturedAt p;
    nf_diff := up_diff p;
    nf_memoryIds := up_memoryIds p;
    nf_metadata := up_metadata p;
    nf_nextVersion := Some (doc_version document);
    nf_previousVersion := doc_version <$> existing;
    nf_reasoning := up_reasoning p;
    nf_snapshot := up_snapshot p ?? Some (up_story p);
    nf_sourceIds := up_sourceIds p;
    nf_storyId := Some (doc_id document);
    nf_summary := up_summary p;
    nf_userId := Some userId;
  |}.

(** The body of the transaction after the read (lines 71-128).  The
    destructuring [[document] = rows] leaves [document] undefined on an
    empty [RETURNING]; reading [document.version] then throws. *)
Definition upsert_write (p : UpsertUserStoryParams) (existing : option UserStoryDocument)
  : st Tables (option UserStoryDiff * option UserStoryDocument) :=
  let nextVersion := (default 0 (doc_version <$> existing) + 1)%Z in
  let base := baseDocument p nextVersion in
  document <- match existing with
              | Some e =>
                  t <- now ;;
                  rows <- update_document (doc_id e) userId (nd_with_updatedAt base t) ;;
                  st_ret (head rows)
              | None =>
                  d <- insert_document (nd_with_userId base userId) ;;
                  st_ret (Some d)
              end ;;
  diff <- (if hasDiff p then
             match document with
             | Some d => f <- insert_diff (newDiffValues p existing d) ;; st_ret (Some f)
             | None => st_throw (TypeError "Cannot read properties of undefined (reading 'version')")
             end
           else st_ret None) ;;
  st_ret (diff, document).

Definition upsertStory (p : UpsertUserStoryParams)
  : st Tables (option UserStoryDiff * option UserStoryDocument) :=
  transaction (existing <- upsert_read ;; upsert_write p existing).

End UserStoryModel.

(** The version the user's document has now, 0 when there is none:
    [existing?.version ?? 0]. *)
Definition current_version (u : string) (db : Tables) : Z :=
  default 0%Z (doc_version <$> List.find (doc_of_user u) (userStoryDocuments db)).

(** The rows a successful [upsertStory] writes, by branch. *)
Definition inserted_doc (u : string) (p : UpsertUserStoryParams) (db : Tables) : UserStoryDocument :=
  new_doc_row db (nd_with_userId (baseDocument p 1) u).

Definition updated_doc (p : UpsertUserStoryParams) (e : UserStoryDocument) (db : Tables)
  : UserStoryDocument :=
  apply_set (nd_with_updatedAt (baseDocument p (doc_version e + 1)) (clock db)) e.

(** [n] runs of the story job for one user: [upsertStory] called in
    sequence, each on the state the previous one left. *)
Definition upsert_runs (u : string) (ps : list UpsertUserStoryParams)
  : st Tables (list (option UserStoryDiff * option UserStoryDocument)) :=
  st_for (upsertStory u) ps.

#[export] Instance diff_order_total : Total diff_order.
Proof. intros a b. unfold diff_order. lia. Qed.

#[export] Instance diff_order_trans : Transitive diff_order.
Proof. intros a b c. unfold diff_order. lia. Qed.

(** ** Scenarios of packages/database/src/models/userMemory/__tests__/story.test.ts

    Two users and empty story tables, and the parameters the tests pass. *)
Definition test_db : Tables :=
  mkTables {["story-user"; "story-user-2"]} [] [] [] 0%N 0%Z.

(** "creates a new story document with optional diff" *)
Definition params_first : UpsertUserStoryParams :=
  mkUpsertParams None (Some "- added intro") (Some ["mem-1"]) None (Some "First draft")
    (Some "# Story") (Some ["src-1"]) "# Story" (Some "Initial summary") (Some "User Story").

(** "increments version and records diff on update": first call *)
Definition params_v1 : UpsertUserStoryParams :=
  mkUpsertParams None None None None None None None "# v1" (Some "first") (Some "User Story").

(** second call *)
Definition params_v2 : UpsertUserStoryParams :=
  mkUpsertParams None (Some "- updated section") (Some ["mem-2"]) None None (Some "# v2")
    (Some ["src-2"]) "# v2" (Some "second") (Some "User Story").

(** A story with no diff content at all (the third test). *)
Definition params_story_only : UpsertUserStoryParams :=
  mkUpsertParams None None None None None None None "# only story" (Some "summary") (Some "User Story").

(** A story and a title only ("returns latest document for user"). *)
Definition params_latest (story : string) : UpsertUserStoryParams :=
  mkUpsertParams None None None None None None None story None (Some "User Story").

(** The tables after the first call of the second test. *)
Definition test_db_v1 : Tables := snd (upsertStory "story-user" params_v1 test_db).

(** A user whose document has reached the largest int4 version. *)
Definition overflow_doc : UserStoryDocument :=
  mkDocument 0%N (Some "story-user") (Some "User Story") None (Some "# Story") None None None
    None INT4_MAX 0%Z 0%Z 0%Z.

Definition overflow_db : Tables :=
  mkTables {["story-user"]} [overflow_doc] [] [] 1%N 0%Z.



(** ** Lemmas on the reads *)

Lemma filter_andb {A} (f g : A -> bool) l :
  List.filter (fun x => f x && g x) l = List.filter f (List.filter g l).
Proof.
  induction l as [|x l IH]; [done|]. simpl. rewrite IH.
  destruct (g x); simpl; destruct (f x); reflexivity.
Qed.

Lemma singleton_of_le1 {A} (l : list A) x : In x l -> length l <= 1 -> l = [x].
Proof.
  destruct l as [|y [|z l]]; simpl; intros Hin Hl.
  - destruct Hin.
  - by destruct Hin as [->|[]].
  - lia.
Qed.

Lemma find_filter_single db u e :
  db_wf db ->
  List.find (doc_of_user u) (userStoryDocuments db) = Some e ->
  List.filter (doc_of_user u) (userStoryDocuments db) = [e].
Proof.
  intros Hwf Hf. apply find_some in Hf as [Hin Hu].
  apply singleton_of_le1; [by apply filter_In|apply (wf_one_doc _ Hwf)].
Qed.

Lemma find_filter_none db u :
  List.find (doc_of_user u) (userStoryDocuments db) = None ->
  List.filter (doc_of_user u) (userStoryDocuments db) = [].
Proof.
  intros Hf. pose proof (find_none _ _ Hf) as Hn.
  induction (userStoryDocuments db) as [|x l IH]; simpl; [done|].
  rewrite (Hn x (or_introl eq_refl)). apply IH; [|intros; apply Hn; by right].
  simpl in Hf. by destruct (doc_of_user u x).
Qed.

Lemma find_existsb_none u ds :
  List.find (doc_of_user u) ds = None -> existsb (doc_of_user u) ds = false.
Proof.
  intros Hf. apply not_true_iff_false. intros (x & Hx & Hu)%existsb_exists.
  by rewrite (find_none _ _ Hf x Hx) in Hu.
Qed.

Lemma find_hit_single db u e :
  db_wf db ->
  List.find (doc_of_user u) (userStoryDocuments db) = Some e ->
  List.filter (hit (doc_id e) u) (userStoryDocuments db) = [e].
Proof.
  intros Hwf Hf. unfold hit. rewrite filter_andb, (find_filter_single _ _ _ Hwf Hf).
  simpl. by rewrite bool_decide_eq_true_2.
Qed.

Lemma find_in_users db u e :
  db_wf db -> List.find (doc_of_user u) (userStoryDocuments db) = Some e -> u ∈ users db.
Proof.
  intros Hwf Hf. apply find_some in Hf as [Hin Hu].
  pose proof (proj1 (Forall_forall _ _) (wf_doc_fk _ Hwf) e Hin) as Hfk.
  unfold doc_of_user, owned_by in Hu. cbv beta in Hfk.
  destruct (doc_userId e) as [u'|]; [|discriminate].
  apply String.eqb_eq in Hu. subst. exact Hfk.
Qed.

Lemma find_version_range db u e :
  db_wf db -> List.find (doc_of_user u) (userStoryDocuments db) = Some e ->
  (1 <= doc_version e <= INT4_MAX)%Z.
Proof.
  intros Hwf Hf. apply find_some in Hf as [Hin _].
  exact (proj1 (Forall_forall _ _) (wf_versions _ Hwf) e Hin).
Qed.

Lemma int4_ok_iff z : int4_ok z = true <-> (INT4_MIN <= z <= INT4_MAX)%Z.
Proof. unfold int4_ok. by rewrite bool_decide_eq_true. Qed.

(** ** [upsertStory], branch by branch *)

Lemma upsertStory_insert_eq u p db :
  db_wf db ->
  List.find (doc_of_user u) (userStoryDocuments db) = None ->
  varchar255_ok (up_title p) = true ->
  u ∈ users db ->
  let d := inserted_doc u p db in
  let db1 := bump_id (set_documents db (userStoryDocuments db ++ [d])) in
  upsertStory u p db =
    if hasDiff p then
      let f := new_diff_row db1 (newDiffValues u p None d) in
      (Ok (Some f, Some d), tick (bump_id (set_diffs db1 (userStoryDiffs db1 ++ [f]))))
    else (Ok (None, Some d), tick db1).
Proof.
  intros Hwf Hf Ht Hu d db1.
  unfold upsertStory, transaction, upsert_read, upsert_write. st_unfold. rewrite Hf.
  simpl. rewrite (insert_document_ok _ _ u); try done; [|by apply find_existsb_none].
  simpl. fold d db1. destruct (hasDiff p); simpl; [|done].
  rewrite insert_diff_ok; try done. simpl. rewrite map_app, elem_of_app. right.
  by apply list_elem_of_singleton.
Qed.

(** [upsertStory] is its read followed by the write of what it read. *)
Lemma upsertStory_as_write u p db :
  upsertStory u p db
  = transaction (upsert_write u p (List.find (doc_of_user u) (userStoryDocuments db))) db.
Proof. reflexivity. Qed.

(** The write of the update branch, for a row [e0] read at any earlier
    time: the update finds the user's row by the id read and writes the
    version read plus one, whatever the row's version is now. *)
Lemma upsert_write_update_eq u p db e e0 :
  db_wf db ->
  List.find (doc_of_user u) (userStoryDocuments db) = Some e ->
  doc_id e0 = doc_id e ->
  (0 <= doc_version e0 < INT4_MAX)%Z ->
  varchar255_ok (up_title p) = true ->
  let v := nd_with_updatedAt (baseDocument p (doc_version e0 + 1)) (clock db) in
  let d := apply_set v e in
  let db1 := set_documents db
               (map (fun x => if hit (doc_id e) u x then apply_set v x else x)
                  (userStoryDocuments db)) in
  transaction (upsert_write u p (Some e0)) db =
    if hasDiff p then
      let f := new_diff_row db1 (newDiffValues u p (Some e0) d) in
      (Ok (Some f, Some d), tick (bump_id (set_diffs db1 (userStoryDiffs db1 ++ [f]))))
    else (Ok (None, Some d), tick db1).
Proof.
  intros Hwf Hf Hid Hr Ht v d db1.
  unfold transaction, upsert_write, now. st_unfold. rewrite Hid.
  rewrite update_document_ok; [|simpl; apply int4_ok_iff; unfold INT4_MIN in *; lia|exact Ht].
  rewrite (find_hit_single _ _ _ Hwf Hf). simpl. fold v d db1.
  destruct (hasDiff p); simpl; [|done].
  rewrite insert_diff_ok; try done; simpl.
  - apply int4_ok_iff. unfold INT4_MIN in *. lia.
  - apply int4_ok_iff. unfold INT4_MIN in *. lia.
  - exact (find_in_users _ _ _ Hwf Hf).
  - rewrite keeps_keys_ids by auto with story. apply list_elem_of_In, in_map.
    by apply find_some in Hf as [? _].
Qed.

Lemma upsertStory_update_eq u p db e :
  db_wf db ->
  List.find (doc_of_user u) (userStoryDocuments db) = Some e ->
  (doc_version e < INT4_MAX)%Z ->
  varchar255_ok (up_title p) = true ->
  let d := updated_doc p e db in
  let db1 := set_documents db
               (map (fun x => if hit (doc_id e) u x
                              then apply_set (nd_with_updatedAt (baseDocument p (doc_version e + 1))
                                                (clock db)) x
                              else x) (userStoryDocuments db)) in
  upsertStory u p db =
    if hasDiff p then
      let f := new_diff_row db1 (newDiffValues u p (Some e) d) in
      (Ok (Some f, Some d), tick (bump_id (set_diffs db1 (userStoryDiffs db1 ++ [f]))))
    else (Ok (None, Some d), tick db1).
Proof.
  intros Hwf Hf Hlt Ht d db1. pose proof (find_version_range _ _ _ Hwf Hf) as Hr.
  rewrite upsertStory_as_write, Hf. apply upsert_write_update_eq; [done|done|done|lia|done].
Qed.

Lemma upsertStory_overflow_eq u p db e :
  List.find (doc_of_user u) (userStoryDocuments db) = Some e ->
  doc_version e = INT4_MAX ->
  upsertStory u p db = (Err (DbError IntegerOutOfRange "version"), tick db).
Proof.
  intros Hf Hv. unfold upsertStory, transaction, upsert_read, upsert_write, now. st_unfold.
  rewrite Hf. simpl. rewrite update_document_range; [done|].
  simpl. rewrite Hv. done.
Qed.

Lemma hit_found u e ds :
  List.find (doc_of_user u) ds = Some e -> hit (doc_id e) u e = true.
Proof.
  intros Hf. unfold hit. rewrite bool_decide_eq_true_2 by done.
  exact (proj2 (find_some _ _ Hf)).
Qed.

(** A title of more than 255 characters: the update (the user's row
    matches its [WHERE]) or the insert throws, and the transaction rolls
    back. *)
Lemma upsert_write_update_long u p db e e0 :
  List.find (doc_of_user u) (userStoryDocuments db) = Some e ->
  doc_id e0 = doc_id e -> (0 <= doc_version e0 < INT4_MAX)%Z ->
  varchar255_ok (up_title p) = false ->
  transaction (upsert_write u p (Some e0)) db = (Err (DbError StringTooLong "title"), tick db).
Proof.
  intros Hf Hid Hr Ht. unfold transaction, upsert_write, now. st_unfold. rewrite Hid.
  rewrite update_document_long; [done| |done|].
  - simpl. apply int4_ok_iff. unfold INT4_MIN. lia.
  - apply existsb_exists. exists e. split; [by apply find_some in Hf as [? _]|].
    exact (hit_found u e _ Hf).
Qed.

Lemma upsertStory_update_long u p db e :
  List.find (doc_of_user u) (userStoryDocuments db) = Some e ->
  (doc_version e < INT4_MAX)%Z -> (1 <= doc_version e)%Z ->
  varchar255_ok (up_title p) = false ->
  upsertStory u p db = (Err (DbError StringTooLong "title"), tick db).
Proof.
  intros Hf Hlt Hge Ht. rewrite upsertStory_as_write, Hf.
  apply (upsert_write_update_long u p db e e); [done|done|lia|done].
Qed.

Lemma upsertStory_insert_long u p db :
  List.find (doc_of_user u) (userStoryDocuments db) = None ->
  varchar255_ok (up_title p) = false ->
  upsertStory u p db = (Err (DbError StringTooLong "title"), tick db).
Proof.
  intros Hf Ht. unfold upsertStory, transaction, upsert_read, upsert_write. st_unfold.
  rewrite Hf. simpl. by rewrite insert_document_long.
Qed.

Lemma upsertStory_no_user_eq u p db :
  List.find (doc_of_user u) (userStoryDocuments db) = None ->
  varchar255_ok (up_title p) = true ->
  u ∉ users db ->
  upsertStory u p db
  = (Err (DbError ForeignKeyViolation "user_memory_story_documents_user_id_users_id_fk"), tick db).
Proof.
  intros Hf Ht Hu. unfold upsertStory, transaction, upsert_read, upsert_write. st_unfold.
  rewrite Hf. simpl. rewrite (insert_document_fk _ _ u); try done. by apply find_existsb_none.
Qed.

(** Split [upsertStory u p db] in the goal into its six outcomes, in this
    order: version overflow, update, update with a title too long, insert,
    no such user, insert with a title too long. *)
Ltac upsert_cases Hwf :=
  match goal with
  | |- context [upsertStory ?u ?p ?db] =>
    let Hf := fresh "Hf" in let e := fresh "e" in let Ht := fresh "Ht" in
    destruct (List.find (doc_of_user u) (userStoryDocuments db)) as [e|] eqn:Hf;
    [ let Hr := fresh "Hr" in
      pose proof (find_version_range _ _ _ Hwf Hf) as Hr;
      destruct (Z.eq_dec (doc_version e) INT4_MAX) as [Hmax|Hmax];
      [ rewrite (upsertStory_overflow_eq u p db e Hf Hmax)
      | destruct (varchar255_ok (up_title p)) eqn:Ht;
        [ rewrite (upsertStory_update_eq u p db e Hwf Hf ltac:(lia) Ht); cbv zeta
        | rewrite (upsertStory_update_long u p db e Hf ltac:(lia) ltac:(lia) Ht) ] ]
    | destruct (varchar255_ok (up_title p)) eqn:Ht;
      [ let Hu := fresh "Hu" in
        destruct (decide (u ∈ users db)) as [Hu|Hu];
        [ rewrite (upsertStory_insert_eq u p db Hwf Hf Ht Hu); cbv zeta
        | rewrite (upsertStory_no_user_eq u p db Hf Ht Hu) ]
      | rewrite (upsertStory_insert_long u p db Hf Ht) ] ]
  end.

Lemma inserted_wf u p db :
  db_wf db ->
  List.find (doc_of_user u) (userStoryDocuments db) = None ->
  u ∈ users db ->
  db_wf (bump_id (set_documents db (userStoryDocuments db ++ [inserted_doc u p db]))).
Proof.
  intros Hwf Hf Hu. apply wf_snoc_doc; try done.
  intros u' Hu'. unfold doc_of_user, owned_by in Hu'. simpl in Hu'.
  apply String.eqb_eq in Hu' as <-. by apply find_existsb_none.
Qed.

Lemma updated_wf u p db e n :
  db_wf db ->
  List.find (doc_of_user u) (userStoryDocuments db) = Some e ->
  (1 <= n <= INT4_MAX)%Z ->
  db_wf (set_documents db
           (map (fun x => if hit (doc_id e) u x
                          then apply_set (nd_with_updatedAt (baseDocument p n) (clock db)) x
                          else x) (userStoryDocuments db))).
Proof.
  intros Hwf Hf Hlt.
  apply wf_map_docs; [done|auto with story|].
  pose proof (wf_versions _ Hwf) as Hv. rewrite Forall_forall in *.
  intros x Hx. specialize (Hv x Hx). destruct (hit (doc_id e) u x) eqn:Hh; [|done].
  simpl. apply andb_prop in Hh as [_ Hown].
  assert (x = e) as ->; [|lia].
  assert (Hin : In x (List.filter (doc_of_user u) (userStoryDocuments db)))
    by (apply filter_In; auto).
  rewrite (find_filter_single _ _ _ Hwf Hf) in Hin. by destruct Hin as [->|[]].
Qed.

Lemma diff_added_wf db1 u d f :
  db_wf db1 ->
  d ∈ userStoryDocuments db1 ->
  u ∈ users db1 ->
  diff_id f = next_id db1 ->
  diff_userId f = Some u ->
  diff_storyId f = Some (doc_id d) ->
  db_wf (bump_id (set_diffs db1 (userStoryDiffs db1 ++ [f]))).
Proof.
  intros Hwf Hd Hu Hid Hfu Hfs. apply wf_snoc_diff; rewrite ?Hfu, ?Hfs; try done.
  simpl. apply list_elem_of_In, in_map, list_elem_of_In, Hd.
Qed.

(** ** Properties of [upsertStory] *)

Lemma upsert_wf u p db :
  db_wf db -> db_wf (snd (upsertStory u p db)).
Proof.
  intros Hwf. upsert_cases Hwf; [by apply tick_wf| |by apply tick_wf| |by apply tick_wf..].
  - pose proof (updated_wf u p db e (doc_version e + 1) Hwf Hf ltac:(lia)) as Hw1.
    destruct (hasDiff p); cbn [snd]; apply tick_wf; [|done].
    eapply diff_added_wf; [exact Hw1| | |done|done|done].
    + apply list_elem_of_In, in_map_iff. exists e.
      rewrite (hit_found _ _ _ Hf). split; [done|exact (proj1 (find_some _ _ Hf))].
    + exact (find_in_users _ _ _ Hwf Hf).
  - pose proof (inserted_wf u p db Hwf Hf Hu) as Hw1.
    destruct (hasDiff p); cbn [snd]; apply tick_wf; [|done].
    eapply diff_added_wf; [exact Hw1| |done|done|done|done].
    apply list_elem_of_In, in_or_app. right. by left.
Qed.

(** C2. [upsertStory] keeps the invariant of the tables: whatever it
    returns, the state it leaves has fresh ids, at most one document per
    user, intact foreign keys and versions in [1, INT4_MAX]. *)
Theorem upsertStory_preserves_wf u p db :
  db_wf db -> db_wf (snd (upsertStory u p db)).
Proof. apply upsert_wf. Qed.


Lemma owned_by_same u u' o : owned_by u o = true -> owned_by u' o = true -> u = u'.
Proof.
  destruct o as [x|]; simpl; [|discriminate].
  intros ->%String.eqb_eq ->%String.eqb_eq. done.
Qed.

(** The update of the user's row leaves every other user's rows alone. *)
Lemma filter_other_update u u' i v ds :
  u' <> u ->
  List.filter (doc_of_user u') (map (fun x => if hit i u x then apply_set v x else x) ds)
  = List.filter (doc_of_user u') ds.
Proof.
  intros Hne. rewrite keeps_keys_filter by auto with story.
  rewrite <- (map_id (List.filter _ ds)) at 2. apply map_ext_in.
  intros x Hx%filter_In. destruct (hit i u x) eqn:Hh; [|done].
  apply andb_prop in Hh as [_ Hu]. destruct Hx as [_ Hu'].
  destruct Hne. exact (owned_by_same _ _ _ Hu' Hu).
Qed.

Lemma filter_own_update db u e v :
  db_wf db ->
  List.find (doc_of_user u) (userStoryDocuments db) = Some e ->
  List.filter (doc_of_user u)
    (map (fun x => if hit (doc_id e) u x then apply_set v x else x) (userStoryDocuments db))
  = [apply_set v e].
Proof.
  intros Hwf Hf. rewrite keeps_keys_filter by auto with story.
  rewrite (find_filter_single _ _ _ Hwf Hf). simpl. by rewrite (hit_found _ _ _ Hf).
Qed.

Lemma filter_snoc_own db u d :
  List.find (doc_of_user u) (userStoryDocuments db) = None ->
  doc_of_user u d = true ->
  List.filter (doc_of_user u) (userStoryDocuments db ++ [d]) = [d].
Proof.
  intros Hf Hd. rewrite filter_app, (find_filter_none _ _ Hf). simpl. by rewrite Hd.
Qed.

Lemma filter_snoc_other u u' ds d :
  u' <> u -> doc_of_user u d = true ->
  List.filter (doc_of_user u') (ds ++ [d]) = List.filter (doc_of_user u') ds.
Proof.
  intros Hne Hd. rewrite filter_app. simpl.
  destruct (doc_of_user u' d) eqn:Hd'; [|by rewrite app_nil_r].
  destruct Hne. exact (owned_by_same _ _ _ Hd' Hd).
Qed.

(** Everything a successful [upsertStory] does, in one statement: the
    document it returns, the user's rows, the other users' rows, and the
    diff row it appends. *)
Lemma upsertStory_ok_inv u p db diff doc db' :
  db_wf db ->
  upsertStory u p db = (Ok (diff, doc), db') ->
  exists d, doc = Some d /\
    d = match List.find (doc_of_user u) (userStoryDocuments db) with
        | Some e => updated_doc p e db
        | None => inserted_doc u p db
        end /\
    List.filter (doc_of_user u) (userStoryDocuments db') = [d] /\
    (forall u', u' <> u ->
       List.filter (doc_of_user u') (userStoryDocuments db')
       = List.filter (doc_of_user u') (userStoryDocuments db)) /\
    userStoryDiffs db' = userStoryDiffs db ++ option_list diff /\
    (diff = None <-> hasDiff p = false) /\
    (forall f, diff = Some f ->
       diff_userId f = Some u /\
       diff_previousVersion f = doc_version <$> List.find (doc_of_user u) (userStoryDocuments db) /\
       diff_nextVersion f = Some (doc_version d) /\
       diff_storyId f = Some (doc_id d) /\
       diff_snapshot f = up_snapshot p ?? Some (up_story p) /\
       diff_diff f = up_diff p /\ diff_reasoning f = up_reasoning p /\
       diff_summary f = up_summary p /\ diff_memoryIds f = up_memoryIds p /\
       diff_sourceIds f = up_sourceIds p).
Proof.
  intros Hwf. upsert_cases Hwf; [discriminate| |discriminate| |discriminate..].
  - destruct (hasDiff p) eqn:Hd; intros H; invc H; eexists;
      (split; [done|]); (split; [done|]); simpl;
      (split; [by apply filter_own_update|]);
      (split; [intros; by apply filter_other_update|]);
      (split; [by rewrite ?app_nil_r|]); (split; [split; congruence|]);
      intros f' Hf'; invc Hf'; done.
  - assert (Hown : doc_of_user u (inserted_doc u p db) = true)
      by (unfold doc_of_user, owned_by; simpl; apply String.eqb_refl).
    destruct (hasDiff p) eqn:Hd; intros H; invc H; eexists;
      (split; [done|]); (split; [done|]); simpl;
      (split; [by apply (filter_snoc_own db u)|]);
      (split; [intros; by apply (filter_snoc_other u)|]);
      (split; [by rewrite ?app_nil_r|]); (split; [split; congruence|]);
      intros f' Hf'; invc Hf'; done.
Qed.

Lemma merge_sort_singleton {A} (R : relation A) `{!RelDecision R} (x : A) :
  merge_sort R [x] = [x].
Proof. reflexivity. Qed.

Lemma upsertStory_ok_doc u p db diff doc db' :
  db_wf db ->
  upsertStory u p db = (Ok (diff, doc), db') ->
  exists d, doc = Some d /\ doc_version d = (current_version u db + 1)%Z /\
            doc_story d = Some (up_story p) /\ doc_userId d = Some u.
Proof.
  intros Hwf H. destruct (upsertStory_ok_inv _ _ _ _ _ _ Hwf H) as (d & -> & Hd & _).
  exists d. split; [done|]. unfold current_version.
  destruct (List.find _ _) as [e|] eqn:Hf; subst d; [|done].
  unfold updated_doc. simpl. split; [done|]. split; [done|].
  apply find_some in Hf as [_ Hu]. unfold doc_of_user, owned_by in Hu.
  destruct (doc_userId e) as [x|]; [|discriminate]. by apply String.eqb_eq in Hu as ->.
Qed.

(** C1. A successful [upsertStory] returns the user's document, holding the
    new story, at the version after the one read: 1 for a new document,
    [existing.version + 1] for an update. *)
Theorem upsertStory_version u p db diff doc db' :
  db_wf db ->
  upsertStory u p db = (Ok (diff, doc), db') ->
  exists d, doc = Some d /\ doc_version d = (current_version u db + 1)%Z /\
            doc_story d = Some (up_story p) /\ doc_userId d = Some u.
Proof. apply upsertStory_ok_doc. Qed.

Lemma upsert_progress u p db :
  db_wf db ->
  u ∈ users db ->
  (current_version u db < INT4_MAX)%Z ->
  varchar255_ok (up_title p) = true ->
  exists diff d db', upsertStory u p db = (Ok (diff, Some d), db').
Proof.
  intros Hwf Hu Hlt Htitle. unfold current_version in Hlt.
  upsert_cases Hwf; simpl in Hlt; [lia| |congruence| |done|congruence];
    destruct (hasDiff p); eauto.
Qed.

(** [upsertStory] succeeds for every existing user whose document is
    below the largest int4 version, when the title fits its column: it
    then returns a document. *)
Theorem upsertStory_succeeds u p db :
  db_wf db ->
  u ∈ users db ->
  (current_version u db < INT4_MAX)%Z ->
  varchar255_ok (up_title p) = true ->
  exists diff d db', upsertStory u p db = (Ok (diff, Some d), db').
Proof. apply upsert_progress. Qed.

(** C14. At version [2^31 - 1] the increment does not fit the int4 column:
    [upsertStory] throws "integer out of range" and writes nothing. *)
Theorem upsertStory_version_overflow u p db :
  db_wf db ->
  current_version u db = INT4_MAX ->
  upsertStory u p db = (Err (DbError IntegerOutOfRange "version"), tick db).
Proof.
  intros Hwf Hv. unfold current_version in Hv.
  destruct (List.find _ _) as [e|] eqn:Hf; simpl in Hv; [|discriminate].
  by apply (upsertStory_overflow_eq _ _ _ e).
Qed.

(** For an id that is not a user, the document insert violates the
    foreign key: [upsertStory] throws and writes nothing. *)
Theorem upsertStory_unknown_user u p db :
  db_wf db ->
  u ∉ users db ->
  varchar255_ok (up_title p) = true ->
  upsertStory u p db
  = (Err (DbError ForeignKeyViolation "user_memory_story_documents_user_id_users_id_fk"), tick db).
Proof.
  intros Hwf Hu Ht. apply upsertStory_no_user_eq; [|done|done].
  destruct (List.find _ _) as [e|] eqn:Hf; [|done].
  destruct Hu. exact (find_in_users _ _ _ Hwf Hf).
Qed.


(** C12. After a successful [upsertStory], [getLatestStoryDocument] returns
    the document the upsert returned. *)
Theorem upsertStory_then_latest u p db diff d db' :
  db_wf db ->
  upsertStory u p db = (Ok (diff, Some d), db') ->
  getLatestStoryDocument u db' = (Ok (Some d), db').
Proof.
  intros Hwf H. destruct (upsertStory_ok_inv _ _ _ _ _ _ Hwf H) as (d' & Hd' & _ & Hown & _).
  invc Hd'. unfold getLatestStoryDocument, st_gets. by rewrite Hown.
Qed.

(** C36. A successful [upsertStory] for one user leaves the documents of every other
    user, and what [getLatestStoryDocument] returns for them, unchanged. *)
Theorem upsertStory_other_users u u' p db r db' :
  db_wf db ->
  u' <> u ->
  upsertStory u p db = (Ok r, db') ->
  List.filter (doc_of_user u') (userStoryDocuments db')
  = List.filter (doc_of_user u') (userStoryDocuments db) /\
  fst (getLatestStoryDocument u' db') = fst (getLatestStoryDocument u' db).
Proof.
  intros Hwf Hne H. destruct r as [diff doc].
  destruct (upsertStory_ok_inv _ _ _ _ _ _ Hwf H) as (d & _ & _ & _ & Hoth & _).
  rewrite (Hoth u' Hne). split; [done|]. unfold getLatestStoryDocument, st_gets. simpl.
  by rewrite (Hoth u' Hne).
Qed.

(** C11. [upsertStory] appends a diff row exactly when the parameters carry
    diff content ([hasDiff]: a non-empty diff, snapshot or reasoning, or a
    non-empty list of memory or source ids), and appends nothing else. *)
Theorem upsertStory_diff_iff u p db diff doc db' :
  db_wf db ->
  upsertStory u p db = (Ok (diff, doc), db') ->
  (diff = None <-> hasDiff p = false) /\
  userStoryDiffs db' = userStoryDiffs db ++ option_list diff.
Proof.
  intros Hwf H. destruct (upsertStory_ok_inv _ _ _ _ _ _ Hwf H) as (d & _ & _ & _ & _ & Hl & Hn & _).
  done.
Qed.

(** C33. The diff row links the version read to the version written, points
    at the document, and stores the snapshot, or the story when no snapshot
    is given. *)
Theorem upsertStory_diff_row u p db f d db' :
  db_wf db ->
  upsertStory u p db = (Ok (Some f, Some d), db') ->
  diff_userId f = Some u /\
  diff_previousVersion f = doc_version <$> List.find (doc_of_user u) (userStoryDocuments db) /\
  diff_nextVersion f = Some (doc_version d) /\
  diff_storyId f = Some (doc_id d) /\
  diff_snapshot f = up_snapshot p ?? Some (up_story p).
Proof.
  intros Hwf H.
  destruct (upsertStory_ok_inv _ _ _ _ _ _ Hwf H) as (d' & Hd & _ & _ & _ & _ & _ & Hf).
  invc Hd. destruct (Hf f eq_refl) as (? & ? & ? & ? & ? & _). done.
Qed.

(** C13. An update writes only the columns the parameters supply: a title,
    summary, reasoning, memory ids, source ids, metadata or capture time
    that is [null] or [undefined] keeps the value of the previous version,
    and the id and creation time stay those of the row. *)
Theorem upsertStory_keeps_omitted u p db e diff d db' :
  db_wf db ->
  List.find (doc_of_user u) (userStoryDocuments db) = Some e ->
  upsertStory u p db = (Ok (diff, Some d), db') ->
  doc_id d = doc_id e /\ doc_createdAt d = doc_createdAt e /\
  doc_title d = up_title p ?? doc_title e /\
  doc_summary d = up_summary p ?? doc_summary e /\
  doc_reasoning d = up_reasoning p ?? doc_reasoning e /\
  doc_memoryIds d = up_memoryIds p ?? doc_memoryIds e /\
  doc_sourceIds d = up_sourceIds p ?? doc_sourceIds e /\
  doc_metadata d = up_metadata p ?? doc_metadata e /\
  doc_capturedAt d = default (doc_capturedAt e) (up_capturedAt p).
Proof.
  intros Hwf Hf H. destruct (upsertStory_ok_inv _ _ _ _ _ _ Hwf H) as (d' & Hd & Heq & _).
  invc Hd. rewrite Hf. done.
Qed.

Lemma find_of_filter_single {A} (f : A -> bool) l x :
  List.filter f l = [x] -> List.find f l = Some x.
Proof.
  induction l as [|y l IH]; simpl; [discriminate|].
  destruct (f y) eqn:Hy; [intros H; by invc H|]. exact IH.
Qed.

Lemma latest_find u db :
  db_wf db ->
  getLatestStoryDocument u db = (Ok (List.find (doc_of_user u) (userStoryDocuments db)), db).
Proof.
  intros Hwf. unfold getLatestStoryDocument, st_gets.
  destruct (List.find _ _) as [e|] eqn:Hf.
  - by rewrite (find_filter_single _ _ _ Hwf Hf).
  - by rewrite (find_filter_none _ _ Hf).
Qed.

(** [getLatestStoryDocument], which orders the user's rows by version
    and update time, returns the same row as the unordered read inside
    [upsertStory]: the unique index leaves at most one row to order. *)
Theorem getLatest_is_find u db :
  db_wf db ->
  getLatestStoryDocument u db = (Ok (List.find (doc_of_user u) (userStoryDocuments db)), db).
Proof. apply latest_find. Qed.


Lemma upsertStory_ok_step u p db r db' :
  db_wf db -> upsertStory u p db = (Ok r, db') ->
  db_wf db' /\ u ∈ users db' /\ current_version u db' = (current_version u db + 1)%Z.
Proof.
  intros Hwf H. destruct r as [diff doc].
  assert (Hwf' : db_wf db') by (pose proof (upsert_wf u p db Hwf) as W;
                                 rewrite H in W; exact W).
  destruct (upsertStory_ok_inv _ _ _ _ _ _ Hwf H) as (d & -> & _ & Hown & _).
  destruct (upsertStory_ok_doc _ _ _ _ _ _ Hwf H) as (d' & Hd' & Hv & _). invc Hd'.
  apply find_of_filter_single in Hown.
  split; [done|]. split; [exact (find_in_users _ _ _ Hwf' Hown)|].
  unfold current_version at 1. by rewrite Hown.
Qed.

(** C17. Run after run, the story job raises the user's version by one per
    run: [n] consecutive upserts of an existing user, with titles that fit
    [varchar(255)], all succeed while the versions stay within int4, return
    [n] results, and leave the document at the starting version plus [n]. *)
Theorem upsert_runs_versions u ps db :
  db_wf db ->
  u ∈ users db ->
  (current_version u db + Z.of_nat (length ps) <= INT4_MAX)%Z ->
  Forall (fun p => varchar255_ok (up_title p) = true) ps ->
  exists rs db', upsert_runs u ps db = (Ok rs, db') /\ length rs = length ps /\
    current_version u db' = (current_version u db + Z.of_nat (length ps))%Z.
Proof.
  revert db. induction ps as [|p ps IH]; intros db Hwf Hu Hlen Ht.
  - exists [], db. simpl. split; [done|]. split; [done|]. lia.
  - simpl length in Hlen. inversion Ht as [|? ? Ht1 Hts]; subst.
    destruct (upsert_progress u p db Hwf Hu ltac:(lia) Ht1) as (diff & d & db1 & H1).
    destruct (upsertStory_ok_step _ _ _ _ _ Hwf H1) as (Hwf1 & Hu1 & Hv1).
    destruct (IH db1 Hwf1 Hu1 ltac:(lia) Hts) as (rs & db' & Hrun & Hl & Hv).
    exists ((diff, Some d) :: rs), db'. unfold upsert_runs in *. simpl.
    unfold st_bind at 1. rewrite H1. unfold st_bind, st_ret. rewrite Hrun.
    split; [done|]. simpl. split; [lia|]. lia.
Qed.


Lemma Sorted_take {A} (R : relation A) n l : Sorted R l -> Sorted R (take n l).
Proof.
  revert n. induction l as [|x l IH]; intros n Hs; [by rewrite take_nil|].
  destruct n as [|n]; [constructor|]. simpl. apply Sorted_inv in Hs as [Hs Hhd].
  constructor; [by apply IH|]. destruct l as [|y l]; destruct n; simpl; try constructor.
  by invc Hhd.
Qed.

Lemma In_take {A} n (l : list A) x : In x (take n l) -> In x l.
Proof. intros H. rewrite <- (firstn_skipn n l). apply in_or_app. by left. Qed.

(** C40. [listDiffs(limit)] reads without writing the user's diffs,
    newest [created_at] first: as many as the user has up to [limit], all
    rows of the table owned by the user, and every diff of the user left out
    is no newer than every diff returned. *)
Theorem listDiffs_spec u n db :
  exists l, listDiffs u n db = (Ok l, db) /\
  length l = Nat.min n (length (List.filter (fun f => owned_by u (diff_userId f)) (userStoryDiffs db))) /\
  Forall (fun f => owned_by u (diff_userId f) = true /\ f ∈ userStoryDiffs db) l /\
  Sorted diff_order l /\
  (forall f g, f ∈ l -> g ∈ userStoryDiffs db -> owned_by u (diff_userId g) = true ->
               g ∉ l -> diff_order f g).
Proof.
  eexists. split; [reflexivity|].
  destruct (take_merge_sort_spec diff_order n
              (List.filter (fun f => owned_by u (diff_userId f)) (userStoryDiffs db)))
    as (Hl & Hin & Hs & Hout).
  split; [done|]. split; [|split; [done|]].
  - apply Forall_forall. intros f Hf. rewrite <- list_elem_of_In in Hf.
    apply Hin in Hf. rewrite list_elem_of_In, filter_In in Hf. rewrite list_elem_of_In; tauto.
  - intros f g Hf Hg Ho Hn. apply (Hout f g Hf); [|done].
    rewrite list_elem_of_In, filter_In. rewrite list_elem_of_In in Hg; tauto.
Qed.

(** ** Witnesses: the properties at the scenarios of the tests *)

Ltac wf_by_check := apply db_wfb_sound; vm_compute; reflexivity.

Lemma upsertStory_preserves_wf_witness :
  db_wf test_db /\ db_wf (snd (upsertStory "story-user" params_first test_db)).
Proof. split; [wf_by_check|]. apply upsertStory_preserves_wf. wf_by_check. Defined.

(** The second upsert of "increments version and records diff on update"
    writes version 2. *)
Lemma upsertStory_version_witness :
  db_wf test_db_v1 /\
  match upsertStory "story-user" params_v2 test_db_v1 with
  | (Ok (_, doc), _) => exists d, doc = Some d /\ doc_version d = 2%Z /\ doc_story d = Some "# v2"
  | (Err _, _) => False
  end.
Proof.
  split; [wf_by_check|].
  destruct (upsertStory "story-user" params_v2 test_db_v1) as [[[diff doc]|e] db'] eqn:E;
    [|vm_compute in E; discriminate].
  destruct (upsertStory_version "story-user" params_v2 test_db_v1 _ _ _ ltac:(wf_by_check) E) as (d & Hd & Hv & Hs & _).
  exists d. split; [done|]. split; [rewrite Hv; vm_compute; reflexivity|exact Hs].
Defined.

Lemma upsertStory_succeeds_witness :
  db_wf test_db /\ "story-user" ∈ users test_db /\
  (current_version "story-user" test_db < INT4_MAX)%Z /\
  varchar255_ok (up_title params_first) = true /\
  exists diff d db', upsertStory "story-user" params_first test_db = (Ok (diff, Some d), db').
Proof.
  split; [wf_by_check|]. split; [vm_compute; set_solver|]. split; [vm_compute; reflexivity|].
  split; [reflexivity|].
  apply upsertStory_succeeds; [wf_by_check|vm_compute; set_solver|vm_compute; reflexivity|reflexivity].
Defined.

Lemma upsertStory_version_overflow_witness :
  db_wf overflow_db /\ current_version "story-user" overflow_db = INT4_MAX /\
  upsertStory "story-user" params_v2 overflow_db
  = (Err (DbError IntegerOutOfRange "version"), tick overflow_db).
Proof.
  split; [wf_by_check|]. split; [reflexivity|].
  apply upsertStory_version_overflow; [wf_by_check|reflexivity].
Defined.

Lemma upsertStory_unknown_user_witness :
  db_wf test_db /\ ("ghost" ∉ users test_db) /\
  upsertStory "ghost" params_first test_db
  = (Err (DbError ForeignKeyViolation "user_memory_story_documents_user_id_users_id_fk"),
     tick test_db).
Proof.
  split; [wf_by_check|]. split; [vm_compute; set_solver|].
  apply upsertStory_unknown_user; [wf_by_check|vm_compute; set_solver|reflexivity].
Defined.


(** "returns latest document for user". *)
Lemma upsertStory_then_latest_witness :
  db_wf test_db_v1 /\
  match upsertStory "story-user" params_v2 test_db_v1 with
  | (Ok (diff, Some d), db') => getLatestStoryDocument "story-user" db' = (Ok (Some d), db')
  | _ => False
  end.
Proof.
  split; [wf_by_check|].
  destruct (upsertStory "story-user" params_v2 test_db_v1) as [[[diff [d|]]|e] db'] eqn:E;
    try (vm_compute in E; discriminate).
  exact (upsertStory_then_latest "story-user" params_v2 test_db_v1 _ _ _ ltac:(wf_by_check) E).
Defined.

Lemma upsertStory_other_users_witness :
  db_wf test_db_v1 /\ "story-user-2" <> "story-user" /\
  match upsertStory "story-user" params_v2 test_db_v1 with
  | (Ok _, db') =>
      fst (getLatestStoryDocument "story-user-2" db')
      = fst (getLatestStoryDocument "story-user-2" test_db_v1)
  | (Err _, _) => False
  end.
Proof.
  split; [wf_by_check|]. split; [done|].
  destruct (upsertStory "story-user" params_v2 test_db_v1) as [[r|e] db'] eqn:E;
    [|vm_compute in E; discriminate].
  exact (proj2 (upsertStory_other_users "story-user" "story-user-2" params_v2 test_db_v1 _ _ ltac:(wf_by_check) ltac:(done) E)).
Defined.

(** "skips diff insert when no diff content supplied". *)
Lemma upsertStory_diff_iff_witness :
  db_wf test_db /\
  match upsertStory "story-user" params_story_only test_db with
  | (Ok (diff, _), db') => diff = None /\ userStoryDiffs db' = []
  | (Err _, _) => False
  end.
Proof.
  split; [wf_by_check|].
  destruct (upsertStory "story-user" params_story_only test_db) as [[[diff doc]|e] db'] eqn:E;
    [|vm_compute in E; discriminate].
  destruct (upsertStory_diff_iff "story-user" params_story_only test_db _ _ _ ltac:(wf_by_check) E) as [Hn Hl].
  assert (diff = None) as -> by (apply Hn; reflexivity). split; [done|]. by rewrite Hl.
Defined.

(** The diff of the second upsert links version 1 to version 2. *)
Lemma upsertStory_diff_row_witness :
  db_wf test_db_v1 /\
  match upsertStory "story-user" params_v2 test_db_v1 with
  | (Ok (Some f, Some d), _) =>
      diff_previousVersion f = Some 1%Z /\ diff_nextVersion f = Some (doc_version d) /\
      diff_storyId f = Some (doc_id d) /\ diff_snapshot f = Some "# v2"
  | _ => False
  end.
Proof.
  split; [wf_by_check|].
  destruct (upsertStory "story-user" params_v2 test_db_v1) as [[[[f|] [d|]]|e] db'] eqn:E;
    try (vm_compute in E; discriminate).
  destruct (upsertStory_diff_row "story-user" params_v2 test_db_v1 _ _ _ ltac:(wf_by_check) E) as (_ & Hp & Hn & Hs & Hsn).
  split; [rewrite Hp; vm_compute; reflexivity|]. split; [done|]. split; [done|].
  rewrite Hsn. reflexivity.
Defined.

(** A second run that passes no summary keeps the summary "first" of the
    first run. *)
Lemma upsertStory_keeps_omitted_witness :
  db_wf test_db_v1 /\
  match List.find (doc_of_user "story-user") (userStoryDocuments test_db_v1) with
  | Some e =>
      match upsertStory "story-user" (params_latest "# v2") test_db_v1 with
      | (Ok (_, Some d), _) => doc_summary d = Some "first" /\ doc_id d = doc_id e
      | _ => False
      end
  | None => False
  end.
Proof.
  split; [wf_by_check|].
  destruct (List.find _ _) as [e|] eqn:Hf; [|vm_compute in Hf; discriminate].
  destruct (upsertStory "story-user" (params_latest "# v2") test_db_v1) as [[[diff [d|]]|x] db'] eqn:E;
    try (vm_compute in E; discriminate).
  destruct (upsertStory_keeps_omitted "story-user" (params_latest "# v2") test_db_v1 _ _ _ _ ltac:(wf_by_check) Hf E)
    as (Hid & _ & _ & Hsum & _).
  split; [|done]. rewrite Hsum. vm_compute in Hf. invc Hf. reflexivity.
Defined.

Lemma getLatest_is_find_witness :
  db_wf test_db_v1 /\
  getLatestStoryDocument "story-user" test_db_v1
  = (Ok (List.find (doc_of_user "story-user") (userStoryDocuments test_db_v1)), test_db_v1).
Proof. split; [wf_by_check|]. apply getLatest_is_find. wf_by_check. Defined.

(** Two runs from no document leave version 2. *)
Lemma upsert_runs_versions_witness :
  db_wf test_db /\ "story-user" ∈ users test_db /\
  exists rs db', upsert_runs "story-user" [params_v1; params_v2] test_db = (Ok rs, db') /\
    current_version "story-user" db' = 2%Z.
Proof.
  split; [wf_by_check|]. split; [vm_compute; set_solver|].
  destruct (upsert_runs_versions "story-user" [params_v1; params_v2] test_db
              ltac:(wf_by_check) ltac:(vm_compute; set_solver) ltac:(vm_compute; discriminate)
              ltac:(repeat constructor))
    as (rs & db' & Hr & _ & Hv).
  exists rs, db'. split; [done|]. rewrite Hv. reflexivity.
Defined.
