(* ===== verification/DiffOwner.v ===== *)
(** * Whose story a diff belongs to

    A row of [user_memory_story_diffs] carries both a [user_id] and a
    [story_id].  The schema (packages/database/src/schemas/userMemories/
    story.ts) makes each one a foreign key on its own, but nothing in the
    schema ties them together: a diff may point at the story of another
    user.  [diff_owner_ok] is that missing constraint: every diff's story
    belongs to the diff's user.

    [UserStoryModel.upsertStory] keeps it: the diff it writes is the user's,
    for the user's own document.  [UserStoryModel.appendDiff]
    (models/userMemory/story.ts, lines 53-62) takes a [storyId] from its
    caller and writes it with the model's [userId] without looking at whose
    story it is: it can break the constraint, and the diff then shows up in
    [listDiffs] of a user whose story it does not describe. *)

From S2P Require Import Prelude Json Schema StoryModel.

(** Every diff that names a story names one of its user's. *)
Definition diff_owner_ok (db : Tables) : Prop :=
  Forall (fun f =>
            match diff_storyId f with
            | Some i => forall d, d ∈ userStoryDocuments db -> doc_id d = i ->
                                  doc_userId d = diff_userId f
            | None => True
            end)
         (userStoryDiffs db).

(** The same constraint as a check, for concrete tables. *)
Definition diff_owner_okb (db : Tables) : bool :=
  forallb (fun f =>
             match diff_storyId f with
             | Some i => forallb (fun d => negb (N.eqb (doc_id d) i)
                                           || bool_decide (doc_userId d = diff_userId f))
                                 (userStoryDocuments db)
             | None => true
             end)
          (userStoryDiffs db).

(** Test data: the first user's document after the first call of the
    second test, and a diff the second user appends to it. *)
Definition story_user_doc : UserStoryDocument :=
  List.hd overflow_doc (userStoryDocuments test_db_v1).

Definition foreign_diff : NewUserStoryDiff :=
  mkNewDiff None None (Some "- not my story") None None None None None None
    (Some 1%Z) (Some 2%Z) None.

(** ** How the statements act on the constraint *)

Lemma doc_ids_unique (l : list UserStoryDocument) x y :
  List.NoDup (map doc_id l) -> x ∈ l -> y ∈ l -> doc_id x = doc_id y -> x = y.
Proof.
  rewrite !list_elem_of_In. induction l as [|a l IH]; intros Hn Hx Hy Hid; [done|].
  simpl in Hn. inversion Hn as [|? ? Hna Hnl]; subst.
  destruct Hx as [<-|Hx], Hy as [<-|Hy]; [done| | |by apply IH].
  - exfalso. apply Hna. rewrite Hid. by apply in_map.
  - exfalso. apply Hna. rewrite <- Hid. by apply in_map.
Qed.

(** An update that keeps ids and users keeps the constraint. *)
Lemma owner_map_docs db g :
  keeps_keys g -> diff_owner_ok db ->
  diff_owner_ok (set_documents db (map g (userStoryDocuments db))).
Proof.
  intros Hg H. unfold diff_owner_ok in *. simpl. rewrite Forall_forall in *.
  intros f Hf. specialize (H f Hf). destruct (diff_storyId f) as [i|]; [|done].
  intros d Hd Hi. apply list_elem_of_In, in_map_iff in Hd as (d0 & <- & Hd0).
  destruct (Hg d0) as [Hid Hu]. rewrite Hu. apply H; [by apply list_elem_of_In|by rewrite <- Hid].
Qed.

(** A new document has a fresh id, which no diff names yet. *)
Lemma owner_snoc_doc db r :
  db_wf db -> doc_id r = next_id db -> diff_owner_ok db ->
  diff_owner_ok (set_documents db (userStoryDocuments db ++ [r])).
Proof.
  intros Hwf Hr H. unfold diff_owner_ok in *. simpl.
  pose proof (wf_diff_fk _ Hwf) as Hfk. pose proof (wf_doc_fresh _ Hwf) as Hfr.
  rewrite Forall_forall in *. intros f Hf. specialize (H f Hf). specialize (Hfk f Hf).
  destruct (diff_storyId f) as [i|] eqn:Hs; [|done]. intros d Hd Hi.
  apply elem_of_app in Hd as [Hd|Hd]; [by apply H|].
  apply list_elem_of_singleton in Hd as ->. exfalso. destruct Hfk as [_ Hfk]. simpl in Hfk.
  apply list_elem_of_In, in_map_iff in Hfk as (d' & Hd' & Hin).
  specialize (Hfr d' Hin). simpl in Hfr. lia.
Qed.

Lemma owner_snoc_diff db f :
  diff_owner_ok db ->
  (forall i, diff_storyId f = Some i ->
             forall d, d ∈ userStoryDocuments db -> doc_id d = i -> doc_userId d = diff_userId f) ->
  diff_owner_ok (set_diffs db (userStoryDiffs db ++ [f])).
Proof.
  intros H Hf. unfold diff_owner_ok in *. simpl. apply Forall_app. split; [done|].
  constructor; [|constructor]. destruct (diff_storyId f) as [i|]; [by apply Hf|done].
Qed.

Lemma found_doc_user u db e :
  List.find (doc_of_user u) (userStoryDocuments db) = Some e -> doc_userId e = Some u.
Proof.
  intros Hf. apply find_some in Hf as [_ Hu]. unfold doc_of_user, owned_by in Hu.
  destruct (doc_userId e) as [x|]; [|done]. by apply String.eqb_eq in Hu as ->.
Qed.

(** After the update of the user's row, the only row with its id is the
    user's. *)
Lemma owner_of_updated u db e g :
  db_wf db -> List.find (doc_of_user u) (userStoryDocuments db) = Some e -> keeps_keys g ->
  forall x, x ∈ map g (userStoryDocuments db) -> doc_id x = doc_id e -> doc_userId x = Some u.
Proof.
  intros Hwf Hf Hg x Hx Hid. apply list_elem_of_In, in_map_iff in Hx as (x0 & <- & Hx0).
  destruct (Hg x0) as [Hi Hu]. rewrite Hu. rewrite Hi in Hid.
  pose proof (proj1 (find_some _ _ Hf)) as He.
  rewrite (doc_ids_unique _ x0 e (wf_doc_nodup _ Hwf));
    [exact (found_doc_user _ _ _ Hf)|by apply list_elem_of_In|by apply list_elem_of_In|done].
Qed.

(** After the insert of a row with a fresh id, the only row with that id is
    the new one. *)
Lemma owner_of_inserted db r :
  db_wf db -> doc_id r = next_id db ->
  forall x, x ∈ userStoryDocuments db ++ [r] -> doc_id x = doc_id r -> x = r.
Proof.
  intros Hwf Hr x Hx Hid. apply elem_of_app in Hx as [Hx|Hx]; [|by apply list_elem_of_singleton].
  exfalso. pose proof (proj1 (Forall_forall _ _) (wf_doc_fresh _ Hwf) x) as Hfr.
  apply list_elem_of_In in Hx. specialize (Hfr Hx). simpl in Hfr. lia.
Qed.

Lemma diff_owner_okb_sound db : diff_owner_okb db = true -> diff_owner_ok db.
Proof.
  unfold diff_owner_okb, diff_owner_ok. rewrite forallb_forall, Forall_forall.
  intros H f Hf. specialize (H f Hf). destruct (diff_storyId f) as [i|]; [|done].
  intros d Hd <-. apply list_elem_of_In in Hd.
  apply (proj1 (forallb_forall _ _) H), orb_true_iff in Hd as [Hd|Hd].
  - by rewrite N.eqb_refl in Hd.
  - by apply bool_decide_eq_true in Hd.
Qed.

Lemma owner_tick db : diff_owner_ok db -> diff_owner_ok (tick db).
Proof. done. Qed.

Lemma owner_bump db : diff_owner_ok db -> diff_owner_ok (bump_id db).
Proof. done. Qed.

#[export] Hint Resolve owner_tick owner_bump : story.

(** C31. [upsertStory] keeps every diff on its user's story: the diff it
    writes names the user and the user's own document, the update keeps
    ids and users, and an inserted document has an id no diff names. *)
Theorem upsertStory_keeps_owner u p db :
  db_wf db -> diff_owner_ok db -> diff_owner_ok (snd (upsertStory u p db)).
Proof.
  intros Hwf Ho. upsert_cases Hwf; [done| |done| |done..].
  - destruct (hasDiff p); cbn [snd]; apply owner_tick; [apply owner_bump|];
      (apply owner_snoc_diff || idtac); try (apply owner_map_docs; auto with story).
    intros i [= <-] x Hx Hid.
    exact (owner_of_updated u db e _ Hwf Hf (update_map_keeps_keys _ _ _) x Hx Hid).
  - destruct (hasDiff p); cbn [snd]; apply owner_tick; [apply owner_bump|];
      (apply owner_snoc_diff || idtac); try (apply owner_bump, owner_snoc_doc; done).
    intros i [= <-] x Hx Hid. by rewrite (owner_of_inserted db (inserted_doc u p db) Hwf eq_refl x Hx Hid).
Qed.

(** C30. [appendDiff] checks only that the story exists: called by one user
    with the id of a document of another user, it succeeds, writes a diff
    of the calling user on the other user's story, leaves the tables
    well formed as the schema sees them, and breaks [diff_owner_ok]. *)
Theorem appendDiff_foreign_story u params db d :
  db_wf db -> d ∈ userStoryDocuments db -> doc_userId d <> Some u -> u ∈ users db ->
  opt_int4_ok (nf_previousVersion params) = true ->
  opt_int4_ok (nf_nextVersion params) = true ->
  exists f db', appendDiff u (doc_id d) params db = (Ok f, db') /\
    diff_userId f = Some u /\ diff_storyId f = Some (doc_id d) /\
    db_wf db' /\ ~ diff_owner_ok db'.
Proof.
  intros Hwf Hd Hne Hu Hp Hn. unfold appendDiff, transaction, atomically.
  rewrite insert_diff_ok; [|done|done|done|by apply list_elem_of_In, in_map, list_elem_of_In].
  do 2 eexists. split; [reflexivity|]. split_and!; [done|done| |].
  - apply tick_wf. eapply insert_diff_wf; [exact Hwf|].
    rewrite insert_diff_ok; [reflexivity|done|done|done|by apply list_elem_of_In, in_map, list_elem_of_In].
  - unfold diff_owner_ok. cbn [userStoryDiffs tick bump_id set_diffs].
    rewrite Forall_app, Forall_singleton. intros [_ H]. apply Hne. exact (H d Hd eq_refl).
Qed.

Lemma upsertStory_keeps_owner_witness :
  db_wf test_db_v1 /\ diff_owner_ok test_db_v1 /\
  diff_owner_ok (snd (upsertStory "story-user" params_v2 test_db_v1)).
Proof.
  assert (Hw : db_wf test_db_v1) by wf_by_check.
  assert (Ho : diff_owner_ok test_db_v1) by (apply diff_owner_okb_sound; vm_compute; reflexivity).
  split_and!; [exact Hw|exact Ho|]. exact (upsertStory_keeps_owner _ _ _ Hw Ho).
Defined.

Lemma appendDiff_foreign_story_witness :
  doc_userId story_user_doc = Some "story-user" /\
  exists f db', appendDiff "story-user-2" (doc_id story_user_doc) foreign_diff test_db_v1 = (Ok f, db') /\
    diff_userId f = Some "story-user-2" /\ diff_storyId f = Some (doc_id story_user_doc) /\
    db_wf db' /\ ~ diff_owner_ok db'.
Proof.
  split; [vm_compute; reflexivity|].
  apply appendDiff_foreign_story; [wf_by_check| |vm_compute; congruence|vm_compute; reflexivity..].
  apply list_elem_of_In. vm_compute. left. reflexivity.
Defined.
