(* ===== verification/DiffHistory.v ===== *)
(** * The version history of each story

    [UserStoryModel.upsertStory] (models/userMemory/story.ts, lines 64-130)
    writes, with each new version of a document, a diff row whose
    [next_version] is the version written (lines 111-124).  [history_ok]
    is what a reader of [listDiffs] takes these rows to mean: for every
    document, the [next_version]s of its diffs, in the order the rows were
    written, increase, and none is past the document's version.
    [upsertStory] keeps it ([upsertStory_keeps_history]); two
    [upsertStory] calls of one user that overlap under READ COMMITTED break
    it ([Concurrency.lost_update_history]): both diffs claim the same next
    version.  [appendDiff] writes the versions its caller gives and is not
    bound by it. *)

From S2P Require Import Prelude Json Schema StoryModel DiffOwner.

(** The [next_version]s of the diffs of story [i], in table order. *)
Definition story_history (i : Id) (fs : list UserStoryDiff) : list (option Z) :=
  map diff_nextVersion (List.filter (fun f => bool_decide (diff_storyId f = Some i)) fs).

(** Every entry is a version, each greater than the one before, none
    greater than [v]. *)
Definition history_fits (v : Z) (h : list (option Z)) : Prop :=
  exists ns, h = map Some ns /\ StronglySorted Z.lt ns /\ Forall (fun n => n <= v)%Z ns.

Definition history_ok (db : Tables) : Prop :=
  Forall (fun d => history_fits (doc_version d) (story_history (doc_id d) (userStoryDiffs db)))
         (userStoryDocuments db).

(** The same as checks, for concrete tables. *)
Fixpoint history_fitsb (v : Z) (h : list (option Z)) : bool :=
  match h with
  | [] => true
  | Some n :: h' =>
      forallb (fun o => match o with Some m => Z.ltb n m | None => false end) h'
      && Z.leb n v && history_fitsb v h'
  | None :: _ => false
  end.

Definition history_okb (db : Tables) : bool :=
  forallb (fun d => history_fitsb (doc_version d) (story_history (doc_id d) (userStoryDiffs db)))
          (userStoryDocuments db).

(** ** The checks decide the properties *)

Lemma forallb_later_iff n ns :
  forallb (fun o => match o with Some m => Z.ltb n m | None => false end) (map Some ns) = true
  <-> Forall (Z.lt n) ns.
Proof.
  induction ns as [|m ns IH]; simpl; [split; by constructor|].
  by rewrite andb_true_iff, Z.ltb_lt, IH, Forall_cons_iff.
Qed.

Lemma history_fitsb_spec v h : history_fitsb v h = true <-> history_fits v h.
Proof.
  unfold history_fits. induction h as [|[n|] h IH]; simpl.
  - split; [intros _; exists []; repeat constructor|done].
  - split.
    + intros H. apply andb_true_iff in H as [H Hh]. apply andb_true_iff in H as [Hlt Hle].
      apply Z.leb_le in Hle.
      destruct (proj1 IH Hh) as (ns & -> & Hs & Hf).
      exists (n :: ns). split_and!; [done| |constructor; [lia|done]].
      constructor; [done|]. by apply forallb_later_iff.
    + intros ([|m ns] & Heq & Hs & Hf); [done|]. injection Heq as <- ->.
      inversion Hs as [|? ? Hs' Hlt]; subst. inversion Hf as [|? ? Hle Hf']; subst.
      rewrite (proj2 (forallb_later_iff _ _) Hlt), (proj2 (Z.leb_le _ _) Hle).
      apply IH. by exists ns.
  - split; [done|]. by intros ([|m ns] & Heq & _).
Qed.

Lemma history_okb_spec db : history_okb db = true <-> history_ok db.
Proof.
  unfold history_okb, history_ok. rewrite forallb_forall, Forall_forall.
  split; intros H d Hd; apply history_fitsb_spec, H, Hd.
Qed.

(** ** Histories *)

Lemma StronglySorted_snoc {A} (R : relation A) l x :
  StronglySorted R l -> Forall (fun y => R y x) l -> StronglySorted R (l ++ [x]).
Proof.
  induction l as [|a l IH]; intros Hs Hf; simpl; [by repeat constructor|].
  inversion Hs as [|? ? Hs' Ha]; subst. inversion Hf as [|? ? Hax Hf']; subst.
  constructor; [by apply IH|]. apply Forall_app. split; [done|by constructor].
Qed.

Lemma history_fits_mono v v' h : (v <= v')%Z -> history_fits v h -> history_fits v' h.
Proof.
  intros Hv (ns & -> & Hs & Hf). exists ns. split_and!; [done|done|].
  revert Hf. apply Forall_impl. lia.
Qed.

(** A new version past every earlier one extends the history. *)
Lemma history_fits_snoc v n h : (v < n)%Z -> history_fits v h -> history_fits n (h ++ [Some n]).
Proof.
  intros Hv (ns & -> & Hs & Hf). exists (ns ++ [n]). split_and!.
  - by rewrite map_app.
  - apply StronglySorted_snoc; [done|]. revert Hf. apply Forall_impl. lia.
  - apply Forall_app. split; [|by constructor]. revert Hf. apply Forall_impl. lia.
Qed.

Lemma StronglySorted_app_r {A} (R : relation A) l1 l2 :
  StronglySorted R (l1 ++ l2) -> StronglySorted R l2.
Proof. induction l1 as [|a l1 IH]; simpl; [done|]. intros Hs. inversion Hs. by apply IH. Qed.

(** A history that names one version twice in a row is out of order. *)
Lemma history_fits_dup v h a : ~ history_fits v (h ++ [Some a; Some a]).
Proof.
  intros (ns & Heq & Hs & _). symmetry in Heq. apply map_eq_app in Heq as (l1 & l2 & -> & _ & Hl2).
  destruct l2 as [|x [|y [|]]]; try discriminate. injection Hl2 as -> ->.
  apply StronglySorted_app_r in Hs. inversion Hs as [|? ? _ Hf]; subst.
  inversion Hf; subst. lia.
Qed.

Lemma story_history_snoc_same i f fs :
  diff_storyId f = Some i -> story_history i (fs ++ [f]) = story_history i fs ++ [diff_nextVersion f].
Proof.
  intros Hi. unfold story_history. rewrite filter_app, map_app. simpl.
  by rewrite bool_decide_true.
Qed.

Lemma story_history_snoc_other i f fs :
  diff_storyId f <> Some i -> story_history i (fs ++ [f]) = story_history i fs.
Proof.
  intros Hi. unfold story_history. rewrite filter_app, map_app. simpl.
  rewrite bool_decide_false by done. by rewrite app_nil_r.
Qed.

Lemma story_history_none i fs :
  Forall (fun f => diff_storyId f <> Some i) fs -> story_history i fs = [].
Proof.
  unfold story_history. induction 1 as [|f fs Hf _ IH]; [done|]. simpl.
  by rewrite bool_decide_false.
Qed.

(** No diff names the id the next insert takes. *)
Lemma story_history_fresh db : db_wf db -> story_history (next_id db) (userStoryDiffs db) = [].
Proof.
  intros Hwf. apply story_history_none. pose proof (wf_diff_fk _ Hwf) as Hfk.
  pose proof (wf_doc_fresh _ Hwf) as Hfr. revert Hfk. apply Forall_impl.
  intros f [_ Hs] Hi. rewrite Hi in Hs. simpl in Hs.
  apply list_elem_of_In, in_map_iff in Hs as (d & Hd & Hin).
  rewrite Forall_forall in Hfr. specialize (Hfr d Hin). lia.
Qed.

(** ** How the statements of [upsertStory] act on the histories *)

Lemma history_tick db : history_ok db -> history_ok (tick db).
Proof. done. Qed.

Lemma history_bump db : history_ok db -> history_ok (bump_id db).
Proof. done. Qed.

(** An update that keeps ids and does not lower versions. *)
Lemma history_map_docs db g :
  (forall x, doc_id (g x) = doc_id x) ->
  (forall x, In x (userStoryDocuments db) -> (doc_version x <= doc_version (g x))%Z) ->
  history_ok db -> history_ok (set_documents db (map g (userStoryDocuments db))).
Proof.
  intros Hid Hv H. unfold history_ok in *. simpl. apply Forall_map.
  rewrite Forall_forall in *. intros x Hx. rewrite Hid.
  apply (history_fits_mono (doc_version x)); [by apply Hv|by apply H].
Qed.

(** A document with a fresh id starts with an empty history. *)
Lemma history_snoc_doc db r :
  db_wf db -> doc_id r = next_id db ->
  history_ok db -> history_ok (set_documents db (userStoryDocuments db ++ [r])).
Proof.
  intros Hwf Hr H. unfold history_ok in *. simpl. apply Forall_app. split; [done|].
  constructor; [|constructor]. rewrite Hr, story_history_fresh by done.
  exists []. repeat constructor.
Qed.

(** A diff of story [i] extends the history of [i] only. *)
Lemma history_snoc_diff db f i :
  diff_storyId f = Some i ->
  Forall (fun d => doc_id d = i ->
                   history_fits (doc_version d)
                     (story_history i (userStoryDiffs db) ++ [diff_nextVersion f]))
         (userStoryDocuments db) ->
  history_ok db -> history_ok (set_diffs db (userStoryDiffs db ++ [f])).
Proof.
  intros Hi Hnew H. unfold history_ok in *. simpl. rewrite Forall_forall in *.
  intros d Hd. destruct (decide (doc_id d = i)) as [<-|Hne].
  - rewrite story_history_snoc_same by done. by apply Hnew.
  - rewrite story_history_snoc_other by congruence. by apply H.
Qed.

Lemma hit_is_found u db e x :
  db_wf db -> List.find (doc_of_user u) (userStoryDocuments db) = Some e ->
  In x (userStoryDocuments db) -> doc_id x = doc_id e -> x = e.
Proof.
  intros Hwf Hf Hx Hid. apply (doc_ids_unique _ x e (wf_doc_nodup _ Hwf)); [by apply list_elem_of_In| |done].
  apply list_elem_of_In. by apply find_some in Hf as [? _].
Qed.

(** The update of the user's row writes the version read plus one. *)
Lemma history_update_docs u db e v :
  db_wf db -> List.find (doc_of_user u) (userStoryDocuments db) = Some e ->
  nd_version v = Some (doc_version e + 1)%Z -> history_ok db ->
  history_ok (set_documents db (map (fun x => if hit (doc_id e) u x then apply_set v x else x)
                                    (userStoryDocuments db))).
Proof.
  intros Hwf Hf Hv H. apply history_map_docs; [intros x; by destruct (hit _ _ x)| |done].
  intros x Hx. destruct (hit (doc_id e) u x) eqn:Hh; [|lia].
  apply andb_true_iff in Hh as [Hid _]. apply bool_decide_eq_true in Hid.
  rewrite (hit_is_found u db e x) by done. simpl. rewrite Hv. simpl. lia.
Qed.

(** The diff of the update extends the user's history by the version
    written. *)
Lemma history_update_diff u db e v :
  db_wf db -> List.find (doc_of_user u) (userStoryDocuments db) = Some e ->
  nd_version v = Some (doc_version e + 1)%Z -> history_ok db ->
  Forall (fun x => doc_id x = doc_id e ->
                   history_fits (doc_version x)
                     (story_history (doc_id e) (userStoryDiffs db) ++ [Some (doc_version e + 1)%Z]))
         (map (fun x => if hit (doc_id e) u x then apply_set v x else x) (userStoryDocuments db)).
Proof.
  intros Hwf Hf Hv H. apply Forall_map, Forall_forall. intros x Hx Hid.
  assert (Hxe : x = e) by (apply (hit_is_found u db e x); [done|done|done|by destruct (hit _ _ x)]).
  subst x. rewrite (hit_found u e (userStoryDocuments db) Hf). simpl. rewrite Hv. simpl.
  apply (history_fits_snoc (doc_version e)); [lia|].
  unfold history_ok in H. rewrite Forall_forall in H. apply H. by apply find_some in Hf as [? _].
Qed.

(** The diff of an insert starts the new document's history at 1. *)
Lemma history_insert_diff db r :
  db_wf db -> doc_id r = next_id db -> doc_version r = 1%Z ->
  Forall (fun x => doc_id x = next_id db ->
                   history_fits (doc_version x)
                     (story_history (next_id db) (userStoryDiffs db) ++ [Some 1%Z]))
         (userStoryDocuments db ++ [r]).
Proof.
  intros Hwf Hr Hv. rewrite story_history_fresh by done. apply Forall_app. split.
  - pose proof (wf_doc_fresh _ Hwf) as Hfr. revert Hfr. apply Forall_impl. intros x Hx Hid. lia.
  - constructor; [|constructor]. intros _. rewrite Hv. exists [1%Z].
    split_and!; [done|repeat constructor|repeat constructor; lia].
Qed.

#[export] Hint Resolve history_tick history_bump : story.

(** C10. [upsertStory] keeps the history of every story in order: each
    diff it writes names the version it writes, one past the version of
    the document it read, and the history of every other story is left as
    it was. *)
Theorem upsertStory_keeps_history u p db :
  db_wf db -> history_ok db -> history_ok (snd (upsertStory u p db)).
Proof.
  intros Hwf H. upsert_cases Hwf; [done| |done| |done..].
  - destruct (hasDiff p); cbn [snd]; apply history_tick; [apply history_bump|].
    + apply (history_snoc_diff _ _ (doc_id e)); [reflexivity| |by apply history_update_docs].
      exact (history_update_diff u db e
               (nd_with_updatedAt (baseDocument p (doc_version e + 1)) (clock db)) Hwf Hf eq_refl H).
    + by apply history_update_docs.
  - destruct (hasDiff p); cbn [snd]; apply history_tick; [apply history_bump|].
    + apply (history_snoc_diff _ _ (next_id db)); [reflexivity| |by apply history_bump, history_snoc_doc].
      exact (history_insert_diff db (inserted_doc u p db) Hwf eq_refl eq_refl).
    + by apply history_bump, history_snoc_doc.
Qed.

Lemma upsertStory_keeps_history_witness :
  db_wf test_db_v1 /\ history_ok test_db_v1 /\
  history_ok (snd (upsertStory "story-user" params_v2 test_db_v1)).
Proof.
  assert (Hw : db_wf test_db_v1) by wf_by_check.
  assert (Hh : history_ok test_db_v1) by (apply history_okb_spec; vm_compute; reflexivity).
  split_and!; [exact Hw|exact Hh|exact (upsertStory_keeps_history _ _ _ Hw Hh)].
Defined.
