(* ===== verification/StoryStore.v ===== *)
(** * The story store: what the service and the routes rely on

    The service ([UserStoryService.composeStory]) and the job input builder
    ([buildUserStoryJobInput]) use the database through [UserStoryModel]
    (getLatestStoryDocument, upsertStory) and one query of the
    [user_memories] table.  This file states that use as an interface, the
    class [UserStoryDb], with the laws the clients need ([UserStoryDbLaws]):
    - the abstract state of a user is a [StoryView], the story and the
      version of their document;
    - [spec_upsert] is the contract of an upsert on that view: the new story
      at the next version;
    - a successful upsert moves the user's view by [spec_upsert] and leaves
      every other view alone; a failed one changes no view; the memories
      table is never written; an upsert of a user below the largest
      version, with a title that fits [varchar(255)], succeeds.
    The instance for [Tables] discharges the laws from the lemmas of
    [StoryModel.v]; the refinement theorem below is the law stated for the
    concrete tables.  [Service.v] and [Routes.v] prove their theorems
    against the class. *)

From S2P Require Import Prelude Json Schema StoryModel.

Record StoryView := mkView {
  view_story : option string;
  view_version : Z;
}.

(** The view of a user in the tables: their document's story and version. *)
Definition view_of (u : string) (db : Tables) : option StoryView :=
  (fun d => mkView (doc_story d) (doc_version d)) <$>
    List.find (doc_of_user u) (userStoryDocuments db).

(** The contract of an upsert: the new story, at the version after. *)
Definition spec_upsert (p : UpsertUserStoryParams) (v : option StoryView) : option StoryView :=
  Some (mkView (Some (up_story p)) (default 0%Z (view_version <$> v) + 1)).

Class UserStoryDb (S : Type) := {
  store_wf : S -> Prop;
  store_is_user : string -> S -> Prop;
  store_view : string -> S -> option StoryView;
  store_memories : S -> list UserMemory;
  store_clock : S -> Timestamp;
  store_latest : string -> st S (option UserStoryDocument);
  store_upsert : string -> UpsertUserStoryParams
                 -> st S (option UserStoryDiff * option UserStoryDocument);
}.

Class UserStoryDbLaws (S : Type) `{!UserStoryDb S} := {
  law_upsert_wf u p s : store_wf s -> store_wf (snd (store_upsert u p s));
  law_upsert_ok u p s r s' :
    store_wf s -> store_upsert u p s = (Ok r, s') ->
    store_view u s' = spec_upsert p (store_view u s) /\
    (forall u', u' <> u -> store_view u' s' = store_view u' s) /\
    (forall u', store_is_user u' s' <-> store_is_user u' s) /\
    store_memories s' = store_memories s;
  law_upsert_err u p s e s' :
    store_upsert u p s = (Err e, s') ->
    (forall u', store_view u' s' = store_view u' s) /\
    (forall u', store_is_user u' s' <-> store_is_user u' s) /\
    store_memories s' = store_memories s;
  law_upsert_progress u p s :
    store_wf s -> store_is_user u s ->
    (default 0%Z (view_version <$> store_view u s) < INT4_MAX)%Z ->
    varchar255_ok (up_title p) = true ->
    exists r s', store_upsert u p s = (Ok r, s');
  law_upsert_doc u p s r s' :
    store_wf s -> store_upsert u p s = (Ok r, s') -> is_Some (snd r);
  law_latest u s :
    store_wf s ->
    exists l, store_latest u s = (Ok l, s) /\
              (fun d => mkView (doc_story d) (doc_version d)) <$> l = store_view u s;
}.

(** The version of a user's story, 0 when they have none. *)
Definition store_version {S} `{!UserStoryDb S} (u : string) (s : S) : Z :=
  default 0%Z (view_version <$> store_view u s).

#[export] Instance tables_db : UserStoryDb Tables := {
  store_wf := db_wf;
  store_is_user u db := u ∈ users db;
  store_view := view_of;
  store_memories := userMemories;
  store_clock := clock;
  store_latest := getLatestStoryDocument;
  store_upsert := upsertStory;
}.

(** ** The tables implement the interface *)

Lemma find_head_filter {A} (f : A -> bool) l : List.find f l = head (List.filter f l).
Proof. induction l as [|x l IH]; simpl; [done|]. by destruct (f x). Qed.

Lemma view_of_filter u db db' :
  List.filter (doc_of_user u) (userStoryDocuments db')
  = List.filter (doc_of_user u) (userStoryDocuments db) ->
  view_of u db' = view_of u db.
Proof. intros H. unfold view_of. by rewrite !find_head_filter, H. Qed.

Lemma view_of_current u db :
  default 0%Z (view_version <$> view_of u db) = current_version u db.
Proof. unfold view_of, current_version. by destruct (List.find _ _). Qed.

(** Every outcome of [upsertStory] keeps the users and the memories. *)
Lemma upsertStory_keeps_users u p db :
  db_wf db ->
  users (snd (upsertStory u p db)) = users db /\
  userMemories (snd (upsertStory u p db)) = userMemories db.
Proof.
  intros Hwf. upsert_cases Hwf; try done; destruct (hasDiff p); done.
Qed.

Lemma tables_upsert_ok u p db r db' :
  db_wf db -> upsertStory u p db = (Ok r, db') ->
  view_of u db' = spec_upsert p (view_of u db) /\
  (forall u', u' <> u -> view_of u' db' = view_of u' db) /\
  users db' = users db /\ userMemories db' = userMemories db.
Proof.
  intros Hwf H. destruct r as [diff doc].
  pose proof (upsertStory_keeps_users u p db Hwf) as Hk. rewrite H in Hk.
  destruct (upsertStory_ok_inv _ _ _ _ _ _ Hwf H) as (d & -> & _ & Hown & Hoth & _).
  destruct (upsertStory_ok_doc _ _ _ _ _ _ Hwf H) as (d' & Hd' & Hv & Hs & _). invc Hd'.
  split; [|split; [intros u' Hne; by apply view_of_filter, Hoth|done]].
  unfold spec_upsert. rewrite view_of_current, <- Hv, <- Hs.
  unfold view_of. rewrite find_head_filter, Hown. done.
Qed.

Lemma tables_upsert_err u p db e db' :
  upsertStory u p db = (Err e, db') ->
  (forall u', view_of u' db' = view_of u' db) /\
  users db' = users db /\ userMemories db' = userMemories db.
Proof. intros H. apply transaction_err in H as ->. done. Qed.

#[export] Instance tables_db_laws : UserStoryDbLaws Tables.
Proof.
  constructor; simpl.
  - apply upsert_wf.
  - intros u p s r s' Hwf H. destruct (tables_upsert_ok _ _ _ _ _ Hwf H) as (H1 & H2 & H3 & H4).
    split; [done|]. split; [done|]. split; [|done]. intros u'. by rewrite H3.
  - intros u p s e s' H. destruct (tables_upsert_err _ _ _ _ _ H) as (H1 & H2 & H3).
    split; [done|]. split; [|done]. intros u'. by rewrite H2.
  - intros u p s Hwf Hu Hlt Ht. rewrite view_of_current in Hlt.
    destruct (upsert_progress u p s Hwf Hu Hlt Ht) as (diff & d & s' & H). eauto.
  - intros u p s [diff doc] s' Hwf H.
    destruct (upsertStory_ok_doc _ _ _ _ _ _ Hwf H) as (d & -> & _). by eexists.
  - intros u s Hwf. eexists. split; [apply latest_find, Hwf|]. done.
Qed.

(** C3. [upsertStory] refines its contract on the per-user view: when it
    succeeds, the user's view becomes the new story at the next version and
    every other user's view stays; when it throws, no view changes. *)
Theorem upsertStory_refines u p db :
  db_wf db ->
  match upsertStory u p db with
  | (Ok _, db') => view_of u db' = spec_upsert p (view_of u db) /\
                   forall u', u' <> u -> view_of u' db' = view_of u' db
  | (Err _, db') => forall u', view_of u' db' = view_of u' db
  end.
Proof.
  intros Hwf. destruct (upsertStory u p db) as [[r|e] db'] eqn:H.
  - destruct (tables_upsert_ok _ _ _ _ _ Hwf H) as (H1 & H2 & _). done.
  - apply (tables_upsert_err _ _ _ _ _ H).
Qed.

(** The second upsert of "increments version and records diff on update"
    moves the user's view from version 1 to version 2. *)
Lemma upsertStory_refines_witness :
  db_wf test_db_v1 /\
  view_of "story-user" (snd (upsertStory "story-user" params_v2 test_db_v1))
  = Some (mkView (Some "# v2") 2).
Proof.
  assert (Hw : db_wf test_db_v1) by wf_by_check. split; [exact Hw|].
  pose proof (upsertStory_refines "story-user" params_v2 test_db_v1 Hw) as H.
  destruct (upsertStory "story-user" params_v2 test_db_v1) as [[r|e] db'] eqn:E;
    [|vm_compute in E; discriminate].
  cbn [snd]. destruct H as [-> _]. vm_compute. reflexivity.
Defined.
