(* ===== verification/Extractor.v ===== *)
(** * [UserStoryExtractor]: the prompt and the tool call of the story agent

    Models packages/memory-user-memory/src/extractors/story.ts and the
    promptfoo evaluation of the same prompt
    (packages/memory-user-memory/promptfoo/evals/story/{prompt.ts,
    tests/cases.ts}).
    - [buildUserPrompt]: the five sections of the user message, each the
      trimmed field or a default text, joined by a blank line;
    - [getTools]: the single function tool [commit_user_story];
    - [resultSchema_parse]: zod's [resultSchema.parse];
    - [toolCall_result]: what [toolCall] does with the value the model
      runtime returns (first tool call, string arguments through
      [JSON.parse], [args || {}], then the schema);
    - [toolCall]: the whole method, with the LLM call
      [runtime.generateObject] as the section variable [generateObject].
    The system prompt comes from the prompt template engine of another
    package ([renderPlaceholderTemplate] and the base class's
    [getTemplateProps]): [systemPrompt] is a section variable, as is
    [JSON_parse], the JavaScript built-in, so that the theorems hold for
    any parser; the fixtures and [toolCall_stringified_roundtrip] use
    [json_parse] of [JsonText.v].  The promptfoo case of cases.ts is
    [story_cases]; [case_passes] grades an output by all its assertions,
    promptfoo's own checks being parameters. *)

From S2P Require Import Prelude Json JsonText.

(** [StoryTemplateProps]: every field is optional. *)
Record StoryTemplateProps := mkTemplateProps {
  tp_existingStory : option string;
  tp_language : option string;
  tp_recentEvents : option string;
  tp_retrievedMemories : option string;
  tp_storyNotes : option string;
  tp_userProfile : option string;
  tp_username : option string;
}.

Inductive Role := RoleSystem | RoleUser | RoleAssistant.

Record Message := mkMessage {
  msg_content : string;
  msg_role : Role;
}.

(** [StoryExtractorOptions]: the template props and extra messages. *)
Record StoryExtractorOptions := mkExtractorOptions {
  opt_props : StoryTemplateProps;
  opt_additionalMessages : list Message;
}.

(** [UserStoryExtractionResult], the output of [resultSchema]. *)
Record UserStoryExtractionResult := mkExtractionResult {
  ur_diff : option string;
  ur_memoryIds : option (list string);
  ur_reasoning : option string;
  ur_sourceIds : option (list string);
  ur_story : string;
  ur_summary : option string;
}.

(** A property of the tool's JSON-schema parameters. *)
Inductive ParamType := PString | PStringArray.

Record ToolDef := mkToolDef {
  tool_name : string;
  tool_description : string;
  tool_properties : list (string * ParamType);
  tool_required : list string;
}.

(** The argument of [runtime.generateObject]. *)
Record GenerateObjectRequest := mkRequest {
  req_messages : list Message;
  req_model : string;
  req_tools : list ToolDef;
}.

(** [options.x?.trim() || fallback]. *)
Definition trimmed_or (o : option string) (fallback : string) : string :=
  opt_or (js_trim <$> o) fallback.

(** [buildUserPrompt] (lines 82-97). *)
Definition buildUserPrompt (o : StoryTemplateProps) : string :=
  js_join (String "010" (String "010" "")) [
    "## Existing Story (baseline)";
    trimmed_or (tp_existingStory o) "No existing story provided.";
    "## Retrieved Memories / Signals";
    trimmed_or (tp_retrievedMemories o) "N/A";
    "## Recent Events or Highlights";
    trimmed_or (tp_recentEvents o) "N/A";
    "## User Provided Notes or Requests";
    trimmed_or (tp_storyNotes o) "N/A";
    "## Extra Profile Context";
    trimmed_or (tp_userProfile o) "N/A"
  ].

(** [getPromptName()] (lines 30-32). *)
Definition getPromptName : string := "user-story".

(** [getSchema()] (lines 34-37): tool calling replaces the JSON schema. *)
Definition getSchema : option json := None.

(** [getTools] (lines 40-80). *)
Definition getTools : list ToolDef := [
  {| tool_name := "commit_user_story";
     tool_description := "Persist an updated user story document that summarizes the user, preferences, relationships, and recent events.";
     tool_properties := [("diff", PString); ("memoryIds", PStringArray); ("reasoning", PString);
                         ("sourceIds", PStringArray); ("story", PString); ("summary", PString)];
     tool_required := ["story"] |}
].

(** [resultSchema.parse(v)] (lines 8-15). *)
Definition resultSchema_parse (v : json) : res UserStoryExtractionResult :=
  fs <-? zod_object "" v ;;
  diff <-? zod_opt_string "diff" (json_get "diff" fs) ;;
  memoryIds <-? zod_opt_string_array "memoryIds" (json_get "memoryIds" fs) ;;
  reasoning <-? zod_opt_string "reasoning" (json_get "reasoning" fs) ;;
  sourceIds <-? zod_opt_string_array "sourceIds" (json_get "sourceIds" fs) ;;
  story <-? zod_string "story" (json_get "story" fs) ;;
  summary <-? zod_opt_string "summary" (json_get "summary" fs) ;;
  Ok (mkExtractionResult diff memoryIds reasoning sourceIds story summary).

(** What the provider's JSON Schema validation accepts as the arguments of a
    tool: an object ([type: 'object']) in which each declared property that
    is present has its declared type ([type: 'string'], or [type: 'array']
    with [items: { type: 'string' }]) and each [required] key is present;
    other keys are allowed, as the schema sets no [additionalProperties]. *)
Definition is_jstring (v : json) : bool :=
  match v with JString _ => true | _ => false end.

Definition param_accepts (pt : ParamType) (v : json) : bool :=
  match pt, v with
  | PString, JString _ => true
  | PStringArray, JArray xs => forallb is_jstring xs
  | _, _ => false
  end.

Definition tool_accepts (t : ToolDef) (v : json) : bool :=
  match v with
  | JObject fs =>
      forallb (fun '(k, pt) => match json_get k fs with
                               | Some x => param_accepts pt x
                               | None => true
                               end) (tool_properties t) &&
      forallb (fun k => bool_decide (is_Some (json_get k fs))) (tool_required t)
  | _ => false
  end.

Section ToolCall.
(** [JSON.parse]: [SyntaxError] on malformed text. *)
Variable JSON_parse : string -> res json.

(** What [toolCall] does with the value [generateObject] returns
    (lines 120-130). *)
Definition toolCall_result (result : json) : res UserStoryExtractionResult :=
  match result with
  | JArray calls =>
      let firstArgs :=
        match head calls with
        | Some (JObject fs) => json_get "arguments" fs
        | _ => None
        end in
      args <-? (match firstArgs with
                | Some (JString s) => a <-? JSON_parse (js_or s "{}") ;; Ok (Some a)
                | other => Ok other
                end) ;;
      resultSchema_parse (match args with
                          | Some a => if json_truthy a then a else JObject []
                          | None => JObject []
                          end)
  | _ => resultSchema_parse result
  end.

(** The system prompt the template engine renders from the options. *)
Variable systemPrompt : StoryTemplateProps -> string.
(** [this.runtime.generateObject]: the LLM call. *)
Variable generateObject : GenerateObjectRequest -> res json.
(** [this.model]. *)
Variable model : string.

(** The empty options of [options || {}]. *)
Definition no_props : StoryTemplateProps :=
  mkTemplateProps None None None None None None None.

(** The request [toolCall] sends (lines 102-118): the system prompt
    rendered from the options, the additional messages, the user prompt. *)
Definition toolCall_request (options : option StoryExtractorOptions) : GenerateObjectRequest :=
  let props := default no_props (opt_props <$> options) in
  let messages :=
    [mkMessage (systemPrompt props) RoleSystem]
    ++ default [] (opt_additionalMessages <$> options)
    ++ [mkMessage (buildUserPrompt props) RoleUser] in
  mkRequest messages model getTools.

(** [toolCall(options)] (lines 99-131). *)
Definition toolCall (options : option StoryExtractorOptions) : res UserStoryExtractionResult :=
  result <-? generateObject (toolCall_request options) ;;
  toolCall_result result.

(** [structuredCall] is [toolCall]. *)
Definition structuredCall (options : option StoryExtractorOptions) : res UserStoryExtractionResult :=
  toolCall options.
End ToolCall.

(** ** Tool-call arguments as the model returns them *)

(** An optional key of an arguments object: absent when [None]. *)
Definition opt_field (k : string) (v : option json) : list (string * json) :=
  match v with Some j => [(k, j)] | None => [] end.

(** The arguments object of a [commit_user_story] call carrying [r]. *)
Definition encode_result (r : UserStoryExtractionResult) : json :=
  JObject (opt_field "diff" (JString <$> ur_diff r)
           ++ opt_field "memoryIds" ((fun l => JArray (map JString l)) <$> ur_memoryIds r)
           ++ opt_field "reasoning" (JString <$> ur_reasoning r)
           ++ opt_field "sourceIds" ((fun l => JArray (map JString l)) <$> ur_sourceIds r)
           ++ [("story", JString (ur_story r))]
           ++ opt_field "summary" (JString <$> ur_summary r)).

(** A tool call [{ name, arguments }] as the runtime returns it. *)
Definition tool_call (name : string) (args : json) : json :=
  JObject [("name", JString name); ("arguments", args)].

(** [s] is unchanged by [trim()] (or absent). *)
Definition trimmed_opt (o : option string) : Prop :=
  match o with Some s => js_trim s = s | None => True end.

(** ** The promptfoo evaluation *)

(** [StoryPromptVars]: [language] and [username] are required. *)
Record StoryPromptVars := mkPromptVars {
  pv_existingStory : option string;
  pv_language : string;
  pv_recentEvents : option string;
  pv_retrievedMemories : option string;
  pv_storyNotes : option string;
  pv_userProfile : option string;
  pv_username : string;
}.

(** [userSections] of [generatePrompt] (prompt.ts lines 21-32): the same
    sections as [buildUserPrompt], without [trim()]. *)
Definition eval_userSections (v : StoryPromptVars) : string :=
  js_join (String "010" (String "010" "")) [
    "## Existing Story (baseline)";
    opt_or (pv_existingStory v) "No existing story provided.";
    "## Retrieved Memories / Signals";
    opt_or (pv_retrievedMemories v) "N/A";
    "## Recent Events or Highlights";
    opt_or (pv_recentEvents v) "N/A";
    "## User Provided Notes or Requests";
    opt_or (pv_storyNotes v) "N/A";
    "## Extra Profile Context";
    opt_or (pv_userProfile v) "N/A"
  ].

(** [generatePrompt({ vars })] (prompt.ts lines 14-38): the system message
    rendered by the template engine from [language], [topK: 10] and
    [username] ([render] stands for [renderPlaceholderTemplate] applied to
    [userStoryPrompt]), then the user sections. *)
Definition generatePrompt (render : string -> Z -> string -> string) (v : StoryPromptVars)
  : list Message :=
  [mkMessage (render (pv_language v) 10%Z (pv_username v)) RoleSystem;
   mkMessage (eval_userSections v) RoleUser].

(** The template props the extractor would receive for the same vars. *)
Definition props_of_vars (v : StoryPromptVars) : StoryTemplateProps :=
  mkTemplateProps (pv_existingStory v) (Some (pv_language v)) (pv_recentEvents v)
    (pv_retrievedMemories v) (pv_storyNotes v) (pv_userProfile v) (Some (pv_username v)).

(** [toolCallAssert] of cases.ts (lines 1-22): every call names
    [commit_user_story] and its arguments hold a story of more than ten
    characters after [trim()]. *)
Definition call_ok (JSON_parse : string -> res json) (call : json) : bool :=
  let field k := match call with JObject fs => json_get k fs | _ => None end in
  let fn := match field "function" with
            | Some (JObject f) => json_get "name" f
            | _ => None
            end in
  let fnName := match fn with
                | Some n => if json_truthy n then Some n else field "name"
                | None => field "name"
                end in
  let rawArgs := match field "function" with
                 | Some (JObject f) =>
                     match json_get "arguments" f with
                     | Some JNull | None => field "arguments"
                     | some => some
                     end
                 | _ => field "arguments"
                 end in
  let args := match rawArgs with
              | Some (JString s) =>
                  match JSON_parse s with Ok a => Some a | Err _ => None end
              | Some a => Some (if json_truthy a then a else JObject [])
              | None => Some (JObject [])
              end in
  match fnName, args with
  | Some (JString "commit_user_story"), Some (JObject fs) =>
      match json_get "story" fs with
      | Some (JString st) => Nat.ltb 10 (js_length (js_trim st))
      | _ => false
      end
  | _, _ => false
  end.

Definition toolCallAssert (JSON_parse : string -> res json) (output : json) : bool :=
  match output with
  | JArray (c :: cs) => forallb (call_ok JSON_parse) (c :: cs)
  | _ => false
  end.

(** ** Scenarios of the tests *)

(** The [vars] of the promptfoo case (cases.ts lines 39-47). *)
Definition promptfoo_case_vars : StoryPromptVars :=
  mkPromptVars
    (Some ("# About User" ++ nl ++ "- Loves TypeScript" ++ nl ++ "- Works on LobeHub")%string)
    "简体中文"
    (Some ("- Shipped memory feature" ++ nl ++ "- Joined community call")%string)
    (Some ("- Preference: dark mode" ++ nl ++ "- Context: building AI workspace")%string)
    (Some "- Keep concise")
    (Some "- Developer, open source contributor")
    "User".

(** The assertions of a promptfoo test case (cases.ts lines 33-37): the
    built-in [is-valid-openai-tools-call], a [javascript] assertion, and an
    [llm-rubric] graded by another model. *)
Inductive PromptfooAssert :=
  | IsValidOpenaiToolsCall
  | JavascriptAssert (check : json -> bool)
  | LlmRubric (provider value : string).

Record PromptfooCase := mkPromptfooCase {
  case_assert : list PromptfooAssert;
  case_description : string;
  case_vars : StoryPromptVars;
}.

(** [rubric] (cases.ts lines 24-29). *)
Definition rubric : PromptfooAssert :=
  LlmRubric "openai:gpt-5-mini"
    "Should return a tool call to commit_user_story with a meaningful second-person story and concise diff/summary.".

(** The exported cases (cases.ts lines 31-49). *)
Definition story_cases (JSON_parse : string -> res json) : list PromptfooCase :=
  [mkPromptfooCase [IsValidOpenaiToolsCall; JavascriptAssert (toolCallAssert JSON_parse); rubric]
     "Generates a story with baseline and events" promptfoo_case_vars].

(** How promptfoo grades an output: a case passes when every assertion
    does.  The two assertions promptfoo itself implements are parameters:
    [validToolsCall] for [is-valid-openai-tools-call] and [grade] for the
    rubric's model. *)
Definition assert_passes (validToolsCall : json -> bool) (grade : string -> string -> json -> bool)
    (a : PromptfooAssert) (output : json) : bool :=
  match a with
  | IsValidOpenaiToolsCall => validToolsCall output
  | JavascriptAssert check => check output
  | LlmRubric provider value => grade provider value output
  end.

Definition case_passes validToolsCall grade (c : PromptfooCase) (output : json) : bool :=
  forallb (fun a => assert_passes validToolsCall grade a output) (case_assert c).

(** Outputs with a story of 9 UTF-16 units after [trim()] and of 11: the
    first takes 27 bytes, more than ten, the second 33. *)
Definition cjk_call (story : string) : json :=
  JArray [tool_call "commit_user_story" (JObject [("story", JString story)])].

(** The same vars with an existing story of blanks only. *)
Definition blank_story_vars : StoryPromptVars :=
  mkPromptVars (Some "   ") "English" None None None None "User".

(** The structured result of "calls runtime with structured payload"
    (extractors/story.test.ts lines 54-66). *)
Definition extractor_test_result : UserStoryExtractionResult :=
  mkExtractionResult (Some "- updated") (Some ["mem-1"]) (Some "why") (Some ["src-1"])
    "# Story" (Some "summary").

(** [JSON.stringify] of that result, as the runtime mock returns it. *)
Definition extractor_test_args : string := json_stringify (encode_result extractor_test_result).

(** A call the assertion of cases.ts accepts but with a [null] summary. *)
Definition null_summary_output : json :=
  JArray [tool_call "commit_user_story"
            (JObject [("story", JString "# About User: loves TypeScript"); ("summary", JNull)])].

(** ** Properties *)

(** Whatever [is-valid-openai-tools-call] and the rubric's model answer,
    the case fails on a story of nine characters, though its UTF-8 text
    is 27 bytes long, and its javascript assertion accepts one of eleven:
    [length] counts UTF-16 code units, not bytes. *)
Example story_case_counts_utf16 validToolsCall grade :
  List.Forall (fun c => case_passes validToolsCall grade c (cjk_call "  我喜欢写代码和开源  ") = false)
    (story_cases json_parse) /\
  toolCallAssert json_parse (cjk_call "我喜欢写代码和开源项目") = true.
Proof.
  split; [|vm_compute; reflexivity].
  constructor; [|constructor]. vm_compute. by destruct (validToolsCall _).
Qed.

(** Each heading and each section's text is found in the user prompt. *)
Lemma buildUserPrompt_includes o x sub :
  In x ["## Existing Story (baseline)";
        trimmed_or (tp_existingStory o) "No existing story provided.";
        "## Retrieved Memories / Signals"; trimmed_or (tp_retrievedMemories o) "N/A";
        "## Recent Events or Highlights"; trimmed_or (tp_recentEvents o) "N/A";
        "## User Provided Notes or Requests"; trimmed_or (tp_storyNotes o) "N/A";
        "## Extra Profile Context"; trimmed_or (tp_userProfile o) "N/A"] ->
  js_includes x sub = true -> js_includes (buildUserPrompt o) sub = true.
Proof. apply js_join_includes. Qed.

Lemma parse_encode r : resultSchema_parse (encode_result r) = Ok r.
Proof.
  destruct r as [d m rs s st su].
  destruct d, m, rs, s, su; cbv -[zod_strings map]; rewrite ?zod_strings_map; reflexivity.
Qed.

(** The zod result schema reads back every extraction result from the
    arguments object that carries it: [resultSchema.parse] inverts
    [encode_result]. *)
Theorem resultSchema_roundtrip r : resultSchema_parse (encode_result r) = Ok r.
Proof. apply parse_encode. Qed.

(** [toolCall] takes the arguments of the first tool call, whatever
    the call's name and whatever follows it, and returns the result they
    carry. *)
Theorem toolCall_result_first_call JSON_parse name rest r :
  toolCall_result JSON_parse (JArray (tool_call name (encode_result r) :: rest)) = Ok r.
Proof. simpl. apply parse_encode. Qed.

(** Arguments given as a JSON string go through [JSON.parse] first: when
    it yields the object that carries [r], [toolCall] returns [r]. *)
Theorem toolCall_result_string_args JSON_parse name s rest r :
  s <> "" ->
  JSON_parse s = Ok (encode_result r) ->
  toolCall_result JSON_parse (JArray (tool_call name (JString s) :: rest)) = Ok r.
Proof.
  intros Hs Hp. simpl. unfold js_or. destruct (js_truthy s) eqn:Ht.
  - simpl. rewrite Hp. simpl. apply parse_encode.
  - apply js_truthy_false in Ht. contradiction.
Qed.

(** C34. Whatever result the model commits, sent as the [JSON.stringify] text
    of its arguments object, [toolCall] reads it back exactly: [JSON.parse],
    then [args || {}], then [resultSchema.parse], whatever the call's name
    and whatever calls follow. *)
Theorem toolCall_stringified_roundtrip name rest r :
  toolCall_result json_parse
    (JArray (tool_call name (JString (json_stringify (encode_result r))) :: rest)) = Ok r.
Proof.
  apply toolCall_result_string_args; [apply json_stringify_nonempty|apply json_parse_print].
Qed.

Lemma zod_opt_string_null p : zod_opt_string p (Some JNull) = Err (ZodError p).
Proof. reflexivity. Qed.

Lemma zod_opt_string_array_null p :
  zod_opt_string_array p (Some JNull) = Err (ZodError p).
Proof. reflexivity. Qed.

(** C37. An optional key of the result schema that the model sets to [null]
    makes [resultSchema.parse] throw: [.optional()] accepts a missing key,
    not [null]. *)
Theorem resultSchema_rejects_null fs k :
  k ∈ ["diff"; "memoryIds"; "reasoning"; "sourceIds"; "summary"] ->
  json_get k fs = Some JNull ->
  exists e, resultSchema_parse (JObject fs) = Err e.
Proof.
  intros Hk Hnull. unfold resultSchema_parse, res_bind. simpl.
  repeat rewrite elem_of_cons in Hk. rewrite elem_of_nil in Hk.
  destruct Hk as [->|[->|[->|[->|[->|[]]]]]]; rewrite Hnull;
    rewrite ?zod_opt_string_null, ?zod_opt_string_array_null; repeat case_match; eauto.
Qed.

(** The promptfoo evaluation builds the same user message as the
    extractor whenever the fields it passes need no trimming. *)
Theorem eval_prompt_agrees v :
  trimmed_opt (pv_existingStory v) -> trimmed_opt (pv_retrievedMemories v) ->
  trimmed_opt (pv_recentEvents v) -> trimmed_opt (pv_storyNotes v) ->
  trimmed_opt (pv_userProfile v) ->
  eval_userSections v = buildUserPrompt (props_of_vars v).
Proof.
  destruct v as [es l re rm sn up un]; simpl.
  unfold eval_userSections, buildUserPrompt, trimmed_or. simpl.
  destruct es, re, rm, sn, up; simpl; intros H1 H2 H3 H4 H5;
    rewrite ?H1, ?H2, ?H3, ?H4, ?H5; reflexivity.
Qed.

(** C38. The promptfoo evaluation sends the model the messages production
    sends: when the fields need no trimming and the template engine renders
    the same system prompt from the extractor's props as from the
    evaluation's vars, the messages of [generatePrompt] are those of the
    request [toolCall] builds for the same props and no additional
    messages. *)
Theorem eval_messages_agree render systemPrompt model v :
  trimmed_opt (pv_existingStory v) -> trimmed_opt (pv_retrievedMemories v) ->
  trimmed_opt (pv_recentEvents v) -> trimmed_opt (pv_storyNotes v) ->
  trimmed_opt (pv_userProfile v) ->
  systemPrompt (props_of_vars v) = render (pv_language v) 10%Z (pv_username v) ->
  generatePrompt render v
  = req_messages (toolCall_request systemPrompt model
                    (Some (mkExtractorOptions (props_of_vars v) []))).
Proof.
  intros H1 H2 H3 H4 H5 Hs. unfold generatePrompt, toolCall_request. simpl.
  by rewrite Hs, (eval_prompt_agrees v H1 H2 H3 H4 H5).
Qed.

(** On an existing story of blanks the evaluation and the extractor
    send different user messages: promptfoo keeps the blanks, the extractor
    trims them away and writes "No existing story provided.". *)
Theorem eval_prompt_diverges :
  eval_userSections blank_story_vars <> buildUserPrompt (props_of_vars blank_story_vars).
Proof. vm_compute. discriminate. Qed.

(** The evaluation's tool-call assertion and the extractor's parser
    disagree both ways: the assertion accepts a call whose summary is
    [null], which [toolCall] rejects; [toolCall] accepts a call of another
    name, which the assertion rejects. *)
Theorem eval_assert_vs_toolCall JSON_parse r :
  (toolCallAssert JSON_parse null_summary_output = true /\
   exists e, toolCall_result JSON_parse null_summary_output = Err e) /\
  (toolCallAssert JSON_parse (JArray [tool_call "save_story" (encode_result r)]) = false /\
   toolCall_result JSON_parse (JArray [tool_call "save_story" (encode_result r)]) = Ok r).
Proof.
  split; [split; [reflexivity|eexists; reflexivity]|].
  split; [reflexivity|]. simpl. apply parse_encode.
Qed.

Lemma zod_strings_ok_forallb p xs ss :
  zod_strings p xs = Ok ss -> forallb is_jstring xs = true.
Proof. intros H. rewrite (zod_strings_ok _ _ _ H). clear H. by induction ss; simpl. Qed.

Lemma zod_strings_err_forallb p xs e :
  zod_strings p xs = Err e -> forallb is_jstring xs = false.
Proof.
  revert e. induction xs as [|x xs IH]; intros e; simpl; [done|].
  destruct x; try done. destruct (zod_strings p xs) eqn:E; [done|]. intros _. by rewrite (IH e0).
Qed.

(** C39. The tool the model is offered and the schema its answer is parsed
    with agree: there is one tool, [commit_user_story], and an arguments
    value satisfies its JSON-schema [parameters] exactly when
    [resultSchema.parse] accepts it. *)
Theorem getTools_match_resultSchema :
  map tool_name getTools = ["commit_user_story"] /\
  Forall (fun t => forall v, tool_accepts t v = true <-> exists r, resultSchema_parse v = Ok r)
         getTools.
Proof.
  split; [reflexivity|]. constructor; [|constructor]. intros v.
  destruct v as [| | | | |fs]; cbn; try (split; [done|intros [r Hr]; discriminate]).
  unfold res_bind, zod_opt_string, zod_opt_string_array, zod_string.
  repeat (case_match; simpl); subst;
    repeat match goal with
           | H : zod_strings _ _ = Ok _ |- _ => rewrite (zod_strings_ok_forallb _ _ _ H); clear H
           | H : zod_strings _ _ = Err _ |- _ => rewrite (zod_strings_err_forallb _ _ _ H); clear H
           end; simpl;
    first [split; [intros _; eexists; reflexivity|done]
          |split; [done|intros [r Hr]; discriminate]].
Qed.

(** ** Witnesses *)

(** "calls runtime with structured payload": the JSON text of the mock's
    arguments yields the story "# Story". *)
Lemma toolCall_result_string_args_witness :
  extractor_test_args <> "" /\
  json_parse extractor_test_args = Ok (encode_result extractor_test_result) /\
  toolCall_result json_parse
    (JArray [tool_call "commit_user_story" (JString extractor_test_args)])
  = Ok extractor_test_result.
Proof.
  split; [vm_compute; discriminate|]. split; [vm_compute; reflexivity|].
  apply toolCall_result_string_args; [vm_compute; discriminate|vm_compute; reflexivity].
Defined.

Lemma resultSchema_rejects_null_witness :
  "summary" ∈ ["diff"; "memoryIds"; "reasoning"; "sourceIds"; "summary"] /\
  json_get "summary" [("story", JString "# Story"); ("summary", JNull)] = Some JNull /\
  exists e, resultSchema_parse (JObject [("story", JString "# Story"); ("summary", JNull)]) = Err e.
Proof.
  split; [set_solver|]. split; [reflexivity|].
  apply (resultSchema_rejects_null _ "summary"); [set_solver|reflexivity].
Defined.

(** The promptfoo case sends the extractor's user message. *)
Lemma eval_prompt_agrees_witness :
  trimmed_opt (pv_existingStory promptfoo_case_vars) /\
  eval_userSections promptfoo_case_vars = buildUserPrompt (props_of_vars promptfoo_case_vars).
Proof.
  split; [vm_compute; reflexivity|].
  apply eval_prompt_agrees; vm_compute; reflexivity.
Defined.

(** The promptfoo case, with a renderer that gives both sides the same
    system prompt. *)
Lemma eval_messages_agree_witness :
  trimmed_opt (pv_existingStory promptfoo_case_vars) /\
  generatePrompt (fun _ _ _ => "system") promptfoo_case_vars
  = req_messages (toolCall_request (fun _ => "system") "gpt-mock"
                    (Some (mkExtractorOptions (props_of_vars promptfoo_case_vars) []))).
Proof.
  split; [vm_compute; reflexivity|].
  apply eval_messages_agree; vm_compute; reflexivity.
Defined.
