(* ===== verification/Service.v ===== *)
(** * [UserStoryService.composeStory] and [buildUserStoryJobInput]

    Models src/server/services/memory/userStory/service.ts.
    - [buildUserStoryJobInput]: reads the user's latest story and their 20
      most recent memories, formats the memories as lines, and assembles the
      context text handed to the agent;
    - [composeStory]: calls the extractor's [toolCall] with options built
      from the payload and the configuration, then [upsertStory] with the
      agent's result.
    Both are written against the store interface [UserStoryDb] of
    [StoryStore.v], in the section [Service]: its variables are the
    interface instance, the configuration ([parseMemoryExtractionConfig]'s
    [agentStory]), the LLM call, [JSON.parse], the system prompt renderer,
    [Date.prototype.toISOString], and the two context providers
    ([RetrievalUserMemoryContextProvider], [...IdentitiesProvider]) whose
    XML comes from tables this development does not model. *)

From S2P Require Import Prelude Json JsonText Schema StoryModel StoryStore Extractor.

(** [UserStoryAgentPayload] (lines 19-31). *)
Record UserStoryAgentPayload := mkPayload {
  pl_existingStory : option string;
  pl_language : option string;
  pl_memoryIds : option (list string);
  pl_metadata : option json;
  pl_recentEvents : option string;
  pl_retrievedMemories : option string;
  pl_sourceIds : option (list string);
  pl_storyNotes : option string;
  pl_userId : string;
  pl_userProfile : option string;
  pl_username : option string;
}.

(** [UserStoryAgentResult] (lines 33-37); [document] is undefined when the
    update returned no row. *)
Record UserStoryAgentResult := mkAgentResult {
  ar_agentResult : UserStoryExtractionResult;
  ar_diff : option UserStoryDiff;
  ar_document : option UserStoryDocument;
}.

(** The part of [MemoryAgentConfig] the service reads. *)
Record AgentConfig := mkAgentConfig {
  cfg_language : option string;
  cfg_model : string;
}.

(** What [buildUserStoryJobInput] returns (lines 143-147). *)
Record JobInput := mkJobInput {
  ji_existingStory : option string;
  ji_memoryIds : list string;
  ji_retrievedMemories : option string;
}.

(** [orderBy: [desc(userMemories.capturedAt)]]: PostgreSQL sorts NULLs
    first in a descending order. *)
Definition mem_order (a b : UserMemory) : Prop :=
  match mem_capturedAt a, mem_capturedAt b with
  | None, _ => True
  | Some _, None => False
  | Some x, Some y => (y <= x)%Z
  end.

#[export] Instance mem_order_dec : RelDecision mem_order.
Proof.
  intros a b. unfold mem_order.
  destruct (mem_capturedAt a), (mem_capturedAt b); apply _.
Defined.

#[export] Instance mem_order_total : Total mem_order.
Proof.
  intros a b. unfold mem_order.
  destruct (mem_capturedAt a), (mem_capturedAt b); first [lia | auto].
Qed.

#[export] Instance mem_order_trans : Transitive mem_order.
Proof.
  intros a b c. unfold mem_order.
  destruct (mem_capturedAt a), (mem_capturedAt b), (mem_capturedAt c); done || lia.
Qed.

(** [{ ...context, userId }]: the payload the routes build from a job
    input. *)
Definition payload_of_job (ji : JobInput) (u : string) : UserStoryAgentPayload :=
  mkPayload (ji_existingStory ji) None (Some (ji_memoryIds ji)) None None
    (ji_retrievedMemories ji) None None u None None.

(** [` User Story for ${payload.username || 'User'} `]. *)
Definition story_title (username : option string) : string :=
  ("User Story for " ++ opt_or username "User")%string.

(** The options of [extractor.toolCall] (lines 64-72). *)
Definition compose_options (cfg : AgentConfig) (payload : UserStoryAgentPayload)
  : StoryExtractorOptions :=
  mkExtractorOptions
    (mkTemplateProps
       (or_undefined (pl_existingStory payload))
       (or_undefined (pl_language payload) ?? cfg_language cfg)
       (pl_recentEvents payload)
       (pl_retrievedMemories payload)
       (pl_storyNotes payload)
       (pl_userProfile payload)
       (pl_username payload))
    [].

(** The parameters of [storyModel.upsertStory] (lines 75-86). *)
Definition compose_params (payload : UserStoryAgentPayload)
    (agentResult : UserStoryExtractionResult) (now : Timestamp) : UpsertUserStoryParams :=
  {|
    up_capturedAt := Some now;
    up_diff := ur_diff agentResult;
    up_memoryIds := pl_memoryIds payload ?? ur_memoryIds agentResult;
    up_metadata := pl_metadata payload;
    up_reasoning := ur_reasoning agentResult;
    up_snapshot := Some (ur_story agentResult);
    up_sourceIds := pl_sourceIds payload ?? ur_sourceIds agentResult;
    up_story := ur_story agentResult;
    up_summary := ur_summary agentResult;
    up_title := Some (story_title (pl_username payload));
  |}.

(** [new UserStoryService(db)] (lines 45-55): [const { agentStory } =
    parseMemoryExtractionConfig()], then [this.preferredLanguage =
    agentStory.language] and [this.agentConfig = agentStory]; the argument
    is the [agentStory] the configuration holds, [undefined] when it holds
    none, and reading [language] of [undefined] throws. The model runtime
    the constructor also builds is only handed to the extractor, whose LLM
    call is the variable [generateObject] below. *)
Definition UserStoryService_new (agentStory : option AgentConfig) : res AgentConfig :=
  match agentStory with
  | Some a => Ok a
  | None => Err (TypeError "Cannot read properties of undefined (reading 'language')")
  end.

Section Service.
Context {S : Type} `{!UserStoryDb S}.
Variable cfg : AgentConfig.
Variable JSON_parse : string -> res json.
Variable systemPrompt : StoryTemplateProps -> string.
Variable generateObject : GenerateObjectRequest -> res json.
Variable toISOString : Timestamp -> string.
Variable contextXml : string -> string.
Variable identityXml : string -> string.

(** The extractor the service builds: [new UserStoryExtractor({ model })]. *)
Definition agent_toolCall (o : StoryExtractorOptions) : res UserStoryExtractionResult :=
  toolCall JSON_parse systemPrompt generateObject (cfg_model cfg) (Some o).

(** [composeStory(payload)] (lines 57-89). *)
Definition composeStory (payload : UserStoryAgentPayload) : st S UserStoryAgentResult :=
  agentResult <- st_lift (agent_toolCall (compose_options cfg payload)) ;;
  now <- st_gets store_clock ;;
  persisted <- store_upsert (pl_userId payload) (compose_params payload agentResult now) ;;
  st_ret (mkAgentResult agentResult (fst persisted) (snd persisted)).

(** One line of [recentMemoryLines] (lines 110-115). *)
Definition memory_line (m : UserMemory) : string :=
  let date := default "" (toISOString <$> mem_capturedAt m) in
  let title := opt_or (mem_title m) "Untitled memory" in
  let summary := opt_or (mem_summary m) (opt_or (mem_details m) "") in
  js_trim ("- [" ++ date ++ "] " ++ title ++ " — " ++ summary)%string.

(** [db.query.userMemories.findMany({ limit: 20, orderBy, where })]
    (lines 102-106). *)
Definition recent_memories (u : string) (s : S) : list UserMemory :=
  take 20 (merge_sort mem_order
             (List.filter (fun m => owned_by u (mem_userId m)) (store_memories s))).

(** [assembledContext] (lines 138-141). *)
Definition assembled_context (u : string) (recentMemoryLines : string) : option string :=
  or_undefined (Some (js_join (nl ++ nl)%string
    (List.filter js_truthy
       [if js_truthy recentMemoryLines
        then ("## Recent Memories" ++ nl ++ recentMemoryLines)%string else "";
        contextXml u; identityXml u]))).

(** [buildUserStoryJobInput(db, userId)] (lines 92-148). *)
Definition buildUserStoryJobInput (u : string) : st S JobInput :=
  latestStory <- store_latest u ;;
  memories <- st_gets (recent_memories u) ;;
  let recentMemoryLines := js_join nl (map memory_line memories) in
  st_ret (mkJobInput
            (or_undefined (latestStory ≫= doc_story))
            (map mem_id memories)
            (assembled_context u recentMemoryLines)).
End Service.

(** The memories of [u], in table order: the rows the [where] clause of
    [findMany] selects. *)
Definition user_memories {S} `{!UserStoryDb S} (u : string) (s : S) : list UserMemory :=
  List.filter (fun m => owned_by u (mem_userId m)) (store_memories s).

(** ** The scenario of service.test.ts

    The extractor's mock returns [structuredResult]; the database holds the
    test user; [svc_cfg] is a configuration whose [agentStory] names the
    model and the language of the test's expectations. *)
Definition svc_cfg : AgentConfig := mkAgentConfig (Some "English") "gpt-mock".

Definition svc_result : UserStoryExtractionResult :=
  mkExtractionResult (Some "- updated") (Some ["mem-1"]) (Some "reason") (Some ["src-1"])
    "# Story" (Some "summary").

Definition svc_parse : string -> res json := json_parse.
Definition svc_prompt (_ : StoryTemplateProps) : string := "".
Definition svc_generate (_ : GenerateObjectRequest) : res json := Ok (encode_result svc_result).
Definition svc_failing (_ : GenerateObjectRequest) : res json :=
  Err (ProviderError "rate limited").

(** [{ userId, username: 'User' }], the payload of the second test. *)
Definition svc_payload : UserStoryAgentPayload :=
  mkPayload None None None None None None None None "story-user" None (Some "User").

(** A payload for a user the [users] table does not hold. *)
Definition svc_ghost_payload : UserStoryAgentPayload :=
  mkPayload None None None None None None None None "ghost" None (Some "User").

Definition svc_compose : UserStoryAgentPayload -> st Tables UserStoryAgentResult :=
  composeStory svc_cfg svc_parse svc_prompt svc_generate.

(** The tables after the first [composeStory] of the test. *)
Definition svc_db_v1 : Tables := snd (svc_compose svc_payload
  (mkTables {["story-user"; "story-user-2"]} [] [] [] 0%N 0%Z)).

(** A user with two memories, one without a capture time. *)
Definition svc_memories : list UserMemory :=
  [mkUserMemory "m1" (Some "story-user") (Some "Trip") (Some "Went to Rome") None (Some 5%Z);
   mkUserMemory "m2" (Some "story-user") None None (Some "details") None;
   mkUserMemory "m3" (Some "story-user-2") None None None (Some 9%Z)].

Definition svc_db : Tables :=
  mkTables {["story-user"; "story-user-2"]} [] [] svc_memories 0%N 0%Z.

Definition svc_iso (_ : Timestamp) : string := "1970-01-01T00:00:00.000Z".
Definition svc_noxml (_ : string) : string := "".

(** ** [composeStory] against the laws of the store *)

(** The service passes the story as the snapshot, so a non-empty story
    always makes [hasDiff] true. *)
Lemma compose_params_hasDiff payload r now :
  js_truthy (ur_story r) = true -> hasDiff (compose_params payload r now) = true.
Proof. intros H. unfold hasDiff. simpl. by rewrite H, orb_true_r, !orb_true_l. Qed.

Section ComposeLaws.
Context {S : Type} `{!UserStoryDb S} `{Hlaws : !UserStoryDbLaws S}.
Variable cfg : AgentConfig.
Variable JSON_parse : string -> res json.
Variable systemPrompt : StoryTemplateProps -> string.
Variable generateObject : GenerateObjectRequest -> res json.

Local Abbreviation agent := (agent_toolCall cfg JSON_parse systemPrompt generateObject).
Local Abbreviation compose := (composeStory cfg JSON_parse systemPrompt generateObject).

Lemma composeStory_eq payload (s : S) :
  compose payload s =
  match agent (compose_options cfg payload) with
  | Err e => (Err e, s)
  | Ok r =>
      match store_upsert (pl_userId payload) (compose_params payload r (store_clock s)) s with
      | (Ok (diff, doc), s') => (Ok (mkAgentResult r diff doc), s')
      | (Err e, s') => (Err e, s')
      end
  end.
Proof.
  unfold composeStory, st_bind, st_lift, st_gets, st_ret.
  destruct (agent _) as [r|e]; [|done].
  by destruct (store_upsert _ _ s) as [[[diff doc]|e] s'].
Qed.

(** C4. A successful [composeStory] stores the agent's story as the user's
    story, at the version after the one it read, leaves every other user's
    story alone, and keeps the store well formed. *)
Theorem composeStory_persists payload (s : S) r s' :
  store_wf s -> composeStory cfg JSON_parse systemPrompt generateObject payload s = (Ok r, s') ->
  store_view (pl_userId payload) s' =
    Some (mkView (Some (ur_story (ar_agentResult r)))
                 (default 0%Z (view_version <$> store_view (pl_userId payload) s) + 1)) /\
  (forall u', u' <> pl_userId payload -> store_view u' s' = store_view u' s) /\
  store_wf s'.
Proof using Hlaws.
  intros Hwf H. rewrite composeStory_eq in H.
  destruct (agent _) as [a|e]; [|done].
  pose proof (law_upsert_wf (pl_userId payload) (compose_params payload a (store_clock s)) s Hwf) as Hw.
  destruct (store_upsert _ _ s) as [[[diff doc]|e] s''] eqn:E; [|done]. invc H.
  destruct (law_upsert_ok _ _ _ _ _ Hwf E) as (Hv & Ho & _).
  split; [by rewrite Hv|]. by split.
Qed.

(** When the extractor's call fails (the provider throws, the tool's
    arguments are not JSON, or zod rejects them), [composeStory] throws the
    same error and writes nothing. *)
Theorem composeStory_agent_error payload (s : S) e :
  agent_toolCall cfg JSON_parse systemPrompt generateObject
      (compose_options cfg payload) = Err e -> composeStory cfg JSON_parse systemPrompt generateObject payload s = (Err e, s).
Proof. intros H. by rewrite composeStory_eq, H. Qed.

(** C18. A failed [composeStory] changes no user's story, no user and no
    memory: the upsert's transaction rolls back. *)
Theorem composeStory_error_no_change payload (s : S) e s' :
  composeStory cfg JSON_parse systemPrompt generateObject payload s = (Err e, s') ->
  (forall u', store_view u' s' = store_view u' s) /\
  (forall u', store_is_user u' s' <-> store_is_user u' s) /\
  store_memories s' = store_memories s.
Proof using Hlaws.
  intros H. rewrite composeStory_eq in H.
  destruct (agent _) as [a|e']; [|invc H; done].
  destruct (store_upsert _ _ s) as [[[diff doc]|e'] s''] eqn:E; [done|]. invc H.
  exact (law_upsert_err _ _ _ _ _ E).
Qed.

(** C19. Once the extractor returns, [composeStory] succeeds for every
    existing user whose story is below the largest int4 version, when the
    title [User Story for <username>] fits [varchar(255)], and returns the
    extractor's result. *)
Theorem composeStory_progress payload (s : S) r :
  store_wf s -> store_is_user (pl_userId payload) s ->
  (default 0%Z (view_version <$> store_view (pl_userId payload) s) < INT4_MAX)%Z ->
  varchar255_ok (Some (story_title (pl_username payload))) = true ->
  agent_toolCall cfg JSON_parse systemPrompt generateObject (compose_options cfg payload) = Ok r ->
  exists res s', composeStory cfg JSON_parse systemPrompt generateObject
      payload s = (Ok res, s') /\ ar_agentResult res = r.
Proof using Hlaws.
  intros Hwf Hu Hlt Ht Ha. rewrite composeStory_eq, Ha.
  destruct (law_upsert_progress (pl_userId payload)
              (compose_params payload r (store_clock s)) s Hwf Hu Hlt Ht)
    as ([diff doc] & s' & ->).
  eauto.
Qed.

End ComposeLaws.

(** ** [buildUserStoryJobInput] against the laws of the store *)

Section JobLaws.
Context {S : Type} `{!UserStoryDb S} `{Hlaws : !UserStoryDbLaws S}.
Variable toISOString : Timestamp -> string.
Variable contextXml identityXml : string -> string.

Local Abbreviation jobInput := (buildUserStoryJobInput toISOString contextXml identityXml).

Lemma memory_line_nonempty m : memory_line toISOString m <> "".
Proof. unfold memory_line. by apply js_trim_cons_nonempty. Qed.

Lemma memory_lines_empty ms : js_join nl (map (memory_line toISOString) ms) = "" <-> ms = [].
Proof.
  split; [|by intros ->]. intros H. destruct ms as [|m ms]; [done|]. exfalso.
  apply (js_join_nonempty nl (map (memory_line toISOString) (m :: ms))); [done| |exact H].
  apply Forall_forall. intros x Hx. apply in_map_iff in Hx as (m' & <- & _).
  apply memory_line_nonempty.
Qed.

Lemma assembled_context_none u lines :
  assembled_context contextXml identityXml u lines = None <->
  lines = "" /\ contextXml u = "" /\ identityXml u = "".
Proof.
  unfold assembled_context. rewrite or_undefined_none, js_join_filter_empty, filter_truthy_nil.
  rewrite !Forall_cons_iff. destruct (js_truthy lines) eqn:E.
  - apply js_truthy_true in E. split; [by intros [? _]|by intros [? _]].
  - apply js_truthy_false in E as ->.
    split; [intros (_ & ? & ? & _)|intros (_ & ? & ?)]; repeat split; try done; constructor.
Qed.

Lemma latest_story (l : option UserStoryDocument) v :
  (fun d => mkView (doc_story d) (doc_version d)) <$> l = v ->
  l ≫= doc_story = v ≫= view_story.
Proof. intros <-. by destruct l. Qed.

Lemma buildJobInput_eq u (s : S) :
  store_wf s ->
  exists l, jobInput u s =
    (Ok (mkJobInput (or_undefined (l ≫= doc_story)) (map mem_id (recent_memories u s))
           (assembled_context contextXml identityXml u
              (js_join nl (map (memory_line toISOString) (recent_memories u s))))), s) /\
    (fun d => mkView (doc_story d) (doc_version d)) <$> l = store_view u s.
Proof using Hlaws.
  intros Hwf. destruct (law_latest u s Hwf) as (l & Hl & Hv).
  exists l. split; [|done]. unfold buildUserStoryJobInput, st_bind, st_gets, st_ret.
  by rewrite Hl.
Qed.

Lemma recent_memories_split u (s : S) :
  exists rest, recent_memories u s ++ rest ≡ₚ user_memories u s /\
               StronglySorted mem_order (recent_memories u s ++ rest).
Proof.
  exists (drop 20 (merge_sort mem_order (user_memories u s))).
  unfold recent_memories. fold (user_memories u s). rewrite take_drop.
  split; [apply merge_sort_Permutation|apply StronglySorted_merge_sort; apply _].
Qed.

Lemma user_memories_elem u (s : S) m :
  m ∈ user_memories u s <-> m ∈ store_memories s /\ mem_userId m = Some u.
Proof.
  unfold user_memories. rewrite !list_elem_of_In, filter_In.
  unfold owned_by. destruct (mem_userId m) as [x|].
  - rewrite String.eqb_eq. split; intros [Hm Hx]; split; try done; [by subst|by injection Hx].
  - split; intros [_ Hx]; discriminate.
Qed.

(** [buildUserStoryJobInput] reads without writing: the baseline it
    returns is the user's stored story, [undefined] when there is none or it
    is empty, and the memory ids are those of the memories it selected. *)
Theorem buildUserStoryJobInput_baseline u (s : S) :
  store_wf s ->
  exists ji, buildUserStoryJobInput toISOString contextXml identityXml u s = (Ok ji, s) /\
    ji_existingStory ji = or_undefined (store_view u s ≫= view_story) /\
    ji_memoryIds ji = map mem_id (recent_memories u s).
Proof using Hlaws.
  intros Hwf. destruct (buildJobInput_eq u s Hwf) as (l & -> & Hv).
  eexists. split; [reflexivity|]. simpl. by rewrite (latest_story _ _ Hv).
Qed.

(** C20. The context handed to the agent is [undefined] exactly when the user
    has no memory and both context providers render nothing. *)
Theorem buildUserStoryJobInput_context_none u (s : S) :
  store_wf s ->
  exists ji, buildUserStoryJobInput toISOString contextXml identityXml u s = (Ok ji, s) /\
    (ji_retrievedMemories ji = None <->
     user_memories u s = [] /\ contextXml u = "" /\ identityXml u = "").
Proof using Hlaws.
  intros Hwf. destruct (buildJobInput_eq u s Hwf) as (l & -> & _).
  eexists. split; [reflexivity|]. simpl.
  rewrite assembled_context_none, memory_lines_empty.
  destruct (recent_memories_split u s) as (rest & Hp & _).
  cut (recent_memories u s = [] <-> user_memories u s = []); [by intros ->|].
  split; intros H.
  - rewrite H in Hp. simpl in Hp. apply Permutation_nil_r.
    unfold recent_memories in H. fold (user_memories u s) in H.
    destruct (merge_sort mem_order (user_memories u s)) eqn:E; [|done].
    by rewrite <- (merge_sort_Permutation mem_order (user_memories u s)), E.
  - unfold recent_memories. fold (user_memories u s). rewrite H. done.
Qed.

(** C26. The memories the job reads are at most 20 memories of the user,
    as many as the user has up to 20, most recent first (a memory without
    capture time counts as the most recent, as PostgreSQL sorts NULLs first
    in a descending order), and every memory of the user left out is no
    more recent than every memory kept. *)
Theorem recent_memories_spec u (s : S) :
  length (recent_memories u s) = Nat.min 20 (length (user_memories u s)) /\
  Forall (fun m => m ∈ store_memories s /\ mem_userId m = Some u) (recent_memories u s) /\
  Sorted mem_order (recent_memories u s) /\
  (forall m k, m ∈ recent_memories u s -> k ∈ user_memories u s ->
               k ∉ recent_memories u s -> mem_order m k).
Proof.
  destruct (recent_memories_split u s) as (rest & Hp & Hs).
  split; [|split; [|split]].
  - unfold recent_memories. fold (user_memories u s).
    by rewrite length_take, merge_sort_Permutation.
  - apply Forall_forall. intros m Hm. apply user_memories_elem.
    rewrite <- Hp. apply elem_of_app. left. by apply list_elem_of_In.
  - apply StronglySorted_Sorted. by apply StronglySorted_app_1_l in Hs.
  - intros m k Hm Hk Hn. apply (StronglySorted_app_1_elem_of _ _ _ _ _ Hs Hm).
    rewrite <- Hp, elem_of_app in Hk. by destruct Hk.
Qed.

(** C25. The job pipeline of the routes ([buildUserStoryJobInput], then
    [composeStory] with [{ ...context, userId }]) hands the extractor the
    user's stored story as its baseline, [undefined] when there is none. *)
Theorem job_then_compose_baseline cfg u (s : S) :
  store_wf s ->
  exists ji, buildUserStoryJobInput toISOString contextXml identityXml u s = (Ok ji, s) /\
    tp_existingStory (opt_props (compose_options cfg (payload_of_job ji u)))
    = or_undefined (store_view u s ≫= view_story).
Proof using Hlaws.
  intros Hwf. destruct (buildJobInput_eq u s Hwf) as (l & -> & Hv).
  eexists. split; [reflexivity|]. simpl. by rewrite or_undefined_idem, (latest_story _ _ Hv).
Qed.

End JobLaws.

(** ** On the tables *)

(** C22. On the tables, every successful [composeStory] whose story is not
    empty appends a diff row, even when the story is the one already
    stored: the snapshot the service passes makes [hasDiff] true. *)
Theorem composeStory_always_diff cfg JSON_parse systemPrompt generateObject payload db r db' :
  db_wf db ->
  composeStory cfg JSON_parse systemPrompt generateObject payload db = (Ok r, db') ->
  js_truthy (ur_story (ar_agentResult r)) = true ->
  exists f, ar_diff r = Some f /\ userStoryDiffs db' = userStoryDiffs db ++ [f].
Proof.
  intros Hwf H Ht. rewrite composeStory_eq in H.
  destruct (agent_toolCall _ _ _ _ _) as [a|e]; [|done].
  destruct (store_upsert _ _ db) as [[[diff doc]|e] db''] eqn:E; [|done]. invc H.
  simpl in E, Ht.
  destruct (upsertStory_ok_inv _ _ _ _ _ _ Hwf E) as (d & _ & _ & _ & _ & Hl & Hn & _).
  destruct diff as [f|]; [by exists f|].
  exfalso. pose proof (proj1 Hn eq_refl) as Hf. by rewrite compose_params_hasDiff in Hf.
Qed.

(** ** The scenario of service.test.ts *)

(** "passes existing story baseline on subsequent runs": after the first run
    the user's story is ["# Story"], yet the second [composeStory] of the
    test, whose payload has no [existingStory], hands the extractor no
    baseline; the baseline only comes through [buildUserStoryJobInput]. *)
Example composeStory_test_second_run :
  view_of "story-user" svc_db_v1 = Some (mkView (Some "# Story") 1) /\
  tp_existingStory (opt_props (compose_options svc_cfg svc_payload)) = None.
Proof. split; vm_compute; reflexivity. Qed.

Lemma composeStory_persists_witness :
  db_wf svc_db /\
  view_of "story-user" (snd (svc_compose svc_payload svc_db)) = Some (mkView (Some "# Story") 1).
Proof.
  assert (Hw : db_wf svc_db) by wf_by_check. split; [exact Hw|].
  destruct (svc_compose svc_payload svc_db) as [[r|e] s'] eqn:E; [|vm_compute in E; discriminate].
  destruct (@composeStory_persists Tables tables_db tables_db_laws
              svc_cfg svc_parse svc_prompt svc_generate svc_payload svc_db
              r s' Hw E) as (Hv & _).
  simpl in Hv |- *. rewrite Hv. vm_compute in E. injection E as Hr Hs. subst r. reflexivity.
Defined.

Lemma composeStory_agent_error_witness :
  agent_toolCall svc_cfg svc_parse svc_prompt svc_failing (compose_options svc_cfg svc_payload)
  = Err (ProviderError "rate limited") /\
  composeStory svc_cfg svc_parse svc_prompt svc_failing svc_payload svc_db
  = (Err (ProviderError "rate limited"), svc_db).
Proof. split; [reflexivity|]. apply composeStory_agent_error. reflexivity. Defined.

Lemma composeStory_error_no_change_witness :
  match svc_compose svc_ghost_payload svc_db with
  | (Err _, s') => view_of "story-user" s' = view_of "story-user" svc_db /\
                   userMemories s' = svc_memories
  | (Ok _, _) => False
  end.
Proof.
  destruct (svc_compose svc_ghost_payload svc_db) as [[r|e] s'] eqn:E;
    [vm_compute in E; discriminate|].
  destruct (composeStory_error_no_change svc_cfg svc_parse svc_prompt svc_generate
              svc_ghost_payload svc_db e s' E) as (Hv & _ & Hm).
  split; [apply Hv|exact Hm].
Defined.

Lemma composeStory_progress_witness :
  db_wf svc_db /\ "story-user" ∈ users svc_db /\
  exists res s', svc_compose svc_payload svc_db = (Ok res, s') /\ ar_agentResult res = svc_result.
Proof.
  split; [wf_by_check|]. split; [vm_compute; set_solver|].
  apply (composeStory_progress svc_cfg svc_parse svc_prompt svc_generate svc_payload svc_db svc_result);
    [wf_by_check|vm_compute; set_solver|vm_compute; reflexivity|reflexivity|vm_compute; reflexivity].
Defined.

Lemma composeStory_always_diff_witness :
  db_wf svc_db_v1 /\
  match svc_compose svc_payload svc_db_v1 with
  | (Ok r, db') => exists f, ar_diff r = Some f /\ userStoryDiffs db' = userStoryDiffs svc_db_v1 ++ [f]
  | (Err _, _) => False
  end.
Proof.
  assert (Hw : db_wf svc_db_v1) by wf_by_check. split; [exact Hw|].
  destruct (svc_compose svc_payload svc_db_v1) as [[r|e] s'] eqn:E; [|vm_compute in E; discriminate].
  apply (composeStory_always_diff svc_cfg svc_parse svc_prompt svc_generate svc_payload svc_db_v1
           r s' Hw E).
  vm_compute in E. injection E as Hr Hs. subst r. reflexivity.
Defined.

Lemma buildUserStoryJobInput_baseline_witness :
  db_wf svc_db_v1 /\
  exists ji, buildUserStoryJobInput svc_iso svc_noxml svc_noxml "story-user" svc_db_v1
             = (Ok ji, svc_db_v1) /\ ji_existingStory ji = Some "# Story" /\ ji_memoryIds ji = [].
Proof.
  assert (Hw : db_wf svc_db_v1) by wf_by_check. split; [exact Hw|].
  destruct (@buildUserStoryJobInput_baseline Tables tables_db tables_db_laws
              svc_iso svc_noxml svc_noxml "story-user" svc_db_v1
              Hw) as (ji & H & He & Hm).
  exists ji. split; [exact H|]. rewrite He, Hm. split; vm_compute; reflexivity.
Defined.

Lemma buildUserStoryJobInput_context_none_witness :
  db_wf svc_db /\
  exists ji, buildUserStoryJobInput svc_iso svc_noxml svc_noxml "ghost" svc_db = (Ok ji, svc_db) /\
             ji_retrievedMemories ji = None.
Proof.
  assert (Hw : db_wf svc_db) by wf_by_check. split; [exact Hw|].
  destruct (@buildUserStoryJobInput_context_none Tables tables_db tables_db_laws
              svc_iso svc_noxml svc_noxml "ghost" svc_db
              Hw) as (ji & H & Hiff).
  exists ji. split; [exact H|]. apply Hiff. split; [vm_compute; reflexivity|split; reflexivity].
Defined.

Lemma job_then_compose_baseline_witness :
  db_wf svc_db_v1 /\
  exists ji, buildUserStoryJobInput svc_iso svc_noxml svc_noxml "story-user" svc_db_v1
             = (Ok ji, svc_db_v1) /\
    tp_existingStory (opt_props (compose_options svc_cfg (payload_of_job ji "story-user")))
    = Some "# Story".
Proof.
  assert (Hw : db_wf svc_db_v1) by wf_by_check. split; [exact Hw|].
  destruct (@job_then_compose_baseline Tables tables_db tables_db_laws
              svc_iso svc_noxml svc_noxml svc_cfg "story-user" svc_db_v1
              Hw) as (ji & H & He).
  exists ji. split; [exact H|]. rewrite He. vm_compute. reflexivity.
Defined.
