(* ===== verification/Routes.v ===== *)
(** * The two entry points that run the job for a batch of users

    Models src/src/app/(backend)/api/workflows/user-story/process/route.ts
    (the workflow's [POST], run by the Upstash workflow runtime) and
    src/src/app/(backend)/api/webhooks/user-story/route.ts (the webhook's
    [POST]).  Both parse [{ userId?, userIds? }] with zod, collect the ids
    ([collect_userIds]) and run, for each id in order, the job
    [buildUserStoryJobInput] then [composeStory] ([compose_user]).  The
    workflow answers a summary per user and lets a throw escape to its
    runtime, which retries; the webhook first checks the configured
    headers, answers the whole results, and turns every throw into a 500
    response.  Neither handler rolls back the users already processed when a
    later one throws.

    The handlers are written against the store interface of [StoryStore.v];
    the configuration [new UserStoryService(db)] stores
    ([UserStoryService_new]) is the section variable [cfg]; [getServerDB]
    and [console.error] are not modelled, and the text of an error's [message]
    is the section variable [errorMessage]. *)

From S2P Require Import Prelude Json Schema StoryModel StoryStore Extractor Service.

#[local] Set Warnings "-clear-no-such-hyp".

(** [{ userId?: string, userIds?: string[] }], the parsed body. *)
Record BatchPayload := mkBatchPayload {
  bp_userId : option string;
  bp_userIds : option (list string);
}.

(** [workflowPayloadSchema.parse] and [userStoryWebhookSchema.parse]: the
    two schemas are the same [z.object]. *)
Definition batchSchema_parse (v : json) : res BatchPayload :=
  fs <-? zod_object "" v ;;
  userId <-? zod_opt_string "userId" (json_get "userId" fs) ;;
  userIds <-? zod_opt_string_array "userIds" (json_get "userIds" fs) ;;
  Ok (mkBatchPayload userId userIds).

(** [Array.from(new Set([...(payload.userIds || []),
    ...(payload.userId ? [payload.userId] : [])])).filter(Boolean)]. *)
Definition collect_userIds (p : BatchPayload) : list string :=
  List.filter js_truthy
    (set_from (default [] (bp_userIds p) ++
               match bp_userId p with
               | Some u => if js_truthy u then [u] else []
               | None => []
               end)).

(** [context.requestPayload || {}]. *)
Definition request_payload (v : option json) : json :=
  match v with
  | Some j => if json_truthy j then j else JObject []
  | None => JObject []
  end.

(** An entry of the workflow's [results]. *)
Record WorkflowItem := mkWorkflowItem {
  wi_diffId : option Id;
  wi_documentId : Id;
  wi_userId : string;
  wi_version : Z;
}.

(** What the workflow's step returns; [results] is absent from the answer
    to an empty batch. *)
Record WorkflowResponse := mkWorkflowResponse {
  wr_message : string;
  wr_processedUsers : nat;
  wr_results : option (list WorkflowItem);
}.

(** The JSON body of a webhook response. *)
Inductive WebhookBody :=
  | WhError (error : string)
  | WhOk (message : string) (results : list (string * UserStoryAgentResult)).

(** [NextResponse.json(body, { status })]. *)
Record Response := mkResponse {
  resp_status : Z;
  resp_body : WebhookBody;
}.

(** [results.push({ diffId: result.diff?.id, documentId: result.document.id,
    userId, version: result.document.version })]. *)
Definition workflow_item (u : string) (r : UserStoryAgentResult) : res WorkflowItem :=
  match ar_document r with
  | Some d => Ok (mkWorkflowItem (diff_id <$> ar_diff r) (doc_id d) u (doc_version d))
  | None => Err (TypeError "Cannot read properties of undefined (reading 'id')")
  end.

(** The loop over [Object.entries(webhookHeaders)]: the first configured
    header the request does not carry with the configured value. *)
Fixpoint header_failure (hs : list (string * string)) (get : string -> option string)
  : option string :=
  match hs with
  | [] => None
  | (k, v) :: hs' => if decide (get k = Some v) then header_failure hs' get else Some k
  end.

(** The ids a request body asks for: none when it does not parse. *)
Definition payload_userIds (v : json) : list string :=
  match batchSchema_parse v with Ok p => collect_userIds p | Err _ => [] end.

Section Routes.
Context {S : Type} `{!UserStoryDb S}.
Variable cfg : AgentConfig.
Variable JSON_parse : string -> res json.
Variable systemPrompt : StoryTemplateProps -> string.
Variable generateObject : GenerateObjectRequest -> res json.
Variable toISOString : Timestamp -> string.
Variable contextXml identityXml : string -> string.
(** [(error as Error).message]. *)
Variable errorMessage : Error -> string.

(** The body of the loop of both handlers:
    [const context = await buildUserStoryJobInput(db, userId);
     const result = await service.composeStory({ ...context, userId });]. *)
Definition compose_user (u : string) : st S UserStoryAgentResult :=
  context <- buildUserStoryJobInput toISOString contextXml identityXml u ;;
  composeStory cfg JSON_parse systemPrompt generateObject (payload_of_job context u).

(** The workflow's step (process/route.ts, lines 12-43). *)
Definition workflow_POST (requestPayload : option json) : st S WorkflowResponse :=
  payload <- st_lift (batchSchema_parse (request_payload requestPayload)) ;;
  let userIds := collect_userIds payload in
  if decide (length userIds = 0) then
    st_ret (mkWorkflowResponse "userId or userIds is required" 0 None)
  else
    results <- st_for (fun u => result <- compose_user u ;; st_lift (workflow_item u result))
                 userIds ;;
    st_ret (mkWorkflowResponse "User story processed via workflow." (length userIds)
              (Some results)).

(** The webhook (webhooks/user-story/route.ts, lines 13-58): [getHeader] is
    [req.headers.get] and [body] is what [req.json()] resolves to or throws. *)
Definition webhook_POST (webhookHeaders : option (list (string * string)))
    (getHeader : string -> option string) (body : res json) : st S Response :=
  match header_failure (default [] webhookHeaders) getHeader with
  | Some key =>
      st_ret (mkResponse 403
                (WhError ("Unauthorized: Missing or invalid header '" ++ key ++ "'")))
  | None =>
      st_catch
        (json <- st_lift body ;;
         payload <- st_lift (batchSchema_parse json) ;;
         let userIds := collect_userIds payload in
         if decide (length userIds = 0) then
           st_ret (mkResponse 400 (WhError "userId or userIds is required"))
         else
           results <- st_for (fun u => result <- compose_user u ;; st_ret (u, result)) userIds ;;
           st_ret (mkResponse 200 (WhOk "User story generated via webhook." results)))
        (fun e => st_ret (mkResponse 500 (WhError (errorMessage e))))
  end.
End Routes.

(** A batch whose second user does not exist: its job throws a
    foreign-key violation after the first user's story is written. *)
Definition retry_body : json :=
  JObject [("userIds", JArray [JString "story-user"; JString "ghost"])].

Definition svc_workflow : option json -> st Tables WorkflowResponse :=
  workflow_POST svc_cfg svc_parse svc_prompt svc_generate svc_iso svc_noxml svc_noxml.

(** [{ userId: 'story-user', userIds: ['story-user-2', 'story-user'] }]. *)
Definition ok_body : json :=
  JObject [("userId", JString "story-user");
           ("userIds", JArray [JString "story-user-2"; JString "story-user"])].

(** [{ userIds: 'story-user' }]: not an array. *)
Definition bad_body : json := JObject [("userIds", JString "story-user")].

(** A request without headers, and an error's message. *)
Definition svc_get (_ : string) : option string := None.
Definition svc_errmsg (e : Error) : string :=
  match e with
  | DbError _ c => c
  | TypeError m | ZodError m | SyntaxError m | ProviderError m => m
  end.

Definition svc_webhook := webhook_POST svc_cfg svc_parse svc_prompt svc_generate svc_iso
  svc_noxml svc_noxml svc_errmsg (S := Tables).

(** ** One user's job against the laws of the store *)

Lemma collect_userIds_In p x :
  In x (collect_userIds p) <->
  x <> "" /\ (In x (default [] (bp_userIds p)) \/ bp_userId p = Some x).
Proof.
  unfold collect_userIds. rewrite filter_In, (proj2 (set_from_spec _)), in_app_iff, js_truthy_true.
  destruct (bp_userId p) as [u|]; [destruct (js_truthy u) eqn:Eu|]; simpl;
    [|apply js_truthy_false in Eu as ->|]; intuition congruence.
Qed.

Lemma collect_userIds_nodup p : NoDup (collect_userIds p).
Proof.
  apply NoDup_ListNoDup. unfold collect_userIds. apply List.NoDup_filter.
  apply (proj1 (set_from_spec _)).
Qed.

(** C27. The ids of a batch, [Array.from(new Set([...userIds, userId]))
    .filter(Boolean)], hold each requested non-empty id once, nothing else,
    in the order of their first request: they are the non-empty ones among
    the first occurrences of [userIds] followed by [userId]. *)
Theorem collect_userIds_spec p :
  NoDup (collect_userIds p) /\
  (forall x, x ∈ collect_userIds p <->
             x <> "" /\ (x ∈ default [] (bp_userIds p) \/ bp_userId p = Some x)) /\
  collect_userIds p =
  List.filter js_truthy (first_occurrences (default [] (bp_userIds p) ++ option_list (bp_userId p))).
Proof.
  split; [apply collect_userIds_nodup|]. split.
  - intros x. rewrite !list_elem_of_In. apply collect_userIds_In.
  - unfold collect_userIds. rewrite <- set_from_first_occurrences.
    destruct (bp_userId p) as [u|]; simpl; [|done].
    destruct (js_truthy u) eqn:Eu; [done|]. rewrite app_nil_r.
    symmetry. by apply filter_set_from_aux_snoc.
Qed.

(** The results of a loop, when each one carries the user it is for, list
    the users of the loop. *)
Lemma Forall2_results_keys {B} (key : B -> string) (P : string -> B -> Prop) us bs :
  (forall u b, P u b -> key b = u) -> Forall2 P us bs -> map key bs = us.
Proof. intros Hk Hf. induction Hf as [|u b us bs Hb _ IH]; [done|]. simpl. by rewrite IH, (Hk _ _ Hb). Qed.

Lemma header_failure_none hs get :
  header_failure hs get = None <-> forall k v, (k, v) ∈ hs -> get k = Some v.
Proof.
  induction hs as [|[k v] hs IH]; simpl; [split; [intros _ ? ? Hin; by apply elem_of_nil in Hin|done]|].
  case_decide as Hk.
  - rewrite IH. split; intros H k' v' Hin; [|apply H; by right].
    apply elem_of_cons in Hin as [Hin|Hin]; [by injection Hin as -> ->|by apply H].
  - split; [done|]. intros H. exfalso. apply Hk, H. by left.
Qed.

Lemma header_failure_some hs get key :
  header_failure hs get = Some key -> exists v, (key, v) ∈ hs /\ get key <> Some v.
Proof.
  induction hs as [|[k v] hs IH]; simpl; [done|]. case_decide as Hk.
  - intros H. destruct (IH H) as (v' & Hin & Hne). exists v'. split; [by right|done].
  - intros [= ->]. exists v. split; [by left|done].
Qed.

Lemma elem_of_take_l {A} (x : A) k l : x ∈ take k l -> x ∈ l.
Proof. rewrite !list_elem_of_In. apply In_take. Qed.

Lemma count_nil (x : string) : (if decide (x ∈ []) then 1 else 0)%Z = 0%Z.
Proof. rewrite decide_False; [done|apply not_elem_of_nil]. Qed.

Lemma count_cons_ne (x y : string) l :
  x <> y -> (if decide (x ∈ y :: l) then 1 else 0)%Z = (if decide (x ∈ l) then 1 else 0)%Z.
Proof. intros Hne. repeat case_decide; try done; exfalso; set_solver. Qed.

Lemma count_cons_eq (x : string) l :
  x ∉ l -> (if decide (x ∈ x :: l) then 1 else 0)%Z = ((if decide (x ∈ l) then 1 else 0) + 1)%Z.
Proof. intros Hx. repeat case_decide; try done; exfalso; set_solver. Qed.


Section RoutesLaws.
Context {S : Type} `{!UserStoryDb S} `{Hlaws : !UserStoryDbLaws S}.
Variable cfg : AgentConfig.
Variable JSON_parse : string -> res json.
Variable systemPrompt : StoryTemplateProps -> string.
Variable generateObject : GenerateObjectRequest -> res json.
Variable toISOString : Timestamp -> string.
Variable contextXml identityXml : string -> string.
Variable errorMessage : Error -> string.

Local Abbreviation agent := (agent_toolCall cfg JSON_parse systemPrompt generateObject).
Local Abbreviation step :=
  (compose_user cfg JSON_parse systemPrompt generateObject toISOString contextXml identityXml).
Local Abbreviation loop post := (st_for (fun u => r <- step u ;; st_lift (post u r))).
Local Abbreviation workflow :=
  (workflow_POST cfg JSON_parse systemPrompt generateObject toISOString contextXml identityXml).
Local Abbreviation webhook :=
  (webhook_POST cfg JSON_parse systemPrompt generateObject toISOString contextXml identityXml
     errorMessage).

Lemma store_version_view u (s s' : S) :
  store_view u s' = store_view u s -> store_version u s' = store_version u s.
Proof. unfold store_version. by intros ->. Qed.

Lemma compose_user_eq u (s : S) :
  store_wf s ->
  exists ji, step u s = composeStory cfg JSON_parse systemPrompt generateObject
                          (payload_of_job ji u) s.
Proof using Hlaws.
  intros Hwf. destruct (buildJobInput_eq toISOString contextXml identityXml u s Hwf)
    as (l & Hj & _).
  eexists. unfold compose_user, st_bind at 1. rewrite Hj. reflexivity.
Qed.

Lemma compose_user_ok u (s : S) r s' :
  store_wf s -> step u s = (Ok r, s') ->
  store_wf s' /\ is_Some (ar_document r) /\
  store_version u s' = (store_version u s + 1)%Z /\
  (forall u', u' <> u -> store_view u' s' = store_view u' s) /\
  (forall u', store_is_user u' s' <-> store_is_user u' s).
Proof using Hlaws.
  intros Hwf H. destruct (compose_user_eq u s Hwf) as (ji & Hj). rewrite Hj, composeStory_eq in H.
  destruct (agent _) as [a|e]; [|done]. simpl in H.
  pose proof (law_upsert_wf u (compose_params (payload_of_job ji u) a (store_clock s)) s Hwf) as Hw.
  destruct (store_upsert _ _ s) as [[[diff doc]|e] s''] eqn:E; [|done]. invc H.
  destruct (law_upsert_ok _ _ _ _ _ Hwf E) as (Hv & Ho & Hu & _).
  split; [done|]. split; [apply (law_upsert_doc _ _ _ _ _ Hwf E)|].
  split; [|by split]. unfold store_version. by rewrite Hv.
Qed.

Lemma compose_user_err u (s : S) e s' :
  store_wf s -> step u s = (Err e, s') ->
  (forall u', store_view u' s' = store_view u' s) /\
  (forall u', store_is_user u' s' <-> store_is_user u' s).
Proof using Hlaws.
  intros Hwf H. destruct (compose_user_eq u s Hwf) as (ji & Hj). rewrite Hj, composeStory_eq in H.
  destruct (agent _) as [a|e']; [|invc H; done]. simpl in H.
  destruct (store_upsert _ _ s) as [[[diff doc]|e'] s''] eqn:E; [done|]. invc H.
  destruct (law_upsert_err _ _ _ _ _ E) as (Hv & Hu & _). by split.
Qed.

Lemma compose_user_progress u (s : S) :
  store_wf s -> store_is_user u s -> (store_version u s < INT4_MAX)%Z ->
  (forall o, exists r, agent o = Ok r) ->
  exists r s', step u s = (Ok r, s').
Proof using Hlaws.
  intros Hwf Hu Hlt Ha. destruct (compose_user_eq u s Hwf) as (ji & ->).
  rewrite composeStory_eq. destruct (Ha (compose_options cfg (payload_of_job ji u))) as [a ->].
  cbn [pl_userId payload_of_job].
  destruct (law_upsert_progress u (compose_params (payload_of_job ji u) a (store_clock s)) s
              Hwf Hu Hlt eq_refl) as ([diff doc] & s' & ->).
  eauto.
Qed.

(** The loop of the handlers, [for (const userId of userIds)], when it runs
    to the end: every user of the batch is one version further, the other
    users are left alone, and each result comes from that user's job. *)
Lemma loop_ok {B} (post : string -> UserStoryAgentResult -> res B) us (s : S) bs s' :
  store_wf s -> NoDup us -> loop post us s = (Ok bs, s') ->
  store_wf s' /\
  (forall u, store_version u s' = (store_version u s + if decide (u ∈ us) then 1 else 0)%Z) /\
  (forall u, u ∉ us -> store_view u s' = store_view u s) /\
  (forall u, store_is_user u s' <-> store_is_user u s) /\
  Forall2 (fun u b => exists r, is_Some (ar_document r) /\ post u r = Ok b) us bs.
Proof using Hlaws.
  revert s bs. induction us as [|u us IH]; intros s bs Hwf Hnd H.
  - invc H. split; [done|]. split; [intros u; rewrite count_nil; lia|].
    split; [done|]. split; [done|constructor].
  - cbn [st_for] in H. unfold st_bind, st_lift, st_ret in H.
    destruct (step u s) as [[r|e] s1] eqn:E1; [|done].
    destruct (post u r) as [b|e] eqn:E2; [|done].
    match type of H with context [st_for ?f us s1] =>
      destruct (st_for f us s1) as [[bs'|e] s2] eqn:E3; [|done] end. invc H.
    inversion Hnd as [|? ? Hu Hnd0]; subst; clear Hnd; rename Hnd0 into Hnd.
    destruct (compose_user_ok _ _ _ _ Hwf E1) as (Hw1 & Hd & Hv1 & Ho1 & Hu1).
    destruct (IH s1 bs' Hw1 Hnd E3) as (Hw2 & Hv2 & Hn2 & Hu2 & Hf2).
    split; [done|]. split; [|split; [|split]].
    + intros u'. rewrite Hv2. destruct (decide (u' = u)) as [->|Hne].
      * rewrite Hv1, count_cons_eq by done. lia.
      * rewrite (store_version_view _ _ _ (Ho1 _ Hne)), count_cons_ne by done. lia.
    + intros u' Hn. rewrite Hn2 by set_solver. apply Ho1. set_solver.
    + intros u'. by rewrite Hu2, Hu1.
    + constructor; [eauto|done].
Qed.

(** When the loop throws, it is at the [k]-th user of the batch: the jobs of
    the users before it ran to the end, and left each of them one version
    further, and the [k]-th job threw from the state they left, whose
    writes stay: nothing is rolled back. *)
Lemma loop_err {B} (post : string -> UserStoryAgentResult -> res B) us (s : S) e s' :
  store_wf s -> NoDup us -> loop post us s = (Err e, s') ->
  exists k u bs sk,
    us !! k = Some u /\ loop post (take k us) s = (Ok bs, sk) /\
    (r <- step u ;; st_lift (post u r)) sk = (Err e, s') /\ store_wf sk /\
    forall v, store_version v sk = (store_version v s + if decide (v ∈ take k us) then 1 else 0)%Z.
Proof using Hlaws.
  revert s. induction us as [|u us IH]; intros s Hwf Hnd H; [done|].
  cbn [st_for] in H. unfold st_bind at 1 in H.
  destruct ((r <- step u ;; st_lift (post u r)) s) as [[b|e'] s1] eqn:E1.
  2:{ invc H. exists 0, u, [], s. split; [done|]. split; [done|]. split; [done|].
      split; [done|]. intros v. rewrite count_nil. lia. }
  inversion Hnd as [|? ? Hu Hnd0]; subst; clear Hnd; rename Hnd0 into Hnd.
  unfold st_bind at 1 in E1. destruct (step u s) as [[r|e1] s0] eqn:E0; [|done].
  unfold st_lift in E1. destruct (post u r) as [b'|] eqn:E2; [|done]. injection E1 as -> ->.
  destruct (compose_user_ok _ _ _ _ Hwf E0) as (Hw1 & _ & Hv1 & Ho1 & _).
  unfold st_bind at 1 in H.
  match type of H with context [st_for ?f us s1] =>
    destruct (st_for f us s1) as [[bs'|e'] s2] eqn:E3; [done|] end. invc H.
  destruct (IH s1 Hw1 Hnd E3) as (k & u' & bs & sk & Hk & Hl & Hf & Hwk & Hvk).
  exists (Nat.succ k), u', (b :: bs), sk. split; [done|].
  split; [|split; [done|split; [done|]]].
  - change (take (Nat.succ k) (u :: us)) with (u :: take k us). eapply st_for_cons_ok; [|exact Hl].
    unfold st_bind, st_lift. by rewrite E0, E2.
  - intros v. rewrite Hvk.
    change (take (Nat.succ k) (u :: us)) with (u :: take k us). destruct (decide (v = u)) as [->|Hne].
    + rewrite Hv1, count_cons_eq; [lia|]. intros Ht. by apply Hu, (elem_of_take_l _ k).
    + rewrite (store_version_view _ _ _ (Ho1 _ Hne)), count_cons_ne by done. lia.
Qed.

(** The loop runs to the end when every user of the batch exists and is
    below the largest version, and the extractor and [post] always
    return. *)
Lemma loop_progress {B} (post : string -> UserStoryAgentResult -> res B) us (s : S) :
  store_wf s -> NoDup us ->
  (forall u, u ∈ us -> store_is_user u s /\ (store_version u s < INT4_MAX)%Z) ->
  (forall o, exists r, agent o = Ok r) ->
  (forall u r, is_Some (ar_document r) -> exists b, post u r = Ok b) ->
  exists bs s', loop post us s = (Ok bs, s').
Proof using Hlaws.
  revert s. induction us as [|u us IH]; intros s Hwf Hnd Hus Ha Hp; [by eexists _, s|].
  inversion Hnd as [|? ? Hu Hnd0]; subst; clear Hnd; rename Hnd0 into Hnd.
  destruct (Hus u ltac:(set_solver)) as [Hiu Hlt].
  destruct (compose_user_progress u s Hwf Hiu Hlt Ha) as (r & s1 & E1).
  destruct (compose_user_ok _ _ _ _ Hwf E1) as (Hw1 & Hd & _ & Ho1 & Hu1).
  destruct (Hp u r Hd) as [b E2].
  destruct (IH s1 Hw1 Hnd) as (bs & s2 & E3); [|done|done|].
  - intros u' Hu'. assert (u' <> u) by set_solver.
    rewrite Hu1, (store_version_view _ _ _ (Ho1 _ H)). apply Hus. set_solver.
  - exists (b :: bs), s2. eapply st_for_cons_ok; [|exact E3].
    unfold st_bind, st_lift. by rewrite E1, E2.
Qed.

Lemma workflow_POST_eq rp (s : S) :
  workflow rp s =
  match batchSchema_parse (request_payload rp) with
  | Err e => (Err e, s)
  | Ok p =>
      if decide (length (collect_userIds p) = 0) then
        (Ok (mkWorkflowResponse "userId or userIds is required" 0 None), s)
      else
        match loop workflow_item (collect_userIds p) s with
        | (Ok rs, s1) =>
            (Ok (mkWorkflowResponse "User story processed via workflow."
                   (length (collect_userIds p)) (Some rs)), s1)
        | (Err e, s1) => (Err e, s1)
        end
  end.
Proof.
  unfold workflow_POST, st_bind, st_lift, st_ret.
  destruct (batchSchema_parse _); [|done]. by destruct (decide _).
Qed.

Lemma webhook_POST_eq hs get body (s : S) :
  webhook hs get body s =
  match header_failure (default [] hs) get with
  | Some key =>
      (Ok (mkResponse 403 (WhError ("Unauthorized: Missing or invalid header '" ++ key ++ "'"))), s)
  | None =>
      match res_bind body batchSchema_parse with
      | Err e => (Ok (mkResponse 500 (WhError (errorMessage e))), s)
      | Ok p =>
          if decide (length (collect_userIds p) = 0) then
            (Ok (mkResponse 400 (WhError "userId or userIds is required")), s)
          else
            match loop (fun u r => Ok (u, r)) (collect_userIds p) s with
            | (Ok rs, s1) => (Ok (mkResponse 200 (WhOk "User story generated via webhook." rs)), s1)
            | (Err e, s1) => (Ok (mkResponse 500 (WhError (errorMessage e))), s1)
            end
      end
  end.
Proof.
  unfold webhook_POST. destruct (header_failure _ _); [done|].
  unfold st_catch, st_bind, st_lift, st_ret. destruct body as [j|e]; [|done]. simpl.
  destruct (batchSchema_parse j); [|done]. destruct (decide _); [done|].
  match goal with |- context [st_for ?f ?us s] => destruct (st_for f us s) as [[rs|e] s1] end;
    done.
Qed.

(** C5. A workflow step that returns has processed each requested user
    exactly once: the ids are those of the body without duplicates or empty
    strings, every one of them is one version further, every other user is
    untouched, and the results list the users in the order of the ids. *)
Theorem workflow_POST_ok rp (s : S) resp s' :
  store_wf s -> workflow_POST cfg JSON_parse systemPrompt generateObject toISOString contextXml identityXml
      rp s = (Ok resp, s') ->
  exists p, batchSchema_parse (request_payload rp) = Ok p /\
    wr_processedUsers resp = length (collect_userIds p) /\
    (forall u, store_version u s' =
               (store_version u s + if decide (u ∈ collect_userIds p) then 1 else 0)%Z) /\
    (forall u, u ∉ collect_userIds p -> store_view u s' = store_view u s) /\
    default [] (map wi_userId <$> wr_results resp) = collect_userIds p.
Proof using Hlaws.
  intros Hwf H. rewrite workflow_POST_eq in H.
  destruct (batchSchema_parse _) as [p|e]; [|done]. exists p. split; [done|].
  destruct (decide _) as [Hl|Hl].
  - invc H. apply length_zero_iff_nil in Hl. rewrite Hl.
    split; [done|]. split; [intros u; rewrite count_nil; lia|done].
  - destruct (loop workflow_item _ s) as [[rs|e] s1] eqn:E; [|done]. invc H.
    destruct (loop_ok _ _ _ _ _ Hwf (collect_userIds_nodup p) E) as (_ & Hv & Hn & _ & Hf).
    split; [done|]. split; [done|]. split; [done|]. simpl.
    refine (Forall2_results_keys wi_userId _ _ _ _ Hf).
    intros u b (r & _ & Hb). unfold workflow_item in Hb. destruct (ar_document r); [by invc Hb|done].
Qed.

(** C32. A workflow step runs to the end when every requested user exists
    and is below the largest version, and the extractor answers. *)
Theorem workflow_POST_progress rp (s : S) p :
  store_wf s -> batchSchema_parse (request_payload rp) = Ok p ->
  (forall u, u ∈ collect_userIds p -> store_is_user u s /\ (store_version u s < INT4_MAX)%Z) ->
  (forall o, exists r, agent_toolCall cfg JSON_parse systemPrompt generateObject o = Ok r) ->
  exists resp s', workflow_POST cfg JSON_parse systemPrompt generateObject toISOString contextXml identityXml
      rp s = (Ok resp, s').
Proof using Hlaws.
  intros Hwf Hp Hus Ha. rewrite workflow_POST_eq, Hp. destruct (decide _); [eauto|].
  destruct (loop_progress workflow_item (collect_userIds p) s Hwf (collect_userIds_nodup p) Hus Ha)
    as (rs & s1 & ->); [|eauto].
  intros u r [d Hd]. unfold workflow_item. rewrite Hd. eauto.
Qed.

(** C16. A workflow step that throws either rejected the request body, and
    wrote nothing, or threw in the job of the [k]-th user of the batch: the
    jobs of the users before it ran to the end from the step's state, that
    user's job threw from the state they left, and those [k] users stay one
    version further, the others untouched. Nothing is rolled back, so the
    runtime's retry of the step processes them again. *)
Theorem workflow_POST_partial rp (s : S) e s' :
  store_wf s -> workflow_POST cfg JSON_parse systemPrompt generateObject toISOString contextXml identityXml
      rp s = (Err e, s') ->
  (batchSchema_parse (request_payload rp) = Err e /\ s' = s) \/
  exists k u rs sk,
    payload_userIds (request_payload rp) !! k = Some u /\
    loop workflow_item (take k (payload_userIds (request_payload rp))) s = (Ok rs, sk) /\
    step u sk = (Err e, s') /\
    forall v, store_version v s' =
      (store_version v s + if decide (v ∈ take k (payload_userIds (request_payload rp))) then 1 else 0)%Z.
Proof using Hlaws.
  intros Hwf H. rewrite workflow_POST_eq in H. unfold payload_userIds.
  destruct (batchSchema_parse _) as [p|e']; [|invc H; by left]. right.
  destruct (decide _); [done|].
  destruct (loop workflow_item _ s) as [[rs|e'] s1] eqn:E; [done|]. invc H.
  destruct (loop_err _ _ _ _ _ Hwf (collect_userIds_nodup p) E)
    as (k & u & rs & sk & Hk & Hl & Hf & Hwk & Hv).
  unfold st_bind at 1 in Hf. destruct (step u sk) as [[r|e0] s0] eqn:Es.
  - destruct (compose_user_ok _ _ _ _ Hwk Es) as (_ & [d Hd] & _).
    unfold st_lift, workflow_item in Hf. by rewrite Hd in Hf.
  - injection Hf as -> ->. exists k, u, rs, sk. split; [done|]. split; [done|]. split; [done|].
    intros v. destruct (compose_user_err _ _ _ _ Hwk Es) as [Hvw _].
    rewrite (store_version_view _ _ _ (Hvw v)). apply Hv.
Qed.

(** C28. The webhook answers 403 exactly when a configured header is missing
    from the request or carries another value, and then writes nothing. *)
Theorem webhook_POST_forbidden hs get body (s : S) :
  (exists k v, (k, v) ∈ default [] hs /\ get k <> Some v) <->
  exists msg, webhook_POST cfg JSON_parse systemPrompt generateObject toISOString contextXml identityXml errorMessage
      hs get body s = (Ok (mkResponse 403 (WhError msg)), s).
Proof.
  rewrite webhook_POST_eq. destruct (header_failure _ get) as [key|] eqn:Eh.
  - split; [eauto|]. intros _. destruct (header_failure_some _ _ _ Eh) as (v & Hin & Hne). eauto.
  - pose proof (proj1 (header_failure_none _ _) Eh) as Hall. split.
    + intros (k & v & Hin & Hne). by apply Hall in Hin.
    + intros [msg H]. destruct (res_bind body batchSchema_parse); [|done].
      destruct (decide _); [done|].
      by destruct (loop (fun u r => Ok (u, r)) _ s) as [[rs|e] s1].
Qed.

(** C24. The webhook never throws: it always answers, with 200, 400, 403 or
    500. *)
Theorem webhook_POST_total hs get body (s : S) :
  exists resp s', webhook_POST cfg JSON_parse systemPrompt generateObject toISOString contextXml identityXml errorMessage
      hs get body s = (Ok resp, s') /\
                  resp_status resp ∈ [200; 400; 403; 500]%Z.
Proof.
  rewrite webhook_POST_eq.
  repeat case_match; (eexists _, _; split; [reflexivity|]);
    apply list_elem_of_In; simpl; auto.
Qed.

(** C29. A body that is not JSON or does not match the schema (for instance
    [userIds] that is not an array of strings) is answered 500 with the
    parser's message, not 400, and nothing is written. *)
Theorem webhook_POST_bad_body hs get body (s : S) e :
  header_failure (default [] hs) get = None ->
  res_bind body batchSchema_parse = Err e ->
  webhook_POST cfg JSON_parse systemPrompt generateObject toISOString contextXml identityXml errorMessage
      hs get body s = (Ok (mkResponse 500 (WhError (errorMessage e))), s).
Proof. intros Hh Hb. by rewrite webhook_POST_eq, Hh, Hb. Qed.

(** C6. A 200 answer of the webhook means every requested user was
    processed exactly once, one version further, the others untouched, and
    the results list the users in the order of the ids. *)
Theorem webhook_POST_ok hs get body (s : S) resp s' :
  store_wf s -> webhook_POST cfg JSON_parse systemPrompt generateObject toISOString contextXml identityXml errorMessage
      hs get body s = (Ok resp, s') -> resp_status resp = 200%Z ->
  exists p rs, res_bind body batchSchema_parse = Ok p /\
    resp_body resp = WhOk "User story generated via webhook." rs /\
    map fst rs = collect_userIds p /\
    (forall u, store_version u s' =
               (store_version u s + if decide (u ∈ collect_userIds p) then 1 else 0)%Z) /\
    (forall u, u ∉ collect_userIds p -> store_view u s' = store_view u s).
Proof using Hlaws.
  intros Hwf H Hs. rewrite webhook_POST_eq in H.
  destruct (header_failure _ get); [by invc H|].
  destruct (res_bind body batchSchema_parse) as [p|e]; [|by invc H].
  destruct (decide _); [by invc H|].
  destruct (loop (fun u r => Ok (u, r)) _ s) as [[rs|e] s1] eqn:E; [|by invc H]. invc H.
  destruct (loop_ok _ _ _ _ _ Hwf (collect_userIds_nodup p) E) as (_ & Hv & Hn & _ & Hf).
  exists p, rs. split; [done|]. split; [done|]. split; [|done].
  refine (Forall2_results_keys fst _ _ _ _ Hf). by intros u b (r & _ & [= <-]).
Qed.

End RoutesLaws.

(** ** Scenarios on the tables *)

(** The workflow's step is not idempotent under the runtime's retries:
    on a batch whose second user does not exist, every attempt throws after
    writing the first user's story, so two attempts leave that user at
    version 2 with two diffs. *)
Example workflow_retry_not_idempotent :
  match svc_workflow (Some retry_body) svc_db with
  | (Err _, s1) =>
      match svc_workflow (Some retry_body) s1 with
      | (Err _, s2) => store_version "story-user" s1 = 1%Z /\
                       store_version "story-user" s2 = 2%Z /\
                       length (userStoryDiffs s2) = 2
      | (Ok _, _) => False
      end
  | (Ok _, _) => False
  end.
Proof. vm_compute. repeat split. Qed.

Lemma workflow_POST_ok_witness :
  db_wf svc_db /\
  match svc_workflow (Some ok_body) svc_db with
  | (Ok resp, s') => wr_processedUsers resp = 2 /\ store_version "story-user" s' = 1%Z /\
                     store_version "story-user-2" s' = 1%Z
  | (Err _, _) => False
  end.
Proof.
  assert (Hw : db_wf svc_db) by wf_by_check. split; [exact Hw|].
  destruct (svc_workflow (Some ok_body) svc_db) as [[resp|e] s'] eqn:E;
    [|vm_compute in E; discriminate].
  destruct (@workflow_POST_ok Tables tables_db tables_db_laws svc_cfg svc_parse svc_prompt
              svc_generate svc_iso svc_noxml svc_noxml (Some ok_body) svc_db resp s' Hw E)
    as (p & Hp & Hn & Hv & _).
  vm_compute in Hp. injection Hp as <-. rewrite Hn, !Hv. vm_compute. repeat split.
Defined.

Lemma workflow_POST_progress_witness :
  db_wf svc_db /\
  batchSchema_parse (request_payload (Some ok_body))
  = Ok (mkBatchPayload (Some "story-user") (Some ["story-user-2"; "story-user"])) /\
  exists resp s', svc_workflow (Some ok_body) svc_db = (Ok resp, s').
Proof.
  assert (Hw : db_wf svc_db) by wf_by_check. split; [exact Hw|]. split; [reflexivity|].
  apply (@workflow_POST_progress Tables tables_db tables_db_laws svc_cfg svc_parse svc_prompt
           svc_generate svc_iso svc_noxml svc_noxml (Some ok_body) svc_db
           (mkBatchPayload (Some "story-user") (Some ["story-user-2"; "story-user"])) Hw);
    [reflexivity| |].
  - intros u Hu. apply list_elem_of_In in Hu. vm_compute in Hu.
    destruct Hu as [<-|[<-|[]]]; (split; [vm_compute; set_solver|vm_compute; reflexivity]).
  - intros o. exists svc_result. vm_compute. reflexivity.
Defined.

Lemma workflow_POST_partial_witness :
  db_wf svc_db /\
  match svc_workflow (Some retry_body) svc_db with
  | (Err e, s') =>
      (batchSchema_parse (request_payload (Some retry_body)) = Err e /\ s' = svc_db) \/
      exists k u rs sk,
        payload_userIds (request_payload (Some retry_body)) !! k = Some u /\
        st_for (fun u => r <- compose_user svc_cfg svc_parse svc_prompt svc_generate svc_iso
                                svc_noxml svc_noxml u ;; st_lift (workflow_item u r))
          (take k (payload_userIds (request_payload (Some retry_body)))) svc_db = (Ok rs, sk) /\
        compose_user svc_cfg svc_parse svc_prompt svc_generate svc_iso svc_noxml svc_noxml u sk
        = (Err e, s') /\
        forall v, store_version v s' =
          (store_version v svc_db +
           if decide (v ∈ take k (payload_userIds (request_payload (Some retry_body)))) then 1 else 0)%Z
  | (Ok _, _) => False
  end.
Proof.
  assert (Hw : db_wf svc_db) by wf_by_check. split; [exact Hw|].
  destruct (svc_workflow (Some retry_body) svc_db) as [[resp|e] s'] eqn:E;
    [vm_compute in E; discriminate|].
  exact (@workflow_POST_partial Tables tables_db tables_db_laws svc_cfg svc_parse svc_prompt
           svc_generate svc_iso svc_noxml svc_noxml (Some retry_body) svc_db e s' Hw E).
Defined.

Lemma webhook_POST_bad_body_witness :
  header_failure (default [] None) svc_get = None /\
  res_bind (Ok bad_body) batchSchema_parse = Err (ZodError "userIds") /\
  svc_webhook None svc_get (Ok bad_body) svc_db = (Ok (mkResponse 500 (WhError "userIds")), svc_db).
Proof.
  split; [reflexivity|]. split; [reflexivity|].
  apply (webhook_POST_bad_body svc_cfg svc_parse svc_prompt svc_generate svc_iso svc_noxml
           svc_noxml svc_errmsg None svc_get (Ok bad_body) svc_db (ZodError "userIds"));
    reflexivity.
Defined.

Lemma webhook_POST_ok_witness :
  db_wf svc_db /\
  match svc_webhook None svc_get (Ok ok_body) svc_db with
  | (Ok resp, s') => resp_status resp = 200%Z /\ store_version "story-user" s' = 1%Z /\
                     store_version "story-user-2" s' = 1%Z
  | (Err _, _) => False
  end.
Proof.
  assert (Hw : db_wf svc_db) by wf_by_check. split; [exact Hw|].
  destruct (svc_webhook None svc_get (Ok ok_body) svc_db) as [[resp|e] s'] eqn:E;
    [|vm_compute in E; discriminate].
  assert (Hs : resp_status resp = 200%Z) by (vm_compute in E; by injection E as <- _).
  destruct (@webhook_POST_ok Tables tables_db tables_db_laws svc_cfg svc_parse svc_prompt
              svc_generate svc_iso svc_noxml svc_noxml svc_errmsg None svc_get (Ok ok_body) svc_db
              resp s' Hw E Hs) as (p & rs & Hp & _ & _ & Hv & _).
  vm_compute in Hp. injection Hp as <-. split; [exact Hs|]. rewrite !Hv. vm_compute. repeat split.
Defined.
