(* ===== verification/Concurrency.v ===== *)
(** * Story jobs for the same user running at the same time

    [UserStoryModel.upsertStory] (packages/database/src/models/userMemory/
    story.ts, lines 64-130) is one transaction that first reads the user's
    document ([upsert_read]) and then writes [existing.version + 1]
    ([upsert_write]).  The update's [WHERE] names the document's id and
    user, not the version that was read.

    Two jobs for one user can overlap: the webhook and the workflow, or two
    deliveries of the webhook.  Under PostgreSQL's default isolation, READ
    COMMITTED, each statement sees the rows committed when it starts, and an
    [UPDATE] that meets a row locked by another transaction waits for it to
    commit and then applies to the committed row when the row still matches
    the [WHERE].  A write phase therefore behaves as if it ran after the
    writes that committed before it, on their result.  The only interleaving
    left is that of the reads with the writes.  This file models it:
    - a transaction is [Ready], then [HasRead] with the row it read, then
      [Done] with its outcome;
    - [step] reads for one ready transaction, or runs the write and commit
      of one transaction that has read, atomically;
    - a [World] is the tables with the transactions in flight.
    The invariant of the tables holds in every reachable world.  From two
    jobs on a user at version [v], one schedule commits both at [v + 2] and
    another commits both at [v + 1]: the second job silently overwrites the
    first, a lost update that no error reports; when both carry diff
    content, both diffs claim version [v + 1] and the history of
    [DiffHistory.v] is broken, which no serial run does.  For any number of jobs, of
    one user and of others, and any interleaving, the invariant
    [versions_inv] bounds the user's version: other users' jobs never move
    it, it grows by at most one per ended job of the user, and by at least
    one once such a job has committed.  Every run ends: each step uses up one of
    the two steps of a job ([steps_left]), and a job that has not ended
    can always take its next one. *)

From S2P Require Import Prelude Schema StoryModel DiffOwner DiffHistory.

Inductive Phase :=
  | Ready
  | HasRead (existing : option UserStoryDocument)
  | Done (r : res (option UserStoryDiff * option UserStoryDocument)).

(** One call of [upsertStory]: its user, its parameters and how far it is. *)
Record Txn := mkTxn {
  tx_user : string;
  tx_params : UpsertUserStoryParams;
  tx_phase : Phase;
}.

Record World := mkWorld {
  w_db : Tables;
  w_txns : list Txn;
}.

Definition with_phase (t : Txn) (ph : Phase) : Txn := mkTxn (tx_user t) (tx_params t) ph.

(** The read of the transaction, at the state committed now. *)
Definition read_phase (t : Txn) (db : Tables) : Phase :=
  match upsert_read (tx_user t) db with
  | (Ok e, _) => HasRead e
  | (Err e, _) => Done (Err e)
  end.

(** The writes of the transaction and its commit, or its rollback. *)
Definition write_phase (t : Txn) (e : option UserStoryDocument) (db : Tables) : Phase * Tables :=
  let '(r, db') := transaction (upsert_write (tx_user t) (tx_params t) e) db in (Done r, db').

Inductive step : World -> World -> Prop :=
  | step_read w i t :
      w_txns w !! i = Some t -> tx_phase t = Ready ->
      step w (mkWorld (w_db w) (<[i := with_phase t (read_phase t (w_db w))]> (w_txns w)))
  | step_write w i t e :
      w_txns w !! i = Some t -> tx_phase t = HasRead e ->
      step w (mkWorld (snd (write_phase t e (w_db w)))
                      (<[i := with_phase t (fst (write_phase t e (w_db w)))]> (w_txns w))).

(** The jobs [(user, params)] all ready on the tables [db]. *)
Definition start (db : Tables) (jobs : list (string * UpsertUserStoryParams)) : World :=
  mkWorld db (map (fun j => mkTxn (fst j) (snd j) Ready) jobs).

Definition committed (w : World) : Prop :=
  Forall (fun t => exists r, tx_phase t = Done (Ok r)) (w_txns w).

(** Two jobs of the same user, as in "increments version and records diff
    on update", started on the tables after the first upsert. *)
Definition race_jobs : list (string * UpsertUserStoryParams) :=
  [("story-user", params_v1); ("story-user", params_v2)].

(** Two jobs of the user that both write a diff. *)
Definition diff_race_jobs : list (string * UpsertUserStoryParams) :=
  [("story-user", params_v2); ("story-user", params_first)].

(** A schedule: which transaction reads or writes next. *)
Inductive Action := ARead (i : nat) | AWrite (i : nat).

Definition run_action (a : Action) (w : World) : option World :=
  match a with
  | ARead i =>
      t ← w_txns w !! i;
      match tx_phase t with
      | Ready => Some (mkWorld (w_db w) (<[i := with_phase t (read_phase t (w_db w))]> (w_txns w)))
      | _ => None
      end
  | AWrite i =>
      t ← w_txns w !! i;
      match tx_phase t with
      | HasRead e =>
          Some (mkWorld (snd (write_phase t e (w_db w)))
                        (<[i := with_phase t (fst (write_phase t e (w_db w)))]> (w_txns w)))
      | _ => None
      end
  end.

Fixpoint run_schedule (s : list Action) (w : World) : option World :=
  match s with
  | [] => Some w
  | a :: s' => run_action a w ≫= run_schedule s'
  end.

(** Each job runs alone, the next one after the previous one committed. *)
Definition serial : list Action := [ARead 0; AWrite 0; ARead 1; AWrite 1].
(** Both jobs read before either writes. *)
Definition overlapped : list Action := [ARead 0; ARead 1; AWrite 0; AWrite 1].

(** What the worlds reachable from well-formed tables keep: the invariant
    of the tables, and rows read that come from such tables. *)
Definition read_ok (t : Txn) : Prop :=
  match tx_phase t with
  | HasRead (Some d) => (1 <= doc_version d <= INT4_MAX)%Z
  | _ => True
  end.

Definition world_inv (w : World) : Prop :=
  db_wf (w_db w) /\ Forall read_ok (w_txns w).

(** The transactions counted, each with the weight [f] gives it. *)
Fixpoint txn_count (f : Txn -> nat) (ts : list Txn) : nat :=
  match ts with
  | [] => 0
  | t :: ts' => f t + txn_count f ts'
  end.

Definition ended (ph : Phase) : nat := match ph with Done _ => 1 | _ => 0 end.
Definition ended_ok (ph : Phase) : nat := match ph with Done (Ok _) => 1 | _ => 0 end.

Definition of_user (u : string) (t : Txn) : bool := String.eqb (tx_user t) u.

(** The jobs of user [u]; those that have ended, committed or rolled back;
    those that have committed. *)
Definition job_count (u : string) : list Txn -> nat :=
  txn_count (fun t => if of_user u t then 1 else 0).
Definition done_count (u : string) : list Txn -> nat :=
  txn_count (fun t => if of_user u t then ended (tx_phase t) else 0).
Definition ok_count (u : string) : list Txn -> nat :=
  txn_count (fun t => if of_user u t then ended_ok (tx_phase t) else 0).

(** The steps a transaction has left: its read and its write when ready,
    its write when it has read; and those of all of them. *)
Definition steps_left (ph : Phase) : nat :=
  match ph with Ready => 2 | HasRead _ => 1 | Done _ => 0 end.
Definition steps_count : list Txn -> nat := txn_count (fun t => steps_left (tx_phase t)).

(** Every transaction has committed or rolled back. *)
Definition all_ended (w : World) : Prop :=
  Forall (fun t => exists r, tx_phase t = Done r) (w_txns w).

(** A transaction, where user [u]'s document [id] was at version [v] at the
    start and [n] of [u]'s jobs have ended: a row it read is in range, and
    the row a job of [u] read is [u]'s document at a version between [v]
    and [v + n]. *)
Definition txn_ok (u : string) (id : Id) (v : Z) (n : nat) (t : Txn) : Prop :=
  read_ok t /\
  (tx_user t = u ->
   match tx_phase t with
   | HasRead r => exists d, r = Some d /\ doc_id d = id /\ (v <= doc_version d <= v + Z.of_nat n)%Z
   | _ => True
   end).

(** The document of [u] stays, its version is between [v] and [v] plus the
    number of [u]'s jobs that have ended, and so is every version a job of
    [u] read; once one of them has committed, the version is above [v]. *)
Definition versions_inv (u : string) (id : Id) (v : Z) (w : World) : Prop :=
  db_wf (w_db w) /\
  (exists e, List.find (doc_of_user u) (userStoryDocuments (w_db w)) = Some e /\
             doc_id e = id /\ (v <= doc_version e <= v + Z.of_nat (done_count u (w_txns w)))%Z /\
             ((0 < ok_count u (w_txns w))%nat -> (v + 1 <= doc_version e)%Z)) /\
  Forall (txn_ok u id v (done_count u (w_txns w))) (w_txns w).

(** Two users' jobs mixed: a first run of the second user between the two
    runs of the first. *)
Definition mixed_jobs : list (string * UpsertUserStoryParams) :=
  [("story-user", params_v1); ("story-user-2", params_first); ("story-user", params_v2)].

Definition mixed_schedule : list Action :=
  [ARead 0; ARead 1; ARead 2; AWrite 1; AWrite 0; AWrite 2].

(** ** The invariant of the tables in every reachable world *)

Lemma write_ok_wf u p e db r db' :
  db_wf db ->
  (forall d, e = Some d -> (0 <= doc_version d)%Z) ->
  upsert_write u p e db = (Ok r, db') -> db_wf db'.
Proof.
  intros Hwf He H. unfold upsert_write, now, st_bind, st_gets, st_ret, st_throw in H.
  destruct e as [e0|].
  - destruct (update_document _ _ _ db) as [[rows|err] db1] eqn:E1; [|done].
    assert (Hw1 : db_wf db1).
    { apply (update_document_wf _ _ _ _ _ _ Hwf E1). simpl. intros z [= <-].
      specialize (He e0 eq_refl). lia. }
    destruct (hasDiff p); [|by invc H].
    destruct (head rows) as [d|]; [|done].
    destruct (insert_diff _ db1) as [[f|err] db2] eqn:E2; [|done]. invc H.
    exact (insert_diff_wf _ _ _ _ Hw1 E2).
  - destruct (insert_document _ db) as [[d|err] db1] eqn:E1; [|done].
    assert (Hw1 : db_wf db1) by (apply (insert_document_wf _ _ _ _ Hwf E1); simpl; lia).
    destruct (hasDiff p); [|by invc H].
    destruct (insert_diff _ db1) as [[f|err] db2] eqn:E2; [|done]. invc H.
    exact (insert_diff_wf _ _ _ _ Hw1 E2).
Qed.

Lemma transaction_wf {A} (m : st Tables A) db :
  db_wf db -> (forall r db', m db = (Ok r, db') -> db_wf db') -> db_wf (snd (transaction m db)).
Proof.
  intros Hwf Hm. unfold transaction, atomically.
  destruct (m db) as [[r|e] db'] eqn:E; simpl; apply tick_wf; [exact (Hm _ _ eq_refl)|done].
Qed.

Lemma write_phase_wf t e db :
  db_wf db -> (forall d, e = Some d -> (0 <= doc_version d)%Z) ->
  db_wf (snd (write_phase t e db)).
Proof.
  intros Hwf He. unfold write_phase.
  pose proof (transaction_wf _ _ Hwf
                (fun r db' => write_ok_wf (tx_user t) (tx_params t) e db r db' Hwf He)) as H.
  by destruct (transaction _ db).
Qed.

Lemma read_phase_ok t db : db_wf db -> read_ok (with_phase t (read_phase t db)).
Proof.
  intros Hwf. unfold read_ok, read_phase, upsert_read, st_gets. simpl.
  destruct (List.find _ _) as [d|] eqn:Hf; [|done]. exact (find_version_range _ _ _ Hwf Hf).
Qed.

Lemma write_phase_done t e db : read_ok (with_phase t (fst (write_phase t e db))).
Proof. unfold write_phase. by destruct (transaction _ db). Qed.

Lemma step_inv w w' : world_inv w -> step w w' -> world_inv w'.
Proof.
  intros [Hwf Hall] Hs. destruct Hs as [w i t Hi Ht|w i t e Hi Ht]; split; simpl.
  - done.
  - apply Forall_insert; [done|]. by apply read_phase_ok.
  - apply write_phase_wf; [done|]. intros d ->.
    pose proof (Forall_lookup_1 _ _ _ _ Hall Hi) as Hr. unfold read_ok in Hr. rewrite Ht in Hr. lia.
  - apply Forall_insert; [done|]. apply write_phase_done.
Qed.

Lemma run_action_step a w w' : run_action a w = Some w' -> step w w'.
Proof.
  destruct a as [i|i]; simpl; destruct (w_txns w !! i) as [t|] eqn:Hi; try done; simpl;
    destruct (tx_phase t) eqn:Ht; intros H; invc H; by econstructor.
Qed.

Lemma run_schedule_rtc s w w' : run_schedule s w = Some w' -> rtc step w w'.
Proof.
  revert w. induction s as [|a s IH]; intros w H; simpl in H; [by invc H|].
  destruct (run_action a w) as [w1|] eqn:E; [|done]. simpl in H.
  eapply rtc_l; [exact (run_action_step _ _ _ E)|by apply IH].
Qed.

(** ** The write of a row read earlier *)

Lemma find_after_update u db e v :
  db_wf db -> List.find (doc_of_user u) (userStoryDocuments db) = Some e ->
  List.find (doc_of_user u)
    (map (fun x => if hit (doc_id e) u x then apply_set v x else x) (userStoryDocuments db))
  = Some (apply_set v e).
Proof.
  intros Hwf Hf. apply find_of_filter_single.
  rewrite keeps_keys_filter by auto with story. rewrite (find_filter_single _ _ _ Hwf Hf).
  simpl. by rewrite (hit_found _ _ _ Hf).
Qed.

(** Writing a row [e0] read earlier, when the user's row now is [e] with
    the same id: the write commits, and the user's row afterwards is [e]
    with the values of the write and the version [e0]'s plus one. *)
Lemma write_read_row u p db e e0 :
  db_wf db ->
  List.find (doc_of_user u) (userStoryDocuments db) = Some e ->
  doc_id e0 = doc_id e -> (1 <= doc_version e0 < INT4_MAX)%Z ->
  varchar255_ok (up_title p) = true ->
  exists r db',
    transaction (upsert_write u p (Some e0)) db = (Ok r, db') /\ db_wf db' /\
    exists e', List.find (doc_of_user u) (userStoryDocuments db') = Some e' /\
               doc_id e' = doc_id e /\ doc_version e' = (doc_version e0 + 1)%Z.
Proof.
  intros Hwf Hf Hid Hr Ht.
  pose proof (transaction_wf _ _ Hwf
                (fun r db' => write_ok_wf u p (Some e0) db r db' Hwf
                                (fun d Hd => ltac:(injection Hd as <-; lia)))) as Hw.
  rewrite (upsert_write_update_eq u p db e e0 Hwf Hf Hid ltac:(lia) Ht) in Hw |- *.
  cbv zeta in Hw |- *. destruct (hasDiff p); (eexists _, _; split; [reflexivity|]);
    (split; [exact Hw|]); eexists; cbn; (split; [apply find_after_update; done|done]).
Qed.

(** The write of a row [e0] read earlier, with diff content, appends to
    the history of the story one entry, the version [e0]'s plus one. *)
Lemma write_read_history u p db e e0 db' r :
  db_wf db -> List.find (doc_of_user u) (userStoryDocuments db) = Some e ->
  doc_id e0 = doc_id e -> (1 <= doc_version e0 < INT4_MAX)%Z ->
  varchar255_ok (up_title p) = true -> hasDiff p = true ->
  transaction (upsert_write u p (Some e0)) db = (Ok r, db') ->
  story_history (doc_id e) (userStoryDiffs db')
  = story_history (doc_id e) (userStoryDiffs db) ++ [Some (doc_version e0 + 1)%Z].
Proof.
  intros Hwf Hf Hid Hr Ht Hd E.
  rewrite (upsert_write_update_eq u p db e e0 Hwf Hf Hid ltac:(lia) Ht) in E. cbv zeta in E.
  rewrite Hd in E. injection E as _ <-. cbn [userStoryDiffs tick bump_id set_diffs set_documents].
  by rewrite story_history_snoc_same.
Qed.

(** A write after the read of [upsertStory] is [upsertStory]. *)
Lemma upsert_result_db u p db e r db' :
  List.find (doc_of_user u) (userStoryDocuments db) = Some e ->
  transaction (upsert_write u p (Some e)) db = (Ok r, db') -> snd (upsertStory u p db) = db'.
Proof. intros Hf E. by rewrite upsertStory_as_write, Hf, E. Qed.

Lemma read_phase_found u p db e :
  List.find (doc_of_user u) (userStoryDocuments db) = Some e ->
  read_phase (mkTxn u p Ready) db = HasRead (Some e).
Proof. intros Hf. unfold read_phase, upsert_read, st_gets. simpl. by rewrite Hf. Qed.

Lemma write_phase_ok t e0 db r db' :
  transaction (upsert_write (tx_user t) (tx_params t) e0) db = (Ok r, db') ->
  write_phase t e0 db = (Done (Ok r), db').
Proof. intros H. unfold write_phase. by rewrite H. Qed.

(** ** Schedules of two transactions *)

Lemma run_read_0 db t0 t1 :
  tx_phase t0 = Ready ->
  run_action (ARead 0) (mkWorld db [t0; t1])
  = Some (mkWorld db [with_phase t0 (read_phase t0 db); t1]).
Proof. intros H. simpl. by rewrite H. Qed.

Lemma run_read_1 db t0 t1 :
  tx_phase t1 = Ready ->
  run_action (ARead 1) (mkWorld db [t0; t1])
  = Some (mkWorld db [t0; with_phase t1 (read_phase t1 db)]).
Proof. intros H. simpl. by rewrite H. Qed.

Lemma run_write_0 db t0 t1 e r db' :
  tx_phase t0 = HasRead e -> write_phase t0 e db = (Done r, db') ->
  run_action (AWrite 0) (mkWorld db [t0; t1]) = Some (mkWorld db' [with_phase t0 (Done r); t1]).
Proof. intros H Hw. simpl. by rewrite H, Hw. Qed.

Lemma run_write_1 db t0 t1 e r db' :
  tx_phase t1 = HasRead e -> write_phase t1 e db = (Done r, db') ->
  run_action (AWrite 1) (mkWorld db [t0; t1]) = Some (mkWorld db' [t0; with_phase t1 (Done r)]).
Proof. intros H Hw. simpl. by rewrite H, Hw. Qed.

Lemma rtc_inv w w' : rtc step w w' -> world_inv w -> world_inv w'.
Proof. induction 1 as [|w1 w2 w3 H12 _ IH]; [done|]. intros Hi. apply IH, (step_inv w1), H12. done. Qed.

Lemma start_inv db jobs : db_wf db -> world_inv (start db jobs).
Proof. intros Hwf. split; [done|]. simpl. induction jobs; by constructor. Qed.

Lemma run_schedule_cons_some a s w w1 :
  run_action a w = Some w1 -> run_schedule (a :: s) w = run_schedule s w1.
Proof. intros H. simpl. by rewrite H. Qed.

(** C9. Whatever the interleaving of the reads and writes of concurrent
    [upsertStory] calls, every state they reach from well-formed tables is
    well formed: fresh ids, one document per user, foreign keys, versions
    in [1, INT4_MAX]. *)
Theorem reachable_wf db jobs w :
  db_wf db -> rtc step (start db jobs) w -> db_wf (w_db w).
Proof. intros Hwf Hr. by destruct (rtc_inv _ _ Hr (start_inv db jobs Hwf)). Qed.

(** C7. Lost update: for two jobs on a user whose document is at version
    [v], running them one after the other commits both and leaves version
    [v + 2]; letting both read before either writes also commits both, with
    no error, and leaves version [v + 1]: the second write overwrites the
    first, because the update does not check the version it read.  (Both
    titles fit [varchar(255)], or the writes throw.) *)
Theorem lost_update u p1 p2 db e :
  db_wf db -> List.find (doc_of_user u) (userStoryDocuments db) = Some e ->
  (doc_version e + 1 < INT4_MAX)%Z ->
  varchar255_ok (up_title p1) = true -> varchar255_ok (up_title p2) = true ->
  exists ws wl,
    run_schedule serial (start db [(u, p1); (u, p2)]) = Some ws /\
    committed ws /\ current_version u (w_db ws) = (doc_version e + 2)%Z /\
    run_schedule overlapped (start db [(u, p1); (u, p2)]) = Some wl /\
    committed wl /\ current_version u (w_db wl) = (doc_version e + 1)%Z.
Proof.
  intros Hwf Hf Hlt Ht1 Ht2. pose proof (find_version_range _ _ _ Hwf Hf) as Hr.
  destruct (write_read_row u p1 db e e Hwf Hf eq_refl ltac:(lia) Ht1)
    as (r1 & db1 & E1 & Hw1 & e1 & Hf1 & Hid1 & Hv1).
  destruct (write_read_row u p2 db1 e1 e1 Hw1 Hf1 eq_refl ltac:(lia) Ht2)
    as (r2 & db2 & E2 & _ & e2 & Hf2 & _ & Hv2).
  destruct (write_read_row u p2 db1 e1 e Hw1 Hf1 (eq_sym Hid1) ltac:(lia) Ht2)
    as (r3 & db3 & E3 & _ & e3 & Hf3 & _ & Hv3).
  unfold serial, overlapped, start. cbn [map fst snd].
  (* the serial schedule *)
  erewrite run_schedule_cons_some; [|apply run_read_0; reflexivity].
  rewrite (read_phase_found _ _ _ _ Hf).
  erewrite run_schedule_cons_some; [|eapply run_write_0; [reflexivity|apply write_phase_ok, E1]].
  erewrite run_schedule_cons_some; [|apply run_read_1; reflexivity].
  rewrite (read_phase_found _ _ _ _ Hf1).
  erewrite run_schedule_cons_some; [|eapply run_write_1; [reflexivity|apply write_phase_ok, E2]].
  (* the overlapped schedule *)
  erewrite run_schedule_cons_some; [|apply run_read_0; reflexivity].
  rewrite (read_phase_found _ _ _ _ Hf).
  erewrite run_schedule_cons_some; [|apply run_read_1; reflexivity].
  rewrite (read_phase_found _ _ _ _ Hf).
  erewrite run_schedule_cons_some; [|eapply run_write_0; [reflexivity|apply write_phase_ok, E1]].
  erewrite run_schedule_cons_some; [|eapply run_write_1; [reflexivity|apply write_phase_ok, E3]].
  eexists _, _. split; [reflexivity|]. split; [repeat constructor; eauto|].
  split; [unfold current_version; simpl; rewrite Hf2; simpl; lia|].
  split; [reflexivity|]. split; [repeat constructor; eauto|].
  unfold current_version. simpl. rewrite Hf3. simpl. lia.
Qed.

(** The write of the insert branch when the user's document exists by now:
    the unique index rejects it and the transaction rolls back. *)
Lemma write_insert_unique u p db :
  varchar255_ok (up_title p) = true ->
  existsb (doc_of_user u) (userStoryDocuments db) = true ->
  transaction (upsert_write u p None) db
  = (Err (DbError UniqueViolation "user_story_documents_user_id_unique"), tick db).
Proof.
  intros Ht He. unfold transaction, atomically, upsert_write, st_bind, st_ret.
  by rewrite (insert_document_unique _ _ u).
Qed.

Lemma write_phase_err t e0 db err db' :
  transaction (upsert_write (tx_user t) (tx_params t) e0) db = (Err err, db') ->
  write_phase t e0 db = (Done (Err err), db').
Proof. intros H. unfold write_phase. by rewrite H. Qed.

(** C21. Two first runs for a user without a document, both reading before
    either writes: the first commits the user's document at version 1, the
    second throws the unique-index violation and rolls back, so one of the
    two jobs fails although nothing was wrong with it.  (Both titles fit
    [varchar(255)]; a longer one fails first on its length.) *)
Theorem concurrent_first_runs u p1 p2 db :
  db_wf db -> u ∈ users db -> List.find (doc_of_user u) (userStoryDocuments db) = None ->
  varchar255_ok (up_title p1) = true -> varchar255_ok (up_title p2) = true ->
  exists wl r1,
    run_schedule overlapped (start db [(u, p1); (u, p2)]) = Some wl /\
    map tx_phase (w_txns wl)
    = [Done (Ok r1); Done (Err (DbError UniqueViolation "user_story_documents_user_id_unique"))] /\
    current_version u (w_db wl) = 1%Z.
Proof.
  intros Hwf Hu Hf Ht1 Ht2.
  destruct (upsert_progress u p1 db Hwf Hu ltac:(unfold current_version; rewrite Hf; done) Ht1)
    as (diff & d & db1 & E1).
  destruct (upsertStory_ok_inv _ _ _ _ _ _ Hwf E1) as (d' & [= <-] & Hd & Hown & _).
  rewrite Hf in Hd. subst d.
  pose proof (find_of_filter_single _ _ _ Hown) as Hf1.
  rewrite upsertStory_as_write, Hf in E1.
  assert (He : existsb (doc_of_user u) (userStoryDocuments db1) = true).
  { apply existsb_exists. apply find_some in Hf1. eauto. }
  unfold overlapped, start. cbn [map fst snd].
  erewrite run_schedule_cons_some; [|apply run_read_0; reflexivity].
  erewrite run_schedule_cons_some; [|apply run_read_1; reflexivity].
  unfold read_phase, upsert_read, st_gets. cbn [tx_user]. rewrite Hf.
  erewrite run_schedule_cons_some; [|eapply run_write_0; [reflexivity|apply write_phase_ok, E1]].
  erewrite run_schedule_cons_some;
    [|eapply run_write_1; [reflexivity|apply write_phase_err, (write_insert_unique _ _ _ Ht2 He)]].
  eexists _, _. split; [reflexivity|]. split; [reflexivity|].
  unfold current_version. simpl. rewrite Hf1. reflexivity.
Qed.

(** ** Witnesses *)

Lemma reachable_wf_witness :
  db_wf test_db_v1 /\
  db_wf (w_db (default (start test_db_v1 race_jobs)
                 (run_schedule overlapped (start test_db_v1 race_jobs)))).
Proof.
  assert (Hw : db_wf test_db_v1) by wf_by_check. split; [exact Hw|].
  apply (reachable_wf test_db_v1 race_jobs _ Hw).
  destruct (run_schedule overlapped _) as [w|] eqn:E; [exact (run_schedule_rtc _ _ _ E)|apply rtc_refl].
Defined.

Lemma lost_update_witness :
  db_wf test_db_v1 /\
  exists ws wl,
    run_schedule serial (start test_db_v1 race_jobs) = Some ws /\
    current_version "story-user" (w_db ws) = 3%Z /\
    run_schedule overlapped (start test_db_v1 race_jobs) = Some wl /\
    committed wl /\ current_version "story-user" (w_db wl) = 2%Z.
Proof.
  assert (Hw : db_wf test_db_v1) by wf_by_check. split; [exact Hw|].
  destruct (List.find (doc_of_user "story-user") (userStoryDocuments test_db_v1)) as [e|] eqn:Hf;
    [|vm_compute in Hf; discriminate].
  assert (Hv : doc_version e = 1%Z) by (vm_compute in Hf; by injection Hf as <-).
  destruct (lost_update "story-user" params_v1 params_v2 test_db_v1 e Hw Hf
              ltac:(rewrite Hv; reflexivity) eq_refl eq_refl) as (ws & wl & H1 & _ & H3 & H4 & H5 & H6).
  rewrite Hv in H3, H6. exists ws, wl. repeat split; assumption.
Defined.

(** The first run of "creates a new story document with optional diff",
    twice at once. *)
Lemma concurrent_first_runs_witness :
  db_wf test_db /\ "story-user" ∈ users test_db /\
  List.find (doc_of_user "story-user") (userStoryDocuments test_db) = None /\
  exists wl r1,
    run_schedule overlapped (start test_db [("story-user", params_first); ("story-user", params_v1)])
    = Some wl /\
    map tx_phase (w_txns wl)
    = [Done (Ok r1); Done (Err (DbError UniqueViolation "user_story_documents_user_id_unique"))] /\
    current_version "story-user" (w_db wl) = 1%Z.
Proof.
  assert (Hw : db_wf test_db) by wf_by_check.
  assert (Hu : "story-user" ∈ users test_db) by (vm_compute; set_solver).
  split; [exact Hw|]. split; [exact Hu|]. split; [reflexivity|].
  exact (concurrent_first_runs "story-user" params_first params_v1 test_db Hw Hu eq_refl eq_refl eq_refl).
Defined.

(** ** Any number of jobs *)

Lemma txn_count_insert f ts i t t' :
  ts !! i = Some t -> (txn_count f (<[i := t']> ts) + f t = txn_count f ts + f t')%nat.
Proof.
  revert i. induction ts as [|t0 ts IH]; intros [|i] Hi; simpl in *; try done.
  - invc Hi. lia.
  - specialize (IH i Hi). lia.
Qed.

Lemma txn_ok_mono u id v n n' t : (n <= n')%nat -> txn_ok u id v n t -> txn_ok u id v n' t.
Proof.
  intros Hn [Hr Hu]. split; [done|]. intros Heq. specialize (Hu Heq).
  destruct (tx_phase t); [done| |done].
  destruct Hu as (d & Hd & Hid & Hb). exists d. repeat split; auto; lia.
Qed.

(** Writing back a row read earlier: the user's document stays, with its
    version unchanged (the write failed and rolled back) or the read's
    plus one. *)
Lemma write_overflow_eq u p db e0 :
  doc_version e0 = INT4_MAX ->
  transaction (upsert_write u p (Some e0)) db = (Err (DbError IntegerOutOfRange "version"), tick db).
Proof.
  intros Hv. unfold transaction, atomically, upsert_write, now. st_unfold.
  rewrite update_document_range; [done|]. simpl. by rewrite Hv.
Qed.

Lemma write_stale_row u p db e e0 :
  db_wf db -> List.find (doc_of_user u) (userStoryDocuments db) = Some e ->
  doc_id e0 = doc_id e -> (1 <= doc_version e0 <= INT4_MAX)%Z ->
  db_wf (snd (transaction (upsert_write u p (Some e0)) db)) /\
  exists e', List.find (doc_of_user u) (userStoryDocuments (snd (transaction (upsert_write u p (Some e0)) db)))
             = Some e' /\ doc_id e' = doc_id e /\
             match fst (transaction (upsert_write u p (Some e0)) db) with
             | Ok _ => doc_version e' = (doc_version e0 + 1)%Z
             | Err _ => doc_version e' = doc_version e
             end.
Proof.
  intros Hwf Hf Hid Hr. destruct (Z.eq_dec (doc_version e0) INT4_MAX) as [Hmax|Hlt].
  - rewrite (write_overflow_eq u p db e0 Hmax). split; [by apply tick_wf|]. exists e. simpl. auto.
  - destruct (varchar255_ok (up_title p)) eqn:Ht.
    + destruct (write_read_row u p db e e0 Hwf Hf Hid ltac:(lia) Ht) as (r & db' & E & Hw & e' & Hf' & Hid' & Hv).
      rewrite E. split; [done|]. exists e'. simpl. auto.
    + rewrite (upsert_write_update_long u p db e e0 Hf Hid ltac:(lia) Ht).
      split; [by apply tick_wf|]. exists e. simpl. auto.
Qed.

(** What the statements do to the documents. *)
Lemma insert_document_docs v db d db' :
  insert_document v db = (Ok d, db') ->
  userStoryDocuments db' = userStoryDocuments db ++ [d] /\ doc_userId d = nd_userId v.
Proof.
  unfold insert_document, out_of_range, too_long, st_throw. repeat case_match; try discriminate;
    intros [= <- <-]; (split; [done|simpl; congruence]).
Qed.

Lemma update_document_docs i u v db rows db' :
  update_document i u v db = (Ok rows, db') ->
  userStoryDocuments db' = map (fun d => if hit i u d then apply_set v d else d) (userStoryDocuments db).
Proof. unfold update_document, out_of_range, too_long, st_throw. repeat case_match; try discriminate. by intros [= _ <-]. Qed.

Lemma insert_diff_docs v db f db' :
  insert_diff v db = (Ok f, db') -> userStoryDocuments db' = userStoryDocuments db.
Proof. unfold insert_diff, out_of_range, st_throw. repeat case_match; try discriminate; by intros [= _ <-]. Qed.

Lemma find_filter_eq {A} (f : A -> bool) l l' :
  List.filter f l = List.filter f l' -> List.find f l = List.find f l'.
Proof.
  assert (Hh : forall k, List.find f k = head (List.filter f k)).
  { intros k. induction k as [|x k IH]; simpl; [done|]. by destruct (f x). }
  rewrite !Hh. by intros ->.
Qed.

(** The writes of another user's job, whatever row it read and whether
    they commit or roll back, leave the rows of [u] as they were. *)
Lemma upsert_write_other v u p e0 db r db' :
  v <> u -> upsert_write v p e0 db = (Ok r, db') ->
  List.filter (doc_of_user u) (userStoryDocuments db') = List.filter (doc_of_user u) (userStoryDocuments db).
Proof.
  intros Hne H. unfold upsert_write, now, st_bind, st_gets, st_ret, st_throw in H.
  destruct e0 as [e0|].
  - destruct (update_document _ _ _ db) as [[rows|err] db1] eqn:E1; [|done].
    assert (Hd1 : List.filter (doc_of_user u) (userStoryDocuments db1)
                  = List.filter (doc_of_user u) (userStoryDocuments db))
      by (rewrite (update_document_docs _ _ _ _ _ _ E1); by apply filter_other_update).
    destruct (hasDiff p); [|by invc H].
    destruct (head rows) as [d|]; [|done].
    destruct (insert_diff _ db1) as [[f|err] db2] eqn:E2; [|done]. invc H.
    by rewrite (insert_diff_docs _ _ _ _ E2).
  - destruct (insert_document _ db) as [[d|err] db1] eqn:E1; [|done].
    destruct (insert_document_docs _ _ _ _ E1) as [H1 Hu1].
    assert (Hd1 : List.filter (doc_of_user u) (userStoryDocuments db1)
                  = List.filter (doc_of_user u) (userStoryDocuments db)).
    { rewrite H1. apply (filter_snoc_other v); [done|].
      unfold doc_of_user, owned_by. rewrite Hu1. simpl. apply String.eqb_refl. }
    destruct (hasDiff p); [|by invc H].
    destruct (insert_diff _ db1) as [[f|err] db2] eqn:E2; [|done]. invc H.
    by rewrite (insert_diff_docs _ _ _ _ E2).
Qed.

Lemma write_phase_other u t e db :
  tx_user t <> u ->
  List.find (doc_of_user u) (userStoryDocuments (snd (write_phase t e db)))
  = List.find (doc_of_user u) (userStoryDocuments db).
Proof.
  intros Hne. apply find_filter_eq. unfold write_phase, transaction, atomically.
  destruct (upsert_write _ _ e db) as [[r|err] db'] eqn:E; simpl; [|done].
  exact (upsert_write_other _ _ _ _ _ _ _ Hne E).
Qed.

Lemma read_phase_has_read t db : exists e, read_phase t db = HasRead e.
Proof. unfold read_phase, upsert_read, st_gets. eauto. Qed.

Lemma write_phase_done_r t e db : exists r, fst (write_phase t e db) = Done r.
Proof. unfold write_phase. destruct (transaction _ _). eauto. Qed.

Lemma of_user_with_phase u t ph : of_user u (with_phase t ph) = of_user u t.
Proof. reflexivity. Qed.

(** The counts of [u]'s jobs after transaction [i] moves to phase [ph]. *)
Lemma counts_insert u (g : Phase -> nat) ts i t ph :
  ts !! i = Some t ->
  (txn_count (fun t => if of_user u t then g (tx_phase t) else 0) (<[i := with_phase t ph]> ts)
   + (if of_user u t then g (tx_phase t) else 0)
   = txn_count (fun t => if of_user u t then g (tx_phase t) else 0) ts
     + (if of_user u t then g ph else 0))%nat.
Proof. intros Hi. exact (txn_count_insert (fun t => if of_user u t then g (tx_phase t) else 0) _ _ _ _ Hi). Qed.

Lemma step_versions u id v w w' : versions_inv u id v w -> step w w' -> versions_inv u id v w'.
Proof.
  intros (Hwf & (e & Hf & Hid & Hv & Hok) & Hall) Hs. unfold versions_inv, done_count, ok_count in *.
  destruct Hs as [w i t Hi Ht|w i t r Hi Ht]; simpl in *;
    destruct (Forall_lookup_1 _ _ _ _ Hall Hi) as [Hr Hu].
  - pose proof (read_phase_ok t (w_db w) Hwf) as Hrok.
    destruct (read_phase_has_read t (w_db w)) as [r0 Hr0]. rewrite Hr0 in Hrok |- *.
    pose proof (counts_insert u ended _ _ _ (HasRead r0) Hi) as Hc.
    pose proof (counts_insert u ended_ok _ _ _ (HasRead r0) Hi) as Hc'.
    rewrite Ht in Hc, Hc'. destruct (of_user u t); simpl in Hc, Hc'; rewrite !Nat.add_0_r in Hc, Hc';
      rewrite Hc, Hc'; (split_and!; [done|exists e; auto|]);
      (apply Forall_insert; [done|]); (split; [done|]); simpl; intros Heq;
      unfold read_phase, upsert_read, st_gets in Hr0; rewrite Heq, Hf in Hr0; injection Hr0 as <-;
      exists e; repeat split; auto; lia.
  - unfold read_ok in Hr. rewrite Ht in Hr, Hu. destruct (write_phase_done_r t r (w_db w)) as [r' Hd]. rewrite Hd.
    pose proof (counts_insert u ended _ _ _ (Done r') Hi) as Hc.
    pose proof (counts_insert u ended_ok _ _ _ (Done r') Hi) as Hc'.
    rewrite Ht in Hc, Hc'. destruct (of_user u t) eqn:Eu; simpl in Hc, Hc'.
    + apply String.eqb_eq in Eu as Heq.
      destruct (Hu Heq) as (d & -> & Hdid & Hdb).
      unfold write_phase in Hd |- *. rewrite <- Heq in Hf.
      destruct (write_stale_row (tx_user t) (tx_params t) (w_db w) e d Hwf Hf ltac:(congruence) Hr)
        as (Hw' & e' & Hf' & Hid' & Hv').
      destruct (transaction _ (w_db w)) as [r'' db'] eqn:E. simpl in *. injection Hd as ->.
      rewrite Heq in Hf'.
      split_and!; [done|exists e'; split_and!; [done|congruence| | |]|].
      * destruct r'; lia.
      * destruct r'; lia.
      * destruct r'; intros Hpos; [lia|]. rewrite Hv'. apply Hok. lia.
      * apply Forall_insert; [|split; [done|by intros _]].
        revert Hall. apply Forall_impl. intros x. apply txn_ok_mono. lia.
    + apply String.eqb_neq in Eu as Hne.
      rewrite !Nat.add_0_r in Hc, Hc'. rewrite Hc, Hc'. split_and!.
      * apply write_phase_wf; [done|]. intros d ->. lia.
      * exists e. rewrite write_phase_other by done. auto.
      * apply Forall_insert; [done|]. split; [done|]. simpl. intros Heq. by destruct Hne.
Qed.

Lemma done_count_le u ts : (done_count u ts <= job_count u ts)%nat.
Proof.
  unfold done_count, job_count. induction ts as [|t ts IH]; simpl; [done|].
  destruct (of_user u t); [destruct (tx_phase t)|]; simpl; lia.
Qed.

Lemma step_job_count u w w' : step w w' -> job_count u (w_txns w') = job_count u (w_txns w).
Proof.
  unfold job_count. destruct 1 as [w i t Hi Ht|w i t e Hi Ht]; simpl;
    match goal with |- txn_count ?f (<[i := ?t']> _) = _ =>
      pose proof (txn_count_insert f _ _ _ t' Hi) as Hc end;
    unfold of_user in *; simpl in Hc; lia.
Qed.

Lemma start_versions u db jobs e :
  db_wf db -> List.find (doc_of_user u) (userStoryDocuments db) = Some e ->
  versions_inv u (doc_id e) (doc_version e) (start db jobs).
Proof.
  intros Hwf Hf. split_and!; [done|exists e; simpl|].
  - assert (H0 : forall g : Phase -> nat, g Ready = 0%nat ->
                   txn_count (fun t => if of_user u t then g (tx_phase t) else 0)
                     (map (fun j => mkTxn (fst j) (snd j) Ready) jobs) = 0%nat)
      by (intros g Hg; clear -Hg; induction jobs; simpl; [done|]; destruct (of_user _ _); lia).
    unfold done_count, ok_count. rewrite (H0 ended), (H0 ended_ok) by done.
    repeat split; try done; lia.
  - simpl. generalize (done_count u (map (fun j => mkTxn (fst j) (snd j) Ready) jobs)). intros n.
    induction jobs; constructor; [by split|done].
Qed.

Lemma start_job_count u db jobs :
  job_count u (w_txns (start db jobs)) = length (List.filter (fun j => String.eqb (fst j) u) jobs).
Proof.
  unfold job_count, of_user. induction jobs as [|j jobs IH]; simpl in *; [done|].
  destruct (String.eqb (fst j) u); simpl; lia.
Qed.

Lemma rtc_versions u id v w w' :
  rtc step w w' -> versions_inv u id v w ->
  versions_inv u id v w' /\ job_count u (w_txns w') = job_count u (w_txns w).
Proof.
  induction 1 as [|w1 w2 w3 H12 _ IH]; [done|]. intros Hi.
  destruct (IH (step_versions _ _ _ _ _ Hi H12)) as [H3 Hl]. rewrite Hl. by rewrite (step_job_count _ _ _ H12).
Qed.

(** C23. Any number of concurrent jobs, of [u] and of other users, in any
    interleaving of their reads and writes, from tables where [u]'s
    document is at version [v]: the document stays [u]'s one row, and its
    version is between [v] and [v + k], where [k] is the number of [u]'s
    jobs that have ended, at most the number of [u]'s jobs; once one of
    them has committed it is above [v].  Other users' jobs never move it;
    each job of [u] adds at most one version, and when they overlap the
    version can fall short of [v + k] (see [lost_update]). *)
Theorem concurrent_versions_bounded u jobs db e w :
  db_wf db -> List.find (doc_of_user u) (userStoryDocuments db) = Some e ->
  rtc step (start db jobs) w ->
  (doc_version e <= current_version u (w_db w)
                 <= doc_version e + Z.of_nat (done_count u (w_txns w)))%Z /\
  (done_count u (w_txns w) <= length (List.filter (fun j => String.eqb (fst j) u) jobs))%nat /\
  ((0 < ok_count u (w_txns w))%nat -> (doc_version e + 1 <= current_version u (w_db w))%Z).
Proof.
  intros Hwf Hf Hr.
  destruct (rtc_versions _ _ _ _ _ Hr (start_versions u db jobs e Hwf Hf))
    as ((_ & (e' & Hf' & _ & Hv & Hok) & _) & Hl).
  unfold current_version. rewrite Hf'. simpl. split_and!; [lia|lia| |done].
  rewrite <- (start_job_count u db jobs), <- Hl. apply done_count_le.
Qed.

Lemma run_schedule_nsteps s w w' : run_schedule s w = Some w' -> nsteps step (length s) w w'.
Proof.
  revert w. induction s as [|a s IH]; intros w H; simpl in H; [invc H; apply nsteps_O|].
  destruct (run_action a w) as [w1|] eqn:E; [|done]. simpl in H.
  eapply nsteps_l; [exact (run_action_step _ _ _ E)|by apply IH].
Qed.

Lemma concurrent_versions_bounded_witness :
  exists e w,
    List.find (doc_of_user "story-user") (userStoryDocuments test_db_v1) = Some e /\
    run_schedule mixed_schedule (start test_db_v1 mixed_jobs) = Some w /\
    (doc_version e <= current_version "story-user" (w_db w)
                   <= doc_version e + Z.of_nat (done_count "story-user" (w_txns w)))%Z /\
    (done_count "story-user" (w_txns w)
       <= length (List.filter (fun j => String.eqb (fst j) "story-user") mixed_jobs))%nat /\
    ((0 < ok_count "story-user" (w_txns w))%nat ->
     (doc_version e + 1 <= current_version "story-user" (w_db w))%Z).
Proof.
  assert (Hw : db_wf test_db_v1) by wf_by_check.
  eexists _, _. split; [reflexivity|]. split; [reflexivity|].
  exact (concurrent_versions_bounded "story-user" mixed_jobs test_db_v1 _ _ Hw eq_refl
           (run_schedule_rtc mixed_schedule (start test_db_v1 mixed_jobs) _ eq_refl)).
Defined.

(** ** Every schedule ends *)

Lemma step_steps_left w w' :
  step w w' -> (steps_count (w_txns w') + 1 = steps_count (w_txns w))%nat.
Proof.
  unfold steps_count. destruct 1 as [w i t Hi Ht|w i t e Hi Ht]; simpl.
  - destruct (read_phase_has_read t (w_db w)) as [e He]. rewrite He.
    pose proof (txn_count_insert (fun t => steps_left (tx_phase t)) _ _ _ (with_phase t (HasRead e)) Hi) as Hc.
    simpl in Hc. rewrite Ht in Hc. simpl in Hc. lia.
  - destruct (write_phase_done_r t e (w_db w)) as [r Hd]. rewrite Hd.
    pose proof (txn_count_insert (fun t => steps_left (tx_phase t)) _ _ _ (with_phase t (Done r)) Hi) as Hc.
    simpl in Hc. rewrite Ht in Hc. simpl in Hc. lia.
Qed.

Lemma nsteps_steps_left k w w' :
  nsteps step k w w' -> (k + steps_count (w_txns w') = steps_count (w_txns w))%nat.
Proof.
  induction 1 as [|k w1 w2 w3 H12 _ IH]; [done|]. pose proof (step_steps_left _ _ H12). lia.
Qed.

Lemma start_steps_left db jobs : steps_count (w_txns (start db jobs)) = (2 * length jobs)%nat.
Proof. unfold steps_count. induction jobs; simpl in *; lia. Qed.

Lemma txn_count_pos f ts :
  (0 < txn_count f ts)%nat -> exists i t, ts !! i = Some t /\ (0 < f t)%nat.
Proof.
  induction ts as [|t ts IH]; simpl; [lia|]. intros H.
  destruct (f t) eqn:E; [destruct (IH ltac:(lia)) as (i & t' & Hi & Ht); by exists (S i), t'|].
  exists 0%nat, t. split; [done|lia].
Qed.

(** A transaction that has not ended can always take its next step. *)
Lemma step_progress w : (0 < steps_count (w_txns w))%nat -> exists w', step w w'.
Proof.
  intros H. destruct (txn_count_pos _ _ H) as (i & t & Hi & Ht).
  destruct (tx_phase t) as [|e|r] eqn:E; simpl in Ht; [| |lia].
  - eexists. by eapply step_read.
  - eexists. by eapply step_write.
Qed.

Lemma steps_left_zero ts : steps_count ts = 0%nat -> Forall (fun t => exists r, tx_phase t = Done r) ts.
Proof.
  unfold steps_count. induction ts as [|t ts IH]; simpl; intros H; constructor; [|apply IH; lia].
  destruct (tx_phase t); simpl in H; [lia|lia|eauto].
Qed.

Lemma finish_from n w :
  steps_count (w_txns w) = n -> exists w', rtc step w w' /\ all_ended w'.
Proof.
  revert w. induction n as [|n IH]; intros w Hn.
  - exists w. split; [done|]. by apply steps_left_zero.
  - destruct (step_progress w ltac:(lia)) as [w1 H1].
    pose proof (step_steps_left _ _ H1) as Hc.
    destruct (IH w1 ltac:(lia)) as (w' & Hr & Hd). exists w'. split; [|done]. by eapply rtc_l.
Qed.

(** Concurrent [upsertStory] jobs never block one another and always
    end: from the start, every run of the step relation takes at most two
    steps per job; a world where no step is possible has every job
    committed or rolled back; and from every reachable world some run
    leads to such a world. *)
Theorem jobs_terminate db jobs :
  (forall k w, nsteps step k (start db jobs) w -> (k <= 2 * length jobs)%nat) /\
  (forall w, rtc step (start db jobs) w -> (forall w', ~ step w w') -> all_ended w) /\
  (forall w, rtc step (start db jobs) w -> exists w', rtc step w w' /\ all_ended w').
Proof.
  split_and!.
  - intros k w H. pose proof (nsteps_steps_left _ _ _ H) as Hc. rewrite start_steps_left in Hc. lia.
  - intros w _ Hstuck. apply steps_left_zero.
    destruct (steps_count (w_txns w)) eqn:E; [done|].
    destruct (step_progress w ltac:(lia)) as [w' Hs]. by destruct (Hstuck w').
  - intros w _. by apply (finish_from (steps_count (w_txns w)) w).
Qed.

Lemma jobs_terminate_witness :
  exists w, run_schedule mixed_schedule (start test_db_v1 mixed_jobs) = Some w /\
  nsteps step 6 (start test_db_v1 mixed_jobs) w /\ (6 <= 2 * length mixed_jobs)%nat /\ all_ended w.
Proof.
  eexists. split; [reflexivity|].
  pose proof (run_schedule_nsteps mixed_schedule (start test_db_v1 mixed_jobs) _ eq_refl) as Hn.
  split; [exact Hn|]. split; [exact (proj1 (jobs_terminate test_db_v1 mixed_jobs) 6 _ Hn)|].
  vm_compute. repeat constructor; eexists; reflexivity.
Defined.

(** C8. The lost update also leaves a diff history that contradicts
    itself.  For two jobs of a user whose document is at version [v], both
    with diff content: run one after the other they keep [history_ok];
    overlapped, both commit and both append a diff claiming version
    [v + 1] to the story, and [history_ok] fails.  (Both titles fit
    [varchar(255)].) *)
Theorem lost_update_history u p1 p2 db e :
  db_wf db -> history_ok db -> List.find (doc_of_user u) (userStoryDocuments db) = Some e ->
  (doc_version e + 1 < INT4_MAX)%Z ->
  varchar255_ok (up_title p1) = true -> varchar255_ok (up_title p2) = true ->
  hasDiff p1 = true -> hasDiff p2 = true ->
  exists ws wl,
    run_schedule serial (start db [(u, p1); (u, p2)]) = Some ws /\ history_ok (w_db ws) /\
    run_schedule overlapped (start db [(u, p1); (u, p2)]) = Some wl /\ committed wl /\
    story_history (doc_id e) (userStoryDiffs (w_db wl))
    = story_history (doc_id e) (userStoryDiffs db) ++ [Some (doc_version e + 1); Some (doc_version e + 1)]%Z /\
    ~ history_ok (w_db wl).
Proof.
  intros Hwf Hh Hf Hlt Ht1 Ht2 Hd1 Hd2. pose proof (find_version_range _ _ _ Hwf Hf) as Hr.
  destruct (write_read_row u p1 db e e Hwf Hf eq_refl ltac:(lia) Ht1)
    as (r1 & db1 & E1 & Hw1 & e1 & Hf1 & Hid1 & Hv1).
  destruct (write_read_row u p2 db1 e1 e1 Hw1 Hf1 eq_refl ltac:(lia) Ht2)
    as (r2 & db2 & E2 & _ & e2 & Hf2 & _ & _).
  destruct (write_read_row u p2 db1 e1 e Hw1 Hf1 (eq_sym Hid1) ltac:(lia) Ht2)
    as (r3 & db3 & E3 & _ & e3 & Hf3 & Hid3 & Hv3).
  assert (Hh1 : history_ok db1) by (rewrite <- (upsert_result_db u p1 db e r1 db1 Hf E1);
                                    by apply upsertStory_keeps_history).
  assert (Hh3 : story_history (doc_id e) (userStoryDiffs db3)
                = story_history (doc_id e) (userStoryDiffs db)
                  ++ [Some (doc_version e + 1); Some (doc_version e + 1)]%Z).
  { rewrite <- Hid1, (write_read_history u p2 db1 e1 e db3 r3 Hw1 Hf1 (eq_sym Hid1) ltac:(lia) Ht2 Hd2 E3), Hid1.
    rewrite (write_read_history u p1 db e e db1 r1 Hwf Hf eq_refl ltac:(lia) Ht1 Hd1 E1).
    by rewrite <- app_assoc. }
  unfold serial, overlapped, start. cbn [map fst snd].
  erewrite run_schedule_cons_some; [|apply run_read_0; reflexivity].
  rewrite (read_phase_found _ _ _ _ Hf).
  erewrite run_schedule_cons_some; [|eapply run_write_0; [reflexivity|apply write_phase_ok, E1]].
  erewrite run_schedule_cons_some; [|apply run_read_1; reflexivity].
  rewrite (read_phase_found _ _ _ _ Hf1).
  erewrite run_schedule_cons_some; [|eapply run_write_1; [reflexivity|apply write_phase_ok, E2]].
  erewrite run_schedule_cons_some; [|apply run_read_0; reflexivity].
  rewrite (read_phase_found _ _ _ _ Hf).
  erewrite run_schedule_cons_some; [|apply run_read_1; reflexivity].
  rewrite (read_phase_found _ _ _ _ Hf).
  erewrite run_schedule_cons_some; [|eapply run_write_0; [reflexivity|apply write_phase_ok, E1]].
  erewrite run_schedule_cons_some; [|eapply run_write_1; [reflexivity|apply write_phase_ok, E3]].
  eexists _, _. split; [reflexivity|]. cbn [w_db].
  split; [rewrite <- (upsert_result_db u p2 db1 e1 r2 db2 Hf1 E2); by apply upsertStory_keeps_history|].
  split; [reflexivity|]. split; [repeat constructor; eauto|]. cbn [w_db]. split; [exact Hh3|].
  intros Hok. apply (history_fits_dup (doc_version e3) (story_history (doc_id e) (userStoryDiffs db))
                       (doc_version e + 1)%Z).
  rewrite <- Hh3, <- Hid1, <- Hid3. unfold history_ok in Hok. rewrite Forall_forall in Hok. apply Hok.
  by apply find_some in Hf3 as [? _].
Qed.

Lemma lost_update_history_witness :
  db_wf test_db_v1 /\ history_ok test_db_v1 /\
  exists ws wl,
    run_schedule serial (start test_db_v1 diff_race_jobs) = Some ws /\ history_ok (w_db ws) /\
    run_schedule overlapped (start test_db_v1 diff_race_jobs) = Some wl /\ committed wl /\
    story_history (doc_id story_user_doc) (userStoryDiffs (w_db wl)) = [Some 2%Z; Some 2%Z] /\
    ~ history_ok (w_db wl).
Proof.
  assert (Hw : db_wf test_db_v1) by wf_by_check.
  assert (Hh : history_ok test_db_v1) by (apply history_okb_spec; vm_compute; reflexivity).
  split; [exact Hw|]. split; [exact Hh|].
  destruct (List.find (doc_of_user "story-user") (userStoryDocuments test_db_v1)) as [e|] eqn:Hf;
    [|vm_compute in Hf; discriminate].
  pose proof Hf as He. vm_compute in He. injection He as <-.
  destruct (lost_update_history "story-user" params_v2 params_first test_db_v1 _ Hw Hh Hf
              ltac:(vm_compute; reflexivity) eq_refl eq_refl eq_refl eq_refl)
    as (ws & wl & H1 & H2 & H3 & H4 & H5 & H6).
  exists ws, wl. split_and!; assumption.
Defined.
