(* ===== verification/Tests.v ===== *)
(** * The vitest suites of the story feature, run against the model

    Each [it(name, body)] of the three test files is a definition: its
    [body] is a computation of the model returning whether every [expect]
    of the test holds (a throw, or reading a property of [undefined], makes
    the test fail), and [it] runs it on the tables the suite's
    [beforeEach] leaves.  The outcome of each suite is then evaluated.

    - [ModelTests]: packages/database/src/models/userMemory/__tests__/
      story.test.ts, against [UserStoryModel] on the tables;
    - [ExtractorTests]: packages/memory-user-memory/src/extractors/
      story.test.ts, against [getTools], [getSchema], [buildUserPrompt] and
      [toolCall] with the runtime's mock;
    - [ServiceTests]: src/server/services/memory/userStory/__tests__/
      service.test.ts: each test constructs the service through
      [UserStoryService_new] with the [agentStory] of the mocked
      configuration (there is none, so the constructor throws), then runs
      its body, [composeStory] on the tables with the extractor's mock; the
      bodies are also evaluated under a configuration that has one.

    What the mocks record ([toHaveBeenCalledWith], [mock.calls]) is the
    argument the model passes to the mocked function: the request of
    [toolCall_request] and the options of [compose_options]. *)

From S2P Require Import Prelude Json JsonText Schema StoryModel StoryStore Extractor Service.

(** [it(name, body)] after [beforeEach]: the test passes when the body
    returns without throwing and every expectation held. *)
Definition it {S} (beforeEach : S) (body : st S bool) : bool :=
  match body beforeEach with (Ok b, _) => b | (Err _, _) => false end.

Module ModelTests.

(** [userId], [otherUserId] (lines 14-15); [beforeEach] leaves [test_db]. *)
Definition userId : string := "story-user".

(** [serverDB.query.userStoryDiffs.findMany({ where: eq(t.userId, u) })]. *)
Definition persisted_diffs (u : string) : st Tables (list UserStoryDiff) :=
  st_gets (fun db => List.filter (fun f => owned_by u (diff_userId f)) (userStoryDiffs db)).

(** "creates a new story document with optional diff" (lines 31-50). *)
Definition creates_new_story : st Tables bool :=
  r <- upsertStory userId params_first ;;
  let '(diff, document) := r in
  st_ret (match document with
          | Some document =>
              bool_decide (doc_userId document = Some userId)
              && bool_decide (doc_version document = 1%Z)
              && bool_decide (doc_story document = Some "# Story")
          | None => false
          end
          && bool_decide (diff ≫= diff_previousVersion = None)
          && bool_decide (diff_nextVersion <$> diff = Some (Some 1%Z))
          && bool_decide (diff_memoryIds <$> diff = Some (Some ["mem-1"]))
          && bool_decide (diff_sourceIds <$> diff = Some (Some ["src-1"]))).

(** "increments version and records diff on update" (lines 52-78). *)
Definition increments_version : st Tables bool :=
  _ <- upsertStory userId params_v1 ;;
  r <- upsertStory userId params_v2 ;;
  let '(diff, document) := r in
  persisted <- persisted_diffs userId ;;
  st_ret (match document with
          | Some document =>
              bool_decide (doc_version document = 2%Z)
              && bool_decide (diff_storyId <$> diff = Some (Some (doc_id document)))
          | None => false
          end
          && bool_decide (diff_previousVersion <$> diff = Some (Some 1%Z))
          && bool_decide (diff_nextVersion <$> diff = Some (Some 2%Z))
          && Nat.eqb (length persisted) 1).

(** "skips diff insert when no diff content supplied" (lines 80-92). *)
Definition skips_diff : st Tables bool :=
  r <- upsertStory userId params_story_only ;;
  persisted <- persisted_diffs userId ;;
  st_ret (bool_decide (fst r = None) && Nat.eqb (length persisted) 0).

(** "returns latest document for user" (lines 94-101). *)
Definition returns_latest : st Tables bool :=
  _ <- upsertStory userId (params_latest "# v1") ;;
  _ <- upsertStory userId (params_latest "# v2") ;;
  latest <- getLatestStoryDocument userId ;;
  st_ret (bool_decide (latest ≫= doc_story = Some "# v2")
          && bool_decide (doc_version <$> latest = Some 2%Z)).

(** The two calls of "lists diffs ordered by createdAt desc". *)
Definition params_list_1 : UpsertUserStoryParams :=
  mkUpsertParams None (Some "- change") (Some ["mem-1"]) None None None (Some ["src-1"])
    "# v1" (Some "summary") (Some "User Story").

Definition params_list_2 : UpsertUserStoryParams :=
  mkUpsertParams None (Some "- change 2") (Some ["mem-2"]) None None None (Some ["src-2"])
    "# v2" (Some "new") (Some "User Story").

(** "lists diffs ordered by createdAt desc" (lines 103-125); [diffs[0]]
    of an empty array is undefined and reading its [summary] throws. *)
Definition lists_diffs : st Tables bool :=
  _ <- upsertStory userId params_list_1 ;;
  _ <- upsertStory userId params_list_2 ;;
  diffs <- listDiffs_default userId ;;
  st_ret (Nat.eqb (length diffs) 2
          && match diffs with
             | d :: _ => bool_decide (diff_summary d = Some "new")
             | [] => false
             end).

Definition suite : list (string * st Tables bool) :=
  [("creates a new story document with optional diff", creates_new_story);
   ("increments version and records diff on update", increments_version);
   ("skips diff insert when no diff content supplied", skips_diff);
   ("returns latest document for user", returns_latest);
   ("lists diffs ordered by createdAt desc", lists_diffs)].

End ModelTests.

Module ExtractorTests.

(** [extractorConfig.model] (lines 10-14). *)
Definition model : string := "gpt-mock".

(** [templateOptions] (lines 16-24). *)
Definition templateOptions : StoryTemplateProps :=
  mkTemplateProps (Some "# Existing") (Some "English") (Some "- Event 1") (Some "- mem")
    (Some "- note") (Some "- profile") (Some "User").

(** "exposes function tool for committing stories" (lines 31-38). *)
Definition exposes_tool : bool :=
  Nat.eqb (length getTools) 1
  && bool_decide (tool_name <$> head getTools = Some "commit_user_story")
  && match getSchema with None => true | Some _ => false end.

(** "renders user prompt with provided sections" (lines 40-48). *)
Definition renders_prompt : bool :=
  let prompt := buildUserPrompt templateOptions in
  js_includes prompt "## Existing Story"
  && js_includes prompt "# Existing"
  && js_includes prompt "Recent Events".

(** [runtimeMock.generateObject.mockResolvedValue([...])] (lines 54-66):
    one call whose arguments are the [JSON.stringify] of the result. *)
Definition runtime_mock (_ : GenerateObjectRequest) : res json :=
  Ok (JArray [JObject [("arguments", JString extractor_test_args);
                       ("name", JString "commit_user_story")]]).

(** "calls runtime with structured payload" (lines 50-82), with the system
    prompt the template engine renders and the text the test expects of
    it ([renderPlaceholderTemplate(userStoryPrompt, ...)]); [call] is the
    request the mock received. *)
Definition calls_runtime (systemPrompt : StoryTemplateProps -> string) (expected : string) : bool :=
  let options := Some (mkExtractorOptions templateOptions []) in
  match toolCall json_parse systemPrompt runtime_mock model options with
  | Ok result =>
      let call := toolCall_request systemPrompt model options in
      String.eqb (ur_story result) "# Story"
      && String.eqb (req_model call) "gpt-mock"
      && bool_decide (msg_content <$> head (req_messages call) = Some expected)
  | Err _ => false
  end.

End ExtractorTests.

Module ServiceTests.

(** [userId] (line 47); [beforeEach] (lines 49-55) leaves one user. *)
Definition userId : string := "user-story-service".

Definition beforeEach : Tables := mkTables {[userId]} [] [] [] 0%N 0%Z.

(** The mocked [parseMemoryExtractionConfig] (lines 10-21) returns an
    object with [agentLayerExtractor] only: its [agentStory] is undefined. *)
Definition mocked_agentStory : option AgentConfig := None.

(** [const service = new UserStoryService(db)], then the rest of the test
    with the configuration the constructor stored. *)
Definition with_service (body : AgentConfig -> st Tables bool) : st Tables bool :=
  cfg <- st_lift (UserStoryService_new mocked_agentStory) ;;
  body cfg.

(** [service.composeStory] with the configuration [cfg], [JSON.parse] and
    the extractor resolving to [structuredResult]. *)
Definition service (cfg : AgentConfig) : UserStoryAgentPayload -> st Tables UserStoryAgentResult :=
  composeStory cfg svc_parse svc_prompt svc_generate.

(** The payload of "composes and persists story via agent" (lines 60-66). *)
Definition first_payload : UserStoryAgentPayload :=
  mkPayload None None None None (Some "- event") (Some "- mem") None (Some "- note")
    userId None (Some "User").

(** [{ userId, username: 'User' }] (lines 83, 85). *)
Definition bare_payload : UserStoryAgentPayload :=
  mkPayload None None None None None None None None userId None (Some "User").

(** The body of "composes and persists story via agent" after the
    constructor (lines 60-78): [toolCall] was called once, with the options
    of [compose_options] for the payload. *)
Definition composes_and_persists_body (cfg : AgentConfig) : st Tables bool :=
  result <- service cfg first_payload ;;
  latest <- getLatestStoryDocument userId ;;
  let call := opt_props (compose_options cfg first_payload) in
  st_ret (bool_decide (tp_language call = Some "English")
          && bool_decide (tp_username call = Some "User")
          && bool_decide (ar_document result ≫= doc_story = Some "# Story")
          && bool_decide (doc_version <$> latest = Some 1%Z)).

(** "composes and persists story via agent" (lines 58-79). *)
Definition composes_and_persists : st Tables bool := with_service composes_and_persists_body.

(** The body of "passes existing story baseline on subsequent runs" after
    the constructor (lines 83-91): two runs, then [toHaveBeenLastCalledWith],
    whose options are those the second [composeStory] built. *)
Definition passes_baseline_body (cfg : AgentConfig) : st Tables bool :=
  _ <- service cfg bare_payload ;;
  _ <- service cfg bare_payload ;;
  let lastCall := opt_props (compose_options cfg bare_payload) in
  st_ret (bool_decide (tp_existingStory lastCall = Some "# Story")).

(** "passes existing story baseline on subsequent runs" (lines 81-92). *)
Definition passes_baseline : st Tables bool := with_service passes_baseline_body.

End ServiceTests.

(** ** The outcome of each suite *)

(** The five tests of the model's suite pass against the model: each
    body, run on the tables of [beforeEach], returns without throwing and
    every expectation of the test holds. *)
Example model_suite_passes :
  Forall (fun t => it test_db (snd t) = true) ModelTests.suite.
Proof. repeat constructor; vm_compute; reflexivity. Qed.

(** The three tests of the extractor's suite pass, the third for every
    system prompt the template engine renders, when the test expects that
    same text. *)
Example extractor_suite_passes :
  ExtractorTests.exposes_tool = true /\ ExtractorTests.renders_prompt = true /\
  forall systemPrompt,
    ExtractorTests.calls_runtime systemPrompt (systemPrompt ExtractorTests.templateOptions) = true.
Proof.
  split_and!; [vm_compute; reflexivity|vm_compute; reflexivity|].
  intros systemPrompt. unfold ExtractorTests.calls_runtime. simpl.
  by rewrite bool_decide_eq_true_2.
Qed.

(** Every test of the service's suite fails, whatever its body: the mocked
    configuration has no [agentStory], so [new UserStoryService(db)]
    throws before the body runs. *)
Theorem service_suite_fails body :
  it ServiceTests.beforeEach (ServiceTests.with_service body) = false.
Proof. reflexivity. Qed.

(** With a configuration that has an [agentStory], the first test's body
    passes. *)
Example composes_and_persists_body_passes :
  it ServiceTests.beforeEach (ServiceTests.composes_and_persists_body svc_cfg) = true.
Proof. vm_compute. reflexivity. Qed.

(** The second test fails under every configuration: [composeStory]
    builds the extractor's [existingStory] from the payload alone, so the
    second run of [composeStory({ userId, username })] hands the extractor
    no baseline, although the first run stored ["# Story"]. *)
Theorem passes_baseline_body_fails cfg :
  it ServiceTests.beforeEach (ServiceTests.passes_baseline_body cfg) = false.
Proof.
  unfold it, ServiceTests.passes_baseline_body, st_bind, st_ret.
  repeat case_match; simplify_eq; done.
Qed.
